(** * Double-colour-ball recommender: the core of [ssq_gui_v3.py]

    A shallow embedding of the parts of the program that carry its logic:
    [SSQCore.parse_numbers], [SSQCore.analyze_frequency], the eight
    strategies of [RecommendEngine] with their dispatch, [MessageQueue],
    and of [SSQGUI] the worker, the panels and the chart's reader.

    Conventions.
    - A Python [int] is a [Z]; a Python [float] is idealised as an exact
      rational [Q] (rounding is not modelled).
    - A [str] is the string of its UTF-8 bytes; [int] decodes them as
      CPython does (white space and decimal digits of every script).
    - A [dict] is an association list in insertion order, since
      [sorted(d.items(), key=...)] is stable over that order.
    - The random source is an explicit tape of raw draws; every primitive of
      the [random] module reads the next cell and reduces it into its range.
    - An exception is a [Raise] outcome, an exhausted loop budget is
      [OutOfFuel]; only the three [while] loops of the engine need a budget. *)

From Stdlib Require Import String Ascii.
From Stdlib Require Import ZArith QArith List Bool Lia Lqa.
From Stdlib Require Import Permutation Sorted.
From Stdlib Require Import DecimalString.
Import ListNotations.
Open Scope Z_scope.

(** ** Python built-ins used by the program *)

Module Py.

(** [range(lo, hi)] *)
Definition range (lo hi : Z) : list Z :=
  map (fun i => lo + Z.of_nat i) (seq 0 (Z.to_nat (hi - lo))).

(** [sum(l)] *)
Definition sum (l : list Z) : Z := fold_left Z.add l 0.

(** [x in l] for a list of integers *)
Definition contains (x : Z) (l : list Z) : bool := existsb (Z.eqb x) l.

(** [sorted] is a stable sort.  [insert_by le x l] puts [x] in front of the
    first element it does not exceed, so that [x], which stood before all
    of [l] in the input, stays before its equals. *)
Section Sorting.
Context {A : Type} (le : A -> A -> bool).

Fixpoint insert_by (x : A) (l : list A) : list A :=
  match l with
  | [] => [x]
  | y :: l' => if le x y then x :: l else y :: insert_by x l'
  end.

Definition sorted_by (l : list A) : list A := fold_right insert_by [] l.
End Sorting.

(** [sorted(l)] on integers *)
Definition sorted (l : list Z) : list Z := sorted_by Z.leb l.

(** [l[:n]] *)
Definition slice_to {A} (n : nat) (l : list A) : list A := firstn n l.

(** [list(set(l))]: the distinct elements of [l].  CPython iterates a set
    in hash-table order; the program sorts the result at once, so any
    fixed order of the distinct elements gives the same outcome. *)
Definition list_set (l : list Z) : list Z := nodup Z.eq_dec l.

(** [l[i] = v] within range *)
Fixpoint setitem {A} (l : list A) (i : nat) (v : A) : list A :=
  match l, i with
  | [], _ => []
  | _ :: t, O => v :: t
  | h :: t, S i' => h :: setitem t i' v
  end.

(** A [dict] with integer keys and values, in insertion order. *)
Definition dict := list (Z * Z).

(** [d.items()] *)
Definition items (d : dict) : list (Z * Z) := d.

(** [d.get(k, default)] *)
Fixpoint get (d : dict) (k : Z) (default : Z) : Z :=
  match d with
  | [] => default
  | (k', v) :: d' => if k' =? k then v else get d' k default
  end.

(** [d[k] += 1] on a [defaultdict(int)]: an existing key keeps its place,
    a new key is appended with count 1. *)
Fixpoint incr (d : dict) (k : Z) : dict :=
  match d with
  | [] => [(k, 1)]
  | (k', v) :: d' => if k' =? k then (k', v + 1) :: d' else (k', v) :: incr d' k
  end.

(** [sorted(d.items(), key=lambda x: x[1], reverse=True)]: descending
    count, equal counts in insertion order ([reverse=True] keeps the sort
    stable). *)
Definition sorted_desc (d : dict) : list (Z * Z) :=
  sorted_by (fun a b => snd b <=? snd a) (items d).

(** [sorted(d.items(), key=lambda x: x[1])] *)
Definition sorted_asc (d : dict) : list (Z * Z) :=
  sorted_by (fun a b => snd a <=? snd b) (items d).

End Py.

(** ** The [random] module, over an explicit tape *)

Module Random.

(** The generator: an infinite tape of raw draws and the read position. *)
Record rng := mkRng { tape : nat -> Z; cursor : nat }.

Inductive exn := IndexError | ValueError.

Inductive outcome (A : Type) : Type :=
| Ok (a : A) (g : rng)
| Raise (e : exn)
| OutOfFuel.
Arguments Ok {A} a g.
Arguments Raise {A} e.
Arguments OutOfFuel {A}.

Definition M (A : Type) : Type := rng -> outcome A.

Definition ret {A} (a : A) : M A := fun g => Ok a g.

Definition bind {A B} (m : M A) (k : A -> M B) : M B :=
  fun g =>
    match m g with
    | Ok a g' => k a g'
    | Raise e => Raise e
    | OutOfFuel => OutOfFuel
    end.

Definition raise {A} (e : exn) : M A := fun _ => Raise e.
Definition out_of_fuel {A} : M A := fun _ => OutOfFuel.

Notation "x <- c1 ;; c2" := (bind c1 (fun x => c2))
  (at level 61, c1 at next level, right associativity).

(** One raw draw. *)
Definition next_raw : M Z :=
  fun g => Ok (tape g (cursor g)) (mkRng (tape g) (S (cursor g))).

(** [_randbelow(n)]: an integer of [0, n). *)
Definition _randbelow (n : Z) : M Z :=
  x <- next_raw ;; ret (x mod n).

(** [random()]: a multiple of 2^-53 in [0, 1). *)
Definition random : M Q :=
  x <- next_raw ;; ret (Qmake (x mod 2 ^ 53) (2 ^ 53)).

(** [uniform(a, b)] is [a + (b - a) * random()]. *)
Definition uniform (a b : Q) : M Q :=
  u <- random ;; ret (a + (b - a) * u)%Q.

(** [randint(a, b)] is [a + _randbelow(b - a + 1)]. *)
Definition randint (a b : Z) : M Z :=
  j <- _randbelow (b - a + 1) ;; ret (a + j).

(** [choice(seq)] is [seq[_randbelow(len(seq))]]. *)
Definition choice (seq : list Z) : M Z :=
  match seq with
  | [] => raise IndexError
  | _ => j <- _randbelow (Z.of_nat (length seq)) ;; ret (nth (Z.to_nat j) seq 0)
  end.

(** [sample(population, k)], the pool branch of CPython:
    [for i in range(k): j = _randbelow(n - i); result[i] = pool[j];
     pool[j] = pool[n - i - 1]].
    CPython leaves this branch only for [n] above 21 (above 85 when
    [k = 6]); the populations of this program have at most 33 elements. *)
Fixpoint sample_loop (k live : nat) (pool : list Z) : M (list Z) :=
  match k with
  | O => ret []
  | S k' =>
      j <- _randbelow (Z.of_nat live) ;;
      let x := nth (Z.to_nat j) pool 0 in
      let pool' := Py.setitem pool (Z.to_nat j) (nth (live - 1) pool 0) in
      rest <- sample_loop k' (live - 1) pool' ;;
      ret (x :: rest)
  end.

Definition sample (population : list Z) (k : nat) : M (list Z) :=
  if (k <=? length population)%nat
  then sample_loop k (length population) population
  else raise ValueError.

(** [accumulate(weights)] *)
Fixpoint accumulate_from (acc : Q) (ws : list Q) : list Q :=
  match ws with
  | [] => []
  | w :: ws' => (acc + w)%Q :: accumulate_from (acc + w)%Q ws'
  end.
Definition accumulate (ws : list Q) : list Q :=
  match ws with
  | [] => []
  | w :: ws' => w :: accumulate_from w ws'
  end.

Definition Qlt_bool (x y : Q) : bool := negb (Qle_bool y x).

(** [bisect_right(a, x, lo, hi)]:
    [while lo < hi: mid = (lo + hi) // 2;
       if x < a[mid]: hi = mid else: lo = mid + 1]. *)
Fixpoint bisect_loop (steps : nat) (a : list Q) (x : Q) (lo hi : nat) : nat :=
  match steps with
  | O => lo
  | S steps' =>
      if (lo <? hi)%nat then
        let mid := ((lo + hi) / 2)%nat in
        if Qlt_bool x (nth mid a 0%Q)
        then bisect_loop steps' a x lo mid
        else bisect_loop steps' a x (mid + 1)%nat hi
      else lo
  end.
Definition bisect (a : list Q) (x : Q) (lo hi : nat) : nat :=
  bisect_loop (hi - lo) a x lo hi.

(** [choices(population, weights, k)]: [k] independent draws, each
    [population[bisect(cum_weights, random() * total, 0, n - 1)]]. *)
Fixpoint choices_loop (population : list Z) (cum : list Q) (total : Q)
    (k : nat) : M (list Z) :=
  match k with
  | O => ret []
  | S k' =>
      u <- random ;;
      let i := bisect cum (u * total)%Q 0 (length population - 1) in
      rest <- choices_loop population cum total k' ;;
      ret (nth i population 0 :: rest)
  end.

Definition choices (population : list Z) (weights : list Q) (k : nat)
    : M (list Z) :=
  let cum := accumulate weights in
  if negb (length cum =? length population)%nat then raise ValueError
  else
    let total := last cum 0%Q in
    if Qle_bool total 0 then raise ValueError
    else choices_loop population cum total k.

End Random.

(** ** Strings: [str.split] and [int] *)

Module Str.

(** [s.split(sep)] for a one-character separator: never empty, one more
    piece than there are separators. *)
Fixpoint split (sep : ascii) (s : string) : list string :=
  match s with
  | EmptyString => [EmptyString]
  | String c s' =>
      if Ascii.eqb c sep then EmptyString :: split sep s'
      else match split sep s' with
           | [] => [String c EmptyString]
           | piece :: pieces => String c piece :: pieces
           end
  end.

(** White space of [str.strip] and [str.split] among the ASCII characters:
    tab to carriage return, the four separators 28 to 31, and the space. *)
Definition is_space (c : ascii) : bool :=
  let n := nat_of_ascii c in
  ((9 <=? n) && (n <=? 13) || (28 <=? n) && (n <=? 32))%nat.

Definition digit_of (c : ascii) : option Z :=
  let n := nat_of_ascii c in
  if ((48 <=? n) && (n <=? 57))%nat then Some (Z.of_nat (n - 48)) else None.

Fixpoint lstrip (l : list ascii) : list ascii :=
  match l with
  | c :: l' => if is_space c then lstrip l' else l
  | [] => []
  end.

Definition strip (l : list ascii) : list ascii := rev (lstrip (rev (lstrip l))).

(** *** [int] of a text

    CPython's [int(s)] for a string: every character from 127 up is first
    replaced (a white space by a space, a decimal digit of any script by
    its ASCII digit, anything else by a character that is no part of a
    number), then the C parser reads white space, a sign, digits with
    single underscores between them, and white space to the end. *)

(** The code points of a text from its UTF-8 bytes: [pending] bytes of the
    character being read are still to come, [acc] holds its bits so far.
    A byte that cannot stand where it does gives the replacement
    character 65533. *)
Fixpoint code_points (bytes : list ascii) (pending : nat) (acc : N) : list N :=
  match bytes with
  | [] => match pending with O => [] | S _ => [65533%N] end
  | b :: bytes' =>
      let n := N_of_ascii b in
      match pending with
      | O =>
          if (n <? 128)%N then n :: code_points bytes' 0 0
          else if (n <? 192)%N then 65533%N :: code_points bytes' 0 0
          else if (n <? 224)%N then code_points bytes' 1 (n - 192)
          else if (n <? 240)%N then code_points bytes' 2 (n - 224)
          else if (n <? 248)%N then code_points bytes' 3 (n - 240)
          else 65533%N :: code_points bytes' 0 0
      | S pending' =>
          if ((128 <=? n) && (n <? 192))%N
          then
            let acc' := (acc * 64 + (n - 128))%N in
            match pending' with
            | O => acc' :: code_points bytes' 0 0
            | S _ => code_points bytes' pending' acc'
            end
          else 65533%N :: code_points bytes' 0 0
      end
  end.

(** The white space from 127 up ([Py_UNICODE_ISSPACE]) *)
Definition unicode_spaces : list N :=
  [133; 160; 5760; 8192; 8193; 8194; 8195; 8196; 8197; 8198; 8199; 8200;
   8201; 8202; 8232; 8233; 8239; 8287; 12288]%N.

(** The digit zero of every script but ASCII (Unicode 14, as CPython 3.11
    has it); the nine code points after each are its digits 1 to 9. *)
Definition decimal_zeros : list N :=
  [1632; 1776; 1984; 2406; 2534; 2662; 2790; 2918; 3046; 3174; 3302; 3430;
   3558; 3664; 3792; 3872; 4160; 4240; 6112; 6160; 6470; 6608; 6784; 6800;
   6992; 7088; 7232; 7248; 42528; 43216; 43264; 43472; 43504; 43600; 44016;
   65296; 66720; 68912; 69734; 69872; 69942; 70096; 70384; 70736; 70864;
   71248; 71360; 71472; 71904; 72016; 72784; 73040; 73120; 92768; 92864;
   93008; 120782; 120792; 120802; 120812; 120822; 123200; 123632; 125264;
   130032]%N.

(** [Py_UNICODE_TODECIMAL] from 127 up *)
Definition to_decimal (cp : N) : option N :=
  match find (fun zero => (zero <=? cp) && (cp <? zero + 10))%N decimal_zeros with
  | Some zero => Some (cp - zero)%N
  | None => None
  end.

(** One character of [_PyUnicode_TransformDecimalAndSpaceToASCII] *)
Definition to_ascii (cp : N) : ascii :=
  if (cp <? 127)%N then ascii_of_N cp
  else if existsb (N.eqb cp) unicode_spaces then " "%char
  else match to_decimal cp with
       | Some d => ascii_of_N (48 + d)
       | None => "?"%char
       end.

(** [Py_ISSPACE], the white space the C parser skips: tab to carriage
    return, and the space. *)
Definition is_c_space (c : ascii) : bool :=
  let n := nat_of_ascii c in
  ((9 <=? n) && (n <=? 13) || (n =? 32))%nat.

Fixpoint skip_spaces (l : list ascii) : list ascii :=
  match l with
  | c :: l' => if is_c_space c then skip_spaces l' else l
  | [] => []
  end.

(** Decimal digits, a single underscore allowed between two digits.
    Returns the value and the number of digits read. *)
Fixpoint parse_digits (l : list ascii) (acc : Z) (ndigits : nat)
    (after_digit : bool) : option (Z * nat) :=
  match l with
  | [] => if after_digit then Some (acc, ndigits) else None
  | c :: l' =>
      match digit_of c with
      | Some d => parse_digits l' (10 * acc + d) (S ndigits) true
      | None =>
          if Ascii.eqb c "_" && after_digit
          then parse_digits l' acc ndigits false
          else None
      end
  end.

(** [sys.get_int_max_str_digits()] by default *)
Definition max_str_digits : nat := 4300.

(** [int(s)] on the UTF-8 bytes of [s]; [None] is [ValueError]. *)
Definition int (s : string) : option Z :=
  let text := map to_ascii (code_points (list_ascii_of_string s) 0 0) in
  let body := rev (skip_spaces (rev (skip_spaces text))) in
  let '(negative, digits) :=
    match body with
    | c :: rest =>
        if Ascii.eqb c "-" then (true, rest)
        else if Ascii.eqb c "+" then (false, rest)
        else (false, body)
    | [] => (false, [])
    end in
  match parse_digits digits 0 0 false with
  | Some (v, n) =>
      if (n <=? max_str_digits)%nat
      then Some (if negative then - v else v)
      else None
  | None => None
  end.

(** Truth value of a string: non-empty. *)
Definition truthy (s : string) : bool :=
  match s with EmptyString => false | _ => true end.

(** *** Text of the result panel

    The functions below work on the UTF-8 bytes of the Python text: a
    one-character ASCII separator, a substring test and the ASCII white
    space then behave on the bytes as on the characters. *)

(** [str(n)] of an integer, as in [f"{n}"] *)
Definition format_d (n : Z) : string := NilZero.string_of_int (Z.to_int n).

(** [f"{n:02d}"]: the sign, then the digits filled with zeros on the left
    to a width of two. *)
Definition format_02d (n : Z) : string :=
  let s := format_d n in
  if (String.length s <? 2)%nat then String "0" s else s.

(** [sep.join(pieces)] *)
Fixpoint join (sep : string) (pieces : list string) : string :=
  match pieces with
  | [] => EmptyString
  | [piece] => piece
  | piece :: pieces' => (piece ++ sep ++ join sep pieces')%string
  end.

(** [pattern in s] *)
Fixpoint contains (pattern s : string) : bool :=
  String.prefix pattern s ||
  match s with
  | EmptyString => false
  | String _ s' => contains pattern s'
  end.

(** [s.replace(c, '')] for a one-character [c] *)
Fixpoint remove_char (c : ascii) (s : string) : string :=
  match s with
  | EmptyString => EmptyString
  | String a s' => if Ascii.eqb a c then remove_char c s' else String a (remove_char c s')
  end.

(** [s.strip()] *)
Definition strip_s (s : string) : string :=
  string_of_list_ascii (strip (list_ascii_of_string s)).

(** [s.split()]: the maximal runs of characters that are no white space.
    [word] holds the characters of the run being read, last first. *)
Fixpoint words_from (l : list ascii) (word : list ascii) : list string :=
  match l with
  | [] => match word with [] => [] | _ => [string_of_list_ascii (rev word)] end
  | c :: l' =>
      if is_space c
      then match word with
           | [] => words_from l' []
           | _ => string_of_list_ascii (rev word) :: words_from l' []
           end
      else words_from l' (c :: word)
  end.

Definition words (s : string) : list string := words_from (list_ascii_of_string s) [].

(** The line feed *)
Definition newline : ascii := "010"%char.

End Str.

(** ** [SSQCore]: from draw records to frequency tables *)

Module SSQCore.

(** A draw record as the parser reads it: the values under the keys
    ['red'] and ['blue'], each a string when the key is present. *)
Record item := { red : option string; blue : option string }.

(** [[int(x) for x in pieces]]: the first piece that is no integer aborts
    the whole comprehension. *)
Fixpoint ints_of (pieces : list string) : option (list Z) :=
  match pieces with
  | [] => Some []
  | x :: pieces' =>
      match Str.int x with
      | None => None
      | Some n =>
          match ints_of pieces' with
          | None => None
          | Some ns => Some (n :: ns)
          end
      end
  end.

(** The body of the [for item in data] loop, on the two accumulators. *)
Definition parse_item (acc : list Z * list Z) (it : item) : list Z * list Z :=
  let '(red_balls, blue_balls) := acc in
  let red_balls :=
    match red it with
    | Some s =>
        if Str.truthy s then
          match ints_of (Str.split "," s) with
          | Some nums =>
              if (length nums =? 6)%nat then red_balls ++ nums else red_balls
          | None => red_balls
          end
        else red_balls
    | None => red_balls
    end in
  let blue_balls :=
    match blue it with
    | Some s =>
        if Str.truthy s then
          match Str.int s with
          | Some n => blue_balls ++ [n]
          | None => blue_balls
          end
        else blue_balls
    | None => blue_balls
    end in
  (red_balls, blue_balls).

Definition parse_numbers (data : list item) : list Z * list Z :=
  fold_left parse_item data ([], []).

(** [for num in balls: if 1 <= num <= hi: freq[num] += 1] *)
Definition count_into (hi : Z) (freq : Py.dict) (balls : list Z) : Py.dict :=
  fold_left
    (fun freq num => if (1 <=? num) && (num <=? hi) then Py.incr freq num else freq)
    balls freq.

Definition analyze_frequency (red_balls blue_balls : list Z) : Py.dict * Py.dict :=
  (count_into 33 [] red_balls, count_into 16 [] blue_balls).

(** [save_data_to_cache] keeps of every record only
    [{'red': item.get('red', ''), 'blue': item.get('blue', '')}]; this list
    is what is written under ['data'] and what [load_cached_data] hands
    back. *)
Definition simplify (it : item) : item :=
  {| red := Some (match red it with Some s => s | None => EmptyString end);
     blue := Some (match blue it with Some s => s | None => EmptyString end) |}.

Definition simplified_data (data : list item) : list item := map simplify data.

End SSQCore.

(** ** [RecommendEngine]: the eight strategies and their dispatch *)

Module RecommendEngine.
Import Random.

(** [RecommendAlgorithm], the enumeration. *)
Inductive RecommendAlgorithm :=
| FREQUENCY_WEIGHTED
| PURE_RANDOM
| PURE_FREQUENCY
| HOT_COLD_BALANCE
| INTERVAL_DISTRIBUTION
| ODD_EVEN_BALANCE
| SUM_OPTIMIZED
| NO_CONSECUTIVE.

(** What a caller can pass as [algorithm]: a member of the enumeration, or
    any other plain value (a key string such as ["pure_random"], [None],
    a number, the value tuple of a member). *)
Inductive foreign :=
| PyNone
| PyStr (s : string)
| PyInt (z : Z)
| PyPair (key description : string).

Inductive algorithm_arg :=
| Member (a : RecommendAlgorithm)
| NonMember (v : foreign).

Definition member_eqb (a b : RecommendAlgorithm) : bool :=
  match a, b with
  | FREQUENCY_WEIGHTED, FREQUENCY_WEIGHTED
  | PURE_RANDOM, PURE_RANDOM
  | PURE_FREQUENCY, PURE_FREQUENCY
  | HOT_COLD_BALANCE, HOT_COLD_BALANCE
  | INTERVAL_DISTRIBUTION, INTERVAL_DISTRIBUTION
  | ODD_EVEN_BALANCE, ODD_EVEN_BALANCE
  | SUM_OPTIMIZED, SUM_OPTIMIZED
  | NO_CONSECUTIVE, NO_CONSECUTIVE => true
  | _, _ => false
  end.

(** [algorithm == RecommendAlgorithm.X]: members compare by identity, and
    no plain value equals a member. *)
Definition py_eq (x : algorithm_arg) (m : RecommendAlgorithm) : bool :=
  match x with
  | Member a => member_eqb a m
  | NonMember _ => false
  end.

(** One recommendation, [{'red': [...], 'blue': n}]. *)
Record recommendation := { red : list Z; blue : Z }.

Definition all_reds : list Z := Py.range 1 34.
Definition all_blues : list Z := Py.range 1 17.

(** [for _ in range(count): recommendations.append(<body>)] *)
Fixpoint append_each (n : nat) (body : M recommendation)
    (recommendations : list recommendation) : M (list recommendation) :=
  match n with
  | O => ret recommendations
  | S n' =>
      rec <- body ;;
      append_each n' body (recommendations ++ [rec])
  end.

Definition for_range (count : Z) (body : M recommendation)
    : M (list recommendation) :=
  append_each (Z.to_nat count) body [].

(** *** 1. frequency weighted *)

(** [[red_freq.get(num, 1) + random.uniform(0.1, 1.0) for num in all_reds]] *)
Fixpoint jittered_weights (red_freq : Py.dict) (nums : list Z) : M (list Q) :=
  match nums with
  | [] => ret []
  | num :: nums' =>
      jitter <- uniform (1 # 10) 1 ;;
      ws <- jittered_weights red_freq nums' ;;
      ret ((inject_Z (Py.get red_freq num 1) + jitter)%Q :: ws)
  end.

(** [while len(selected_reds) < 6: candidate = random.randint(1, 33); ...] *)
Fixpoint top_up (fuel : nat) (selected_reds : list Z) : M (list Z) :=
  if (length selected_reds <? 6)%nat then
    match fuel with
    | O => out_of_fuel
    | S fuel' =>
        candidate <- randint 1 33 ;;
        if negb (Py.contains candidate selected_reds)
        then top_up fuel'
               (Py.sorted (Py.slice_to 6 (selected_reds ++ [candidate])))
        else top_up fuel' selected_reds
    end
  else ret selected_reds.

(** [random.choices(all_reds, weights=red_weights, k=6)] after the weights
    have been drawn. *)
Definition weighted_picks (red_freq : Py.dict) : M (list Z) :=
  red_weights <- jittered_weights red_freq all_reds ;;
  choices all_reds red_weights 6.

Definition blue_weights (blue_freq : Py.dict) : list Q :=
  map (fun num => inject_Z (Py.get blue_freq num 1)) all_blues.

Definition frequency_weighted_one (fuel : nat) (red_freq blue_freq : Py.dict)
    : M recommendation :=
  picks <- weighted_picks red_freq ;;
  let selected_reds := Py.sorted (Py.slice_to 6 (Py.list_set picks)) in
  selected_reds <- top_up fuel selected_reds ;;
  drawn <- choices all_blues (blue_weights blue_freq) 1 ;;
  match drawn with
  | selected_blue :: _ => ret {| red := selected_reds; blue := selected_blue |}
  | [] => raise IndexError
  end.

Definition _frequency_weighted (fuel : nat) (red_freq blue_freq : Py.dict)
    (count : Z) : M (list recommendation) :=
  for_range count (frequency_weighted_one fuel red_freq blue_freq).

(** *** 2. pure random *)

Definition pure_random_one : M recommendation :=
  s <- sample (Py.range 1 34) 6 ;;
  let reds := Py.sorted s in
  blue <- randint 1 16 ;;
  ret {| red := reds; blue := blue |}.

Definition _pure_random (count : Z) : M (list recommendation) :=
  for_range count pure_random_one.

(** *** 3. pure frequency *)

(** [[num for num, _ in sorted(...)[:6]]], then [sorted] *)
Definition top_reds (red_freq : Py.dict) : list Z :=
  Py.sorted (map fst (Py.slice_to 6 (Py.sorted_desc red_freq))).

(** [seq[0][0]] on a list of pairs *)
Definition first_key (l : list (Z * Z)) : M Z :=
  match l with
  | [] => raise IndexError
  | (k, _) :: _ => ret k
  end.

Definition _pure_frequency (red_freq blue_freq : Py.dict) (count : Z)
    : M (list recommendation) :=
  let top_reds := top_reds red_freq in
  top_blue <- first_key (Py.sorted_desc blue_freq) ;;
  for_range count (ret {| red := top_reds; blue := top_blue |}).

(** *** 4. hot and cold *)

Definition hot_cold_one (red_freq blue_freq : Py.dict) : M recommendation :=
  let hot := Py.slice_to 10 (Py.sorted_desc red_freq) in
  let cold := Py.slice_to 10 (Py.sorted_asc red_freq) in
  hot_selected <- sample (map fst hot) 3 ;;
  cold_selected <- sample (map fst cold) 3 ;;
  let selected_reds := Py.sorted (hot_selected ++ cold_selected) in
  hot_blue <- first_key (Py.sorted_desc blue_freq) ;;
  cold_blue <- first_key (Py.sorted_asc blue_freq) ;;
  selected_blue <- choice [hot_blue; cold_blue] ;;
  ret {| red := selected_reds; blue := selected_blue |}.

Definition _hot_cold_balance (red_freq blue_freq : Py.dict) (count : Z)
    : M (list recommendation) :=
  for_range count (hot_cold_one red_freq blue_freq).

(** *** 5. interval distribution *)

Definition interval_one : M recommendation :=
  interval1 <- sample (Py.range 1 12) 2 ;;
  interval2 <- sample (Py.range 12 23) 2 ;;
  interval3 <- sample (Py.range 23 34) 2 ;;
  let selected_reds := Py.sorted (interval1 ++ interval2 ++ interval3) in
  low <- randint 1 8 ;;
  high <- randint 9 16 ;;
  selected_blue <- choice [low; high] ;;
  ret {| red := selected_reds; blue := selected_blue |}.

Definition _interval_distribution (red_freq blue_freq : Py.dict) (count : Z)
    : M (list recommendation) :=
  for_range count interval_one.

(** *** 6. odd and even *)

Definition odd_even_one : M recommendation :=
  odds <- sample (filter (fun x => x mod 2 =? 1) (Py.range 1 34)) 3 ;;
  evens <- sample (filter (fun x => x mod 2 =? 0) (Py.range 1 34)) 3 ;;
  let selected_reds := Py.sorted (odds ++ evens) in
  b <- randint 1 16 ;;
  selected_blue <- choice [b] ;;
  ret {| red := selected_reds; blue := selected_blue |}.

Definition _odd_even_balance (red_freq blue_freq : Py.dict) (count : Z)
    : M (list recommendation) :=
  for_range count odd_even_one.

(** *** 7. sum optimised *)

(** [while True: ...; if 80 <= sum_value <= 140: break] *)
Fixpoint sum_loop (fuel : nat) : M (list Z) :=
  match fuel with
  | O => out_of_fuel
  | S fuel' =>
      s <- sample (Py.range 1 34) 6 ;;
      let selected_reds := Py.sorted s in
      let sum_value := Py.sum selected_reds in
      if (80 <=? sum_value) && (sum_value <=? 140)
      then ret selected_reds
      else sum_loop fuel'
  end.

Definition sum_optimized_one (fuel : nat) : M recommendation :=
  selected_reds <- sum_loop fuel ;;
  selected_blue <- randint 1 16 ;;
  ret {| red := selected_reds; blue := selected_blue |}.

Definition _sum_optimized (fuel : nat) (red_freq blue_freq : Py.dict)
    (count : Z) : M (list recommendation) :=
  for_range count (sum_optimized_one fuel).

(** *** 8. no consecutive numbers *)

(** [for i in range(len(l) - 1): if l[i + 1] - l[i] == 1: ...; break] *)
Fixpoint has_consecutive (l : list Z) : bool :=
  match l with
  | a :: (b :: _) as rest =>
      if b - a =? 1 then true else has_consecutive rest
  | _ => false
  end.

Fixpoint no_consecutive_loop (fuel : nat) : M (list Z) :=
  match fuel with
  | O => out_of_fuel
  | S fuel' =>
      s <- sample (Py.range 1 34) 6 ;;
      let selected_reds := Py.sorted s in
      if negb (has_consecutive selected_reds)
      then ret selected_reds
      else no_consecutive_loop fuel'
  end.

Definition no_consecutive_one (fuel : nat) : M recommendation :=
  selected_reds <- no_consecutive_loop fuel ;;
  selected_blue <- randint 1 16 ;;
  ret {| red := selected_reds; blue := selected_blue |}.

Definition _no_consecutive (fuel : nat) (red_freq blue_freq : Py.dict)
    (count : Z) : M (list recommendation) :=
  for_range count (no_consecutive_one fuel).

(** *** Dispatch *)

Definition generate (fuel : nat) (algorithm : algorithm_arg)
    (red_freq blue_freq : Py.dict) (count : Z) : M (list recommendation) :=
  if py_eq algorithm FREQUENCY_WEIGHTED then
    _frequency_weighted fuel red_freq blue_freq count
  else if py_eq algorithm PURE_RANDOM then
    _pure_random count
  else if py_eq algorithm PURE_FREQUENCY then
    _pure_frequency red_freq blue_freq count
  else if py_eq algorithm HOT_COLD_BALANCE then
    _hot_cold_balance red_freq blue_freq count
  else if py_eq algorithm INTERVAL_DISTRIBUTION then
    _interval_distribution red_freq blue_freq count
  else if py_eq algorithm ODD_EVEN_BALANCE then
    _odd_even_balance red_freq blue_freq count
  else if py_eq algorithm SUM_OPTIMIZED then
    _sum_optimized fuel red_freq blue_freq count
  else if py_eq algorithm NO_CONSECUTIVE then
    _no_consecutive fuel red_freq blue_freq count
  else
    _frequency_weighted fuel red_freq blue_freq count.

End RecommendEngine.

(** ** [MessageQueue] *)

Module MessageQueue.

Inductive MessageType :=
| FETCH_SUCCESS
| FETCH_ERROR
| RECOMMEND_SUCCESS
| ERROR
| PROGRESS_START
| PROGRESS_STOP.

(** The payload of a message: a string, or [None]. *)
Definition payload := option string.

(** The state of [self.queue]: the pending [(msg_type, data)] pairs,
    oldest first. *)
Definition queue := list (MessageType * payload).

(** [queue.Queue()] *)
Definition __init__ : queue := [].

(** [self.queue.put((msg_type, data))] on an unbounded queue *)
Definition send (q : queue) (msg_type : MessageType) (data : payload) : queue :=
  q ++ [(msg_type, data)].

Inductive Empty := QueueEmpty.

(** [self.queue.get_nowait()]: the oldest pair, or [queue.Empty]. *)
Definition get_nowait (q : queue) : (MessageType * payload + Empty) * queue :=
  match q with
  | [] => (inr QueueEmpty, q)
  | m :: q' => (inl m, q')
  end.

(** [receive]: the pair taken, or [(None, None)] when [queue.Empty] is
    caught. *)
Definition receive (q : queue) : (option MessageType * payload) * queue :=
  match get_nowait q with
  | (inl (msg_type, data), q') => ((Some msg_type, data), q')
  | (inr _, q') => ((None, None), q')
  end.

(** [clear]: [while not self.queue.empty(): self.queue.get_nowait()] *)
Fixpoint clear (q : queue) : queue :=
  match q with
  | [] => []
  | _ :: q' => clear q'
  end.

(** The queue after the given messages have been sent, in order. *)
Definition send_all (q : queue) (messages : list (MessageType * payload)) : queue :=
  fold_left (fun q m => send q (fst m) (snd m)) messages q.

End MessageQueue.

(** ** [SSQGUI]: the worker, the history panel and the latest draw *)

Module SSQGUI.
Import Random RecommendEngine Str.

(** [_generate_recommend_worker], from the cached records to the call of
    the engine: the records are parsed and counted, and [generate] is
    called without a count, that is with its default of 5. *)
Definition worker_recommendations (fuel : nat) (algorithm : algorithm_arg)
    (data : list SSQCore.item) : M (list recommendation) :=
  let '(red_balls, blue_balls) := SSQCore.parse_numbers data in
  let '(red_freq, blue_freq) := SSQCore.analyze_frequency red_balls blue_balls in
  generate fuel algorithm red_freq blue_freq 5.

(** The type of the one message [_generate_recommend_worker] sends:
    [RECOMMEND_SUCCESS] once the engine has returned (formatting the
    numbers cannot raise), [ERROR] from the [except Exception] handler
    when it raises; nothing while it runs. *)
Definition _generate_recommend_worker (fuel : nat) (algorithm : algorithm_arg)
    (data : list SSQCore.item) (g : rng) : option MessageQueue.MessageType :=
  match worker_recommendations fuel algorithm data g with
  | Ok _ _ => Some MessageQueue.RECOMMEND_SUCCESS
  | Raise _ => Some MessageQueue.ERROR
  | OutOfFuel => None
  end.

(** [for i in range(0, 14, 2): num1, freq1 = ranked[i]; num2, freq2 =
    ranked[i + 1]], as the history panel of [process_messages] reads each
    of its four rankings: the pairs of entries of the lines, or [None] for
    the [IndexError] of an index past the end. *)
Fixpoint pairs_from (ranked : list (Z * Z)) (i steps : nat)
    : option (list ((Z * Z) * (Z * Z))) :=
  match steps with
  | O => Some []
  | S steps' =>
      match nth_error ranked i, nth_error ranked (i + 1) with
      | Some first, Some second =>
          match pairs_from ranked (i + 2) steps' with
          | Some lines => Some ((first, second) :: lines)
          | None => None
          end
      | _, _ => None
      end
  end.

(** The lines of one panel, from a ranking cut to its first 14 entries *)
Definition panel_lines (ranking : list (Z * Z)) : option (list ((Z * Z) * (Z * Z))) :=
  pairs_from (Py.slice_to 14 ranking) 0 7.

(** The four panels (hot reds, cold reds, hot blues, cold blues).  The
    four loops run before any panel is written, inside one [try]: an
    [IndexError] in any of them leaves all four panels as they were
    ([None]). *)
Definition history_panels (red_freq blue_freq : Py.dict)
    : option (list ((Z * Z) * (Z * Z)) * list ((Z * Z) * (Z * Z)) *
              list ((Z * Z) * (Z * Z)) * list ((Z * Z) * (Z * Z))) :=
  match panel_lines (Py.sorted_desc red_freq) with
  | None => None
  | Some hot_red_lines =>
      match panel_lines (Py.sorted_asc red_freq) with
      | None => None
      | Some cold_red_lines =>
          match panel_lines (Py.sorted_desc blue_freq) with
          | None => None
          | Some hot_blue_lines =>
              match panel_lines (Py.sorted_asc blue_freq) with
              | None => None
              | Some cold_blue_lines =>
                  Some (hot_red_lines, cold_red_lines, hot_blue_lines, cold_blue_lines)
              end
          end
      end
  end.

(** [show_latest_result]:
    [reds = latest.get('red', '')] and
    [red_list = [int(x) for x in reds.split(',')] if reds else []];
    [None] is the [ValueError] of an [int], which is not caught here. *)
Definition red_list (latest : SSQCore.item) : option (list Z) :=
  let reds := match SSQCore.red latest with Some s => s | None => EmptyString end in
  if Str.truthy reds then SSQCore.ints_of (Str.split "," reds) else Some [].

(** [blues = latest.get('blue', '')] and
    [blue_list = [int(blues)] if blues else []] *)
Definition blue_list (latest : SSQCore.item) : option (list Z) :=
  let blues := match SSQCore.blue latest with Some s => s | None => EmptyString end in
  if Str.truthy blues
  then match Str.int blues with Some n => Some [n] | None => None end
  else Some [].

(** The red and blue numbers handed to [draw_balls]: [Some None] when the
    function returns at once on empty data, [None] when it raises. *)
Definition show_latest_result (data : list SSQCore.item)
    : option (option (list Z * list Z)) :=
  match data with
  | [] => Some None
  | latest :: _ =>
      match red_list latest with
      | None => None
      | Some red_list =>
          match blue_list latest with
          | None => None
          | Some blue_list => Some (Some (red_list, blue_list))
          end
      end
  end.

(** *** The text of the recommendations and the chart that reads it back *)

(** [algorithm.description] *)
Definition description (algorithm : RecommendAlgorithm) : string :=
  match algorithm with
  | FREQUENCY_WEIGHTED => "频率加权+随机（当前）"
  | PURE_RANDOM => "纯随机"
  | PURE_FREQUENCY => "纯频率"
  | HOT_COLD_BALANCE => "冷热平衡"
  | INTERVAL_DISTRIBUTION => "区间分布"
  | ODD_EVEN_BALANCE => "奇偶平衡"
  | SUM_OPTIMIZED => "和值优化"
  | NO_CONSECUTIVE => "避免连号"
  end.

(** [f"第{i}组: 红球 [{red_str}]  蓝球 [{rec['blue']:02d}]"] with
    [red_str = " ".join(f"{num:02d}" for num in rec['red'])] *)
Definition result_line (i : Z) (rec : recommendation) : string :=
  let red_str := join " " (map format_02d (red rec)) in
  ("第" ++ format_d i ++ "组: 红球 [" ++ red_str ++ "]  蓝球 ["
     ++ format_02d (blue rec) ++ "]")%string.

(** [for algo in RecommendAlgorithm]: the members in definition order *)
Definition members : list RecommendAlgorithm :=
  [FREQUENCY_WEIGHTED; PURE_RANDOM; PURE_FREQUENCY; HOT_COLD_BALANCE;
   INTERVAL_DISTRIBUTION; ODD_EVEN_BALANCE; SUM_OPTIMIZED; NO_CONSECUTIVE].

(** [algo_options = [algo.description for algo in RecommendAlgorithm]], the
    values of the selection box *)
Definition algo_options : list string := map description members.

(** [start_generate_recommend]: the first member whose description is the
    selected text; [None] leads to the error box. *)
Definition selected_algorithm (selected_desc : string) : option RecommendAlgorithm :=
  find (fun algo => String.eqb (description algo) selected_desc) members.

(** [for i, rec in enumerate(recommendations, 1)] *)
Fixpoint numbered_lines (i : Z) (recommendations : list recommendation) : list string :=
  match recommendations with
  | [] => []
  | rec :: recommendations' => result_line i rec :: numbered_lines (i + 1) recommendations'
  end.

(** The text [_generate_recommend_worker] sends with [RECOMMEND_SUCCESS],
    which [process_messages] puts into the result panel. *)
Definition result_text (algorithm : RecommendAlgorithm) (red_balls blue_balls : list Z)
    (recommendations : list recommendation) : string :=
  let rule := "========================================"%string in
  let result_lines :=
    [("📊 算法: " ++ description algorithm)%string;
     ("📊 分析基数: " ++ format_d (Z.of_nat (length red_balls)) ++ "个红球, "
        ++ format_d (Z.of_nat (length blue_balls)) ++ "个蓝球")%string;
     rule]
    ++ numbered_lines 1 recommendations
    ++ [String newline rule; "💡 提示：多次运行获取不同组合"%string] in
  join (String newline EmptyString) result_lines.

(** The body of the loop of [show_recommendation_chart] on one line:
    [Some None] when the line is passed over, [None] for the [ValueError]
    of an [int]. *)
Definition chart_line (line : string) : option (option recommendation) :=
  if contains "第" line && contains "组:" line then
    let parts := split "[" line in
    if (3 <=? length parts)%nat then
      let red_str := strip_s (remove_char "]" (nth 1 parts EmptyString)) in
      let blue_str := strip_s (remove_char "]" (nth 2 parts EmptyString)) in
      match SSQCore.ints_of (words red_str) with
      | None => None
      | Some reds =>
          match int blue_str with
          | None => None
          | Some blue => Some (Some {| red := reds; blue := blue |})
          end
      end
    else Some None
  else Some None.

(** [for line in lines], on the recommendations read so far *)
Fixpoint chart_lines (lines : list string) (recommendations : list recommendation)
    : option (list recommendation) :=
  match lines with
  | [] => Some recommendations
  | line :: lines' =>
      match chart_line line with
      | None => None
      | Some None => chart_lines lines' recommendations
      | Some (Some rec) => chart_lines lines' (recommendations ++ [rec])
      end
  end.
(** What [show_recommendation_chart] ends with: the warning that nothing
    was generated yet, the chart of the recommendations read, the error
    that nothing could be read, or the error of the [except] branch. *)
Inductive chart_outcome :=
| Warned
| Drawn (recommendations : list recommendation)
| Unparsed
| Failed.

(** [show_recommendation_chart], on the text that [result_text.get(1.0,
    tk.END)] returns: what the panel holds, and a line feed. *)
Definition show_recommendation_chart (text : string) : chart_outcome :=
  let result := strip_s text in
  if negb (contains "第1组" result) then Warned
  else
    match chart_lines (split newline result) [] with
    | None => Failed
    | Some [] => Unparsed
    | Some recommendations => Drawn recommendations
    end.
End SSQGUI.

(** ** Vocabulary of the properties *)

Module Props.
Import Random RecommendEngine.

(** A recommendation is well formed: six reds in strictly ascending order
    (hence distinct) within 1..33, and a blue within 1..16. *)
Definition valid_recommendation (rec : recommendation) : Prop :=
  length (red rec) = 6%nat /\
  StronglySorted Z.lt (red rec) /\
  Forall (fun x => 1 <= x <= 33) (red rec) /\
  1 <= blue rec <= 16.

Fixpoint ascending (l : list Z) : bool :=
  match l with
  | a :: (b :: _) as rest => (a <? b) && ascending rest
  | _ => true
  end.

Definition valid_recommendationb (rec : recommendation) : bool :=
  (length (red rec) =? 6)%nat && ascending (red rec) &&
  forallb (fun x => (1 <=? x) && (x <=? 33)) (red rec) &&
  (1 <=? blue rec) && (blue rec <=? 16).

(** A frequency table as the analysis produces it: no key twice, every key
    within [1, hi], every recorded count at least 1. *)
Definition table (hi : Z) (d : Py.dict) : Prop :=
  NoDup (map fst d) /\ Forall (fun kv => 1 <= fst kv <= hi /\ 1 <= snd kv) d.

(** The generator that reads the given cells, then zeros for ever. *)
Definition tape_of (cells : list Z) : rng :=
  mkRng (fun i => nth i cells 0) 0.

(** The value a run returned, if it returned. *)
Definition returned {A} (o : outcome A) : option A :=
  match o with
  | Ok a _ => Some a
  | _ => None
  end.


(** No two neighbours of the list differ by exactly one. *)
Definition no_neighbours (l : list Z) : Prop :=
  forall i : nat, (S i < length l)%nat -> nth (S i) l 0 - nth i l 0 <> 1.

(** A boolean order, as a relation. *)
Definition holds {A} (le : A -> A -> bool) (a b : A) : Prop := le a b = true.

(** Some occurrence of [x] stands before some occurrence of [y] in [l]. *)
Fixpoint before {A} (l : list A) (x y : A) : Prop :=
  match l with
  | [] => False
  | h :: t => (h = x /\ In y t) \/ before t x y
  end.

(** The candidate the top-up loop sees in cell [i]. *)
Definition candidate_at (g : rng) (i : nat) : Z := 1 + tape g i mod 33.

(** The [w] cells from position [p] on offer at least six different
    candidates. *)
Definition window_varied (w : nat) (g : rng) (p : nat) : bool :=
  (6 <=? length (nodup Z.eq_dec (map (fun i => candidate_at g (p + i)) (seq 0 w))))%nat.

(** Every window of [w] cells among the next [n] positions is varied. *)
Definition varied (w : nat) (g : rng) (n : nat) : Prop :=
  forallb (window_varied w g) (seq (cursor g) n) = true.

(** *** The claims about pure frequency, in the specification's words *)



(** *** The claim about weighted frequency, in the specification's words *)


(** *** Reading the tape *)

(** The generator whose every cell is zero. *)
Definition zero_tape : rng := mkRng (fun _ => 0) 0.

(** The generator after [k] more cells have been read. *)
Definition advance (k : nat) (g : rng) : rng := mkRng (tape g) (k + cursor g).

(** The next [k] cells. *)
Definition cells (g : rng) (k : nat) : list Z :=
  map (fun i => tape g (i + cursor g)%nat) (seq 0 k).

(** What [sample] picks from its pool for given raw draws. *)
Fixpoint pool_picks (raws : list Z) (live : nat) (pool : list Z) : list Z :=
  match raws with
  | [] => []
  | x :: raws' =>
      let j := Z.to_nat (x mod Z.of_nat live) in
      nth j pool 0 ::
      pool_picks raws' (live - 1) (Py.setitem pool j (nth (live - 1) pool 0))
  end.

(** The two acceptance tests of the reject-sampling strategies. *)
Definition sum_accepted (selected_reds : list Z) : bool :=
  (80 <=? Py.sum selected_reds) && (Py.sum selected_reds <=? 140).

Definition spread_accepted (selected_reds : list Z) : bool :=
  negb (has_consecutive selected_reds).

(** The sorted six-number sample read at the current position. *)
Definition sample_here (g : rng) : list Z :=
  Py.sorted (pool_picks (cells g 6) 33 (Py.range 1 34)).

(** The number of whole samples rejected before the first accepted one among
    the next [n] samples, if one is accepted. *)
Fixpoint first_accepted (accept : list Z -> bool) (n : nat) (g : rng) : option nat :=
  match n with
  | O => None
  | S n' =>
      if accept (sample_here g) then Some O
      else option_map S (first_accepted accept n' (advance 6 g))
  end.

(** What a loop with budget [fuel] does, read off the tape. *)
Definition loop_outcome (accept : list Z -> bool) (fuel : nat) (g : rng)
    : outcome (list Z) :=
  match first_accepted accept fuel g with
  | Some k => Ok (sample_here (advance (6 * k) g)) (advance (6 * k + 6) g)
  | None => OutOfFuel
  end.

(** The raw draws of a sample that both reject-sampling strategies accept. *)
Definition accepted_draws : list Z := [2; 10; 14; 18; 22; 26].

(** A tape that offers [n] rejected samples, then an accepted one. *)
Definition late_tape (n : nat) : rng :=
  mkRng (fun i => if (i <? 6 * n)%nat then 0 else nth (i - 6 * n) accepted_draws 0) 0.

(** *** The weighted draws as functions of the cells they read *)

(** [random()] for a raw draw. *)
Definition unit_of (x : Z) : Q := Qmake (x mod 2 ^ 53) (2 ^ 53).

(** [uniform(0.1, 1.0)] for a raw draw. *)
Definition jitter_of (x : Z) : Q := ((1 # 10) + (1 - (1 # 10)) * unit_of x)%Q.

(** The red weights for given raw draws, one per number. *)
Definition weights_of (red_freq : Py.dict) (nums raws : list Z) : list Q :=
  map (fun p => (inject_Z (Py.get red_freq (fst p) 1) + jitter_of (snd p))%Q)
      (combine nums raws).

(** The index [choices] picks for a raw draw. *)
Definition index_of (cum : list Q) (n : nat) (x : Z) : nat :=
  bisect cum (unit_of x * last cum 0)%Q 0 (n - 1).

(** What [choices] picks for given raw draws. *)
Definition picks_of (population : list Z) (weights : list Q) (raws : list Z)
    : list Z :=
  map (fun x => nth (index_of (accumulate weights) (length population) x) population 0)
      raws.

(** The sum of the first [i] weights. *)
Definition weight_below (weights : list Q) (i : nat) : Q :=
  fold_right Qplus 0%Q (firstn i weights).

(** *** Frequency weighted, read off the tape *)

(** Reds in strictly ascending order within 1..33. *)
Definition reds_ok (selected_reds : list Z) : Prop :=
  StronglySorted Z.lt selected_reds /\ Forall (fun x => 1 <= x <= 33) selected_reds.

(** The six weighted picks of a round that starts at [g]: 33 cells give the
    jitters, the next 6 the picks. *)
Definition picks_at (red_freq : Py.dict) (g : rng) : list Z :=
  picks_of all_reds (weights_of red_freq all_reds (cells g 33)) (cells (advance 33 g) 6).

(** The blue number drawn from the cell at [g]. *)
Definition blue_at (blue_freq : Py.dict) (g : rng) : Z :=
  nth (index_of (accumulate (blue_weights blue_freq)) 16 (tape g (cursor g))) all_blues 0.

(** The candidates the top-up loop sees in the [n] cells from [g] on. *)
Definition candidates (g : rng) (n : nat) : list Z :=
  map (candidate_at g) (seq (cursor g) n).

(** The tape whose cell [i] holds [i]. *)
Definition counting_tape : rng := mkRng (fun i => Z.of_nat i) 0.

(** *** Parsing, in the specification's words *)

(** The red field of a record decodes to the integers [nums]: the key is
    there and every comma-separated piece of its value is an integer. *)
Definition red_decodes (it : SSQCore.item) (nums : list Z) : Prop :=
  exists s, SSQCore.red it = Some s /\
            Forall2 (fun piece n => Str.int piece = Some n) (Str.split "," s) nums.

(** The blue field of a record decodes to the integer [n]. *)
Definition blue_decodes (it : SSQCore.item) (n : Z) : Prop :=
  exists s, SSQCore.blue it = Some s /\ Str.int s = Some n.

(** What one record adds to the red numbers: its six integers, or nothing. *)
Definition red_rule (it : SSQCore.item) (added : list Z) : Prop :=
  (exists nums, red_decodes it nums /\ length nums = 6%nat /\ added = nums) \/
  ((forall nums, red_decodes it nums -> length nums <> 6%nat) /\ added = []).

(** What one record adds to the blue numbers: its integer, or nothing. *)
Definition blue_rule (it : SSQCore.item) (added : list Z) : Prop :=
  (exists n, blue_decodes it n /\ added = [n]) \/
  ((forall n, ~ blue_decodes it n) /\ added = []).

(** The same, computed. *)
Definition red_added (it : SSQCore.item) : list Z :=
  match SSQCore.red it with
  | Some s =>
      match SSQCore.ints_of (Str.split "," s) with
      | Some nums => if (length nums =? 6)%nat then nums else []
      | None => []
      end
  | None => []
  end.

Definition blue_added (it : SSQCore.item) : list Z :=
  match SSQCore.blue it with
  | Some s => match Str.int s with Some n => [n] | None => [] end
  | None => []
  end.

(** *** Tables used in the examples *)

(** The specification's example: number 1 seen ten times, every other number
    once, the numbers listed in ascending order. *)
Definition example_red_freq : Py.dict :=
  (1, 10) :: map (fun k => (k, 1)) (Py.range 2 34).

Definition example_blue_freq : Py.dict := [(9, 2); (4, 1)].

(** The key of the first of the hottest entries, for a table that has one. *)
Definition hottest_first (d : Py.dict) : option (Z * Z) :=
  match Py.sorted_desc d with
  | [] => None
  | kv :: _ => Some kv
  end.

(** *** A tape on which the weighted draw repeats a number *)




(** *** Counting the reds of a recommendation *)

(** How many of the numbers lie in [lo, hi]. *)
Definition count_in (lo hi : Z) (l : list Z) : nat :=
  length (filter (fun x => (lo <=? x) && (x <=? hi)) l).

Definition count_odd (l : list Z) : nat :=
  length (filter (fun x => x mod 2 =? 1) l).

Definition count_even (l : list Z) : nat :=
  length (filter (fun x => x mod 2 =? 0) l).

(** *** Analysis, in plain words *)

(** Each number once, in the order of first appearance. *)
Fixpoint first_seen (l : list Z) : list Z :=
  match l with
  | [] => []
  | x :: t => x :: filter (fun y => negb (y =? x)) (first_seen t)
  end.

(** The numbers of [1, hi] among [balls]. *)
Definition within (hi : Z) (balls : list Z) : list Z :=
  filter (fun num => (1 <=? num) && (num <=? hi)) balls.

(** *** Hot and cold *)

(** The numbers the hot-and-cold strategy samples its hot three from, and
    the numbers it samples its cold three from. *)
Definition hot_pool (red_freq : Py.dict) : list Z :=
  map fst (Py.slice_to 10 (Py.sorted_desc red_freq)).

Definition cold_pool (red_freq : Py.dict) : list Z :=
  map fst (Py.slice_to 10 (Py.sorted_asc red_freq)).

(** No number is in both lists. *)
Definition disjoint (l1 l2 : list Z) : bool :=
  forallb (fun x => negb (Py.contains x l2)) l1.

(** The first of the coldest entries, for a table that has one. *)
Definition coldest_first (d : Py.dict) : option (Z * Z) :=
  match Py.sorted_asc d with
  | [] => None
  | kv :: _ => Some kv
  end.

(** A recommendation of three different hot and three different cold
    numbers, with the first of the hottest or of the coldest blues. *)
Definition hot_cold_shape (red_freq blue_freq : Py.dict) (rec : recommendation)
    : Prop :=
  exists hot_selected cold_selected hot_blue cold_blue,
    red rec = Py.sorted (hot_selected ++ cold_selected) /\
    length hot_selected = 3%nat /\ NoDup hot_selected /\
    incl hot_selected (hot_pool red_freq) /\
    length cold_selected = 3%nat /\ NoDup cold_selected /\
    incl cold_selected (cold_pool red_freq) /\
    hottest_first blue_freq = Some hot_blue /\
    coldest_first blue_freq = Some cold_blue /\
    (blue rec = fst hot_blue \/ blue rec = fst cold_blue).

(** *** Tables and queues used in the examples *)

(** Every red number [k] seen [k] times. *)
Definition climbing_red_freq : Py.dict := map (fun k => (k, k)) (Py.range 1 34).

(** [n] calls of [receive] in a row: what they return, and the queue left. *)
Fixpoint receive_many (n : nat) (q : MessageQueue.queue)
    : list (option MessageQueue.MessageType * MessageQueue.payload) * MessageQueue.queue :=
  match n with
  | O => ([], q)
  | S n' =>
      let '(m, q') := MessageQueue.receive q in
      let '(ms, q'') := receive_many n' q' in
      (m :: ms, q'')
  end.

(** *** The worker and the panels *)

(** A run returned five well-formed recommendations. *)
Definition five_well_formed (o : outcome (list recommendation)) : Prop :=
  exists recs g',
    o = Ok recs g' /\ length recs = 5%nat /\ Forall valid_recommendation recs.

(** The different red numbers of 1..33, and the different blue numbers of
    1..16, that the parser reads from the records. *)
Definition usable_reds (data : list SSQCore.item) : list Z :=
  first_seen (within 33 (fst (SSQCore.parse_numbers data))).

Definition usable_blues (data : list SSQCore.item) : list Z :=
  first_seen (within 16 (snd (SSQCore.parse_numbers data))).

(** The entries that the lines of a panel show, left to right and top to
    bottom. *)
Definition entries_of (lines : list ((Z * Z) * (Z * Z))) : list (Z * Z) :=
  flat_map (fun line => [fst line; snd line]) lines.

(** *** Characters of a text *)

(** The text holds no character [c]. *)
Fixpoint lacks (c : ascii) (s : string) : bool :=
  match s with
  | EmptyString => true
  | String a s' => negb (Ascii.eqb a c) && lacks c s'
  end.

(** A character that no formatted number holds, nor the space between two
    of them. *)
Definition plain (c : ascii) : Prop :=
  Str.digit_of c = None /\ c <> "-"%char /\ c <> " "%char.

(** *** Tables and tapes of the examples of the weighted draw *)

(** Every blue number listed with the count 0. *)
Definition zero_blue_freq : Py.dict := map (fun k => (k, 0)) (Py.range 1 17).



End Props.

(** * Proofs *)

Import Random RecommendEngine Props.

(** ** The outcome monad *)

Lemma bind_Ok {A B} (m : M A) (k : A -> M B) g b g2 :
  bind m k g = Ok b g2 <-> exists a g1, m g = Ok a g1 /\ k a g1 = Ok b g2.
Proof.
  unfold bind. destruct (m g) as [a g1| |]; split.
  - intros H. now exists a, g1.
  - intros (a' & g1' & E & H). now inversion E; subst.
  - discriminate.
  - intros (? & ? & E & _). discriminate.
  - discriminate.
  - intros (? & ? & E & _). discriminate.
Qed.

Lemma bind_Raise {A B} (m : M A) (k : A -> M B) g e :
  bind m k g = Raise e <->
  m g = Raise e \/ exists a g1, m g = Ok a g1 /\ k a g1 = Raise e.
Proof.
  unfold bind. destruct (m g) as [a g1| e' |]; split.
  - intros H. right. now exists a, g1.
  - intros [E | (a' & g1' & E & H)]; [discriminate | now inversion E; subst].
  - intros H. left. now inversion H.
  - intros [E | (? & ? & E & _)]; [now inversion E | discriminate].
  - discriminate.
  - intros [E | (? & ? & E & _)]; discriminate.
Qed.

Lemma next_raw_Ok g : next_raw g = Ok (tape g (cursor g)) (mkRng (tape g) (S (cursor g))).
Proof. reflexivity. Qed.

Lemma randbelow_Ok n g :
  _randbelow n g = Ok (tape g (cursor g) mod n) (mkRng (tape g) (S (cursor g))).
Proof. reflexivity. Qed.

Lemma randint_Ok a b g :
  randint a b g =
  Ok (a + tape g (cursor g) mod (b - a + 1)) (mkRng (tape g) (S (cursor g))).
Proof. reflexivity. Qed.

Lemma randint_range a b g x g' :
  a <= b -> randint a b g = Ok x g' -> a <= x <= b.
Proof.
  intros Hab H. rewrite randint_Ok in H. inversion H; subst.
  pose proof (Z.mod_pos_bound (tape g (cursor g)) (b - a + 1)). lia.
Qed.

(** ** [for _ in range(count)] *)

Lemma append_each_Ok (P : recommendation -> Prop) (body : M recommendation) :
  (forall g rec g', body g = Ok rec g' -> P rec) ->
  forall n acc g recs g',
    append_each n body acc g = Ok recs g' ->
    exists new, recs = acc ++ new /\ length new = n /\ Forall P new.
Proof.
  intros Hbody. induction n as [|n IH]; intros acc g recs g' H.
  - inversion H; subst. exists []. rewrite app_nil_r. auto.
  - simpl in H. apply bind_Ok in H. destruct H as (rec & g1 & Hrec & H).
    apply IH in H. destruct H as (new & -> & Hlen & Hall).
    exists (rec :: new). rewrite <- app_assoc. simpl. repeat split.
    + now rewrite Hlen.
    + constructor; eauto.
Qed.

Lemma for_range_Ok (P : recommendation -> Prop) (body : M recommendation) :
  (forall g rec g', body g = Ok rec g' -> P rec) ->
  forall count g recs g',
    for_range count body g = Ok recs g' ->
    length recs = Z.to_nat count /\ Forall P recs.
Proof.
  intros Hbody count g recs g' H. unfold for_range in H.
  eapply append_each_Ok in H; eauto. destruct H as (new & -> & Hlen & Hall).
  now simpl.
Qed.

Lemma append_each_no_raise (body : M recommendation) :
  (forall g e, body g <> Raise e) ->
  forall n acc g e, append_each n body acc g <> Raise e.
Proof.
  intros Hbody. induction n as [|n IH]; intros acc g e H.
  - discriminate.
  - simpl in H. apply bind_Raise in H. destruct H as [H | (rec & g1 & _ & H)].
    + now apply Hbody in H.
    + now apply IH in H.
Qed.

(** ** Order of occurrence in a list *)

Section Before.
Context {A : Type}.

Lemma before_In (l : list A) x y : before l x y -> In x l /\ In y l.
Proof.
  induction l as [|h t IH]; simpl; [tauto|].
  intros [[-> Hy] | H]; [tauto | apply IH in H; tauto].
Qed.




(** A list has at most one arrangement sorted by an antisymmetric order. *)
Lemma sorted_unique (R : A -> A -> Prop) :
  (forall a b, R a b -> R b a -> a = b) ->
  forall l1 l2 : list A,
    StronglySorted R l1 -> StronglySorted R l2 -> Permutation l1 l2 -> l1 = l2.
Proof.
  intros Hanti. induction l1 as [|a t1 IH]; intros l2 H1 H2 HP.
  - apply Permutation_nil in HP. now subst.
  - destruct l2 as [|b t2]; [symmetry in HP; now apply Permutation_nil in HP|].
    inversion H1 as [|? ? Ht1 Ha]; subst. inversion H2 as [|? ? Ht2 Hb]; subst.
    rewrite Forall_forall in Ha, Hb.
    assert (a = b) as ->.
    { assert (In a (b :: t2)) as Ia by (eapply Permutation_in; [exact HP | now left]).
      assert (In b (a :: t1)) as Ib
          by (eapply Permutation_in; [symmetry; exact HP | now left]).
      destruct Ia as [-> | Ia]; [reflexivity|].
      destruct Ib as [-> | Ib]; [reflexivity|].
      apply Hanti; auto. }
    f_equal. apply IH; auto. now apply Permutation_cons_inv in HP.
Qed.

End Before.

(** ** [sorted]: a stable sort *)

Section StableSort.
Context {A : Type} (le : A -> A -> bool).
Hypothesis le_total : forall a b, le a b = false -> le b a = true.
Hypothesis le_trans : forall a b c, le a b = true -> le b c = true -> le a c = true.

Lemma insert_by_perm x l : Permutation (Py.insert_by le x l) (x :: l).
Proof.
  induction l as [|y l IH]; simpl; [reflexivity|].
  destruct (le x y); [reflexivity|].
  rewrite IH. apply perm_swap.
Qed.

Lemma sorted_by_perm l : Permutation (Py.sorted_by le l) l.
Proof.
  induction l as [|x l IH]; simpl; [constructor|].
  rewrite insert_by_perm. now constructor.
Qed.

Lemma insert_by_sorted x l :
  StronglySorted (holds le) l -> StronglySorted (holds le) (Py.insert_by le x l).
Proof.
  induction 1 as [|y l Hl IH Hy]; simpl.
  - repeat constructor.
  - destruct (le x y) eqn:E.
    + constructor; [now constructor|]. constructor; [exact E|].
      eapply Forall_impl; [|exact Hy]. intros z Hz. exact (le_trans _ _ _ E Hz).
    + constructor; [exact IH|].
      eapply Permutation_Forall; [symmetry; apply insert_by_perm|].
      constructor; [now apply le_total | exact Hy].
Qed.

Lemma sorted_by_sorted l : StronglySorted (holds le) (Py.sorted_by le l).
Proof.
  induction l as [|x l IH]; simpl; [constructor | now apply insert_by_sorted].
Qed.

Lemma insert_by_before a l x y :
  StronglySorted (holds le) l ->
  before (Py.insert_by le a l) x y ->
  before l x y \/
  (x = a /\ In y l /\ le a y = true) \/
  (y = a /\ In x l /\ le a x = false).
Proof.
  induction 1 as [|h t Ht IH Hh]; simpl.
  - intros [[_ []] | []].
  - destruct (le a h) eqn:E; simpl.
    + intros [[<- Hy] | H]; [|now left].
      right; left. split; [reflexivity|]. split; [exact Hy|].
      destruct Hy as [<- | Hy]; [exact E|].
      rewrite Forall_forall in Hh. exact (le_trans _ _ _ E (Hh _ Hy)).
    + intros [[<- Hy] | H].
      * apply (Permutation_in _ (insert_by_perm a t)) in Hy.
        destruct Hy as [<- | Hy]; [right; right; auto | left; auto].
      * apply IH in H. destruct H as [H | [(-> & Hy & Hle) | (-> & Hx & Hle)]].
        -- left; now right.
        -- right; left; auto.
        -- right; right; auto.
Qed.

(** The sort puts [x] before [y] only if [x] does not exceed [y]; and if
    the two are equal in the order, [x] was before [y] already. *)
Lemma sorted_by_stable l x y :
  before (Py.sorted_by le l) x y ->
  le x y = true /\ (le y x = true -> before l x y).
Proof.
  revert x y. induction l as [|a l IH]; simpl; intros x y H; [destruct H|].
  apply insert_by_before in H; [|apply sorted_by_sorted].
  destruct H as [H | [(-> & Hy & Hle) | (-> & Hx & Hle)]].
  - apply IH in H. destruct H as [H1 H2]. split; [exact H1|].
    intros H. right. now apply H2.
  - split; [exact Hle|]. intros _. left. split; [reflexivity|].
    exact (Permutation_in _ (sorted_by_perm l) Hy).
  - split; [now apply le_total|]. intros H. congruence.
Qed.

End StableSort.

(** ** [sorted] on integers *)

Lemma leb_total a b : (a <=? b) = false -> (b <=? a) = true.
Proof. intros H. apply Z.leb_gt in H. apply Z.leb_le. lia. Qed.

Lemma leb_trans a b c : (a <=? b) = true -> (b <=? c) = true -> (a <=? c) = true.
Proof. rewrite !Z.leb_le. lia. Qed.

Lemma sorted_perm l : Permutation (Py.sorted l) l.
Proof. apply sorted_by_perm. Qed.

Lemma sorted_length l : length (Py.sorted l) = length l.
Proof. apply Permutation_length, sorted_perm. Qed.

Lemma sorted_In x l : In x (Py.sorted l) <-> In x l.
Proof.
  split; apply Permutation_in; [apply sorted_perm | symmetry; apply sorted_perm].
Qed.

Lemma sorted_le l : StronglySorted Z.le (Py.sorted l).
Proof.
  pose proof (sorted_by_sorted Z.leb leb_total leb_trans l) as H.
  unfold Py.sorted. induction H as [|a t Ht IH Ha]; constructor; auto.
  eapply Forall_impl; [|exact Ha]. intros b Hb. now apply Z.leb_le.
Qed.

Lemma le_sorted_NoDup_lt l : StronglySorted Z.le l -> NoDup l -> StronglySorted Z.lt l.
Proof.
  induction 1 as [|a t Ht IH Ha]; intros Hnd; constructor.
  - apply IH. now inversion Hnd.
  - inversion Hnd as [|? ? Hnotin _]; subst.
    rewrite Forall_forall in *. intros b Hb.
    assert (a <> b) by (intros ->; contradiction).
    specialize (Ha _ Hb). lia.
Qed.

Lemma sorted_lt l : NoDup l -> StronglySorted Z.lt (Py.sorted l).
Proof.
  intros H. apply le_sorted_NoDup_lt; [apply sorted_le|].
  eapply Permutation_NoDup; [symmetry; apply sorted_perm | exact H].
Qed.

Lemma lt_sorted_NoDup l : StronglySorted Z.lt l -> NoDup l.
Proof.
  induction 1 as [|a t Ht IH Ha]; constructor; auto.
  intros Hin. rewrite Forall_forall in Ha. specialize (Ha _ Hin). lia.
Qed.

Lemma sorted_Forall (P : Z -> Prop) l : Forall P l -> Forall P (Py.sorted l).
Proof. apply Permutation_Forall. symmetry. apply sorted_perm. Qed.

(** Sorting forgets the order of its input. *)
Lemma sorted_of_perm l1 l2 : Permutation l1 l2 -> Py.sorted l1 = Py.sorted l2.
Proof.
  intros H. apply (sorted_unique Z.le); [lia | apply sorted_le | apply sorted_le |].
  rewrite !sorted_perm. exact H.
Qed.

Lemma sorted_fixed l : StronglySorted Z.le l -> Py.sorted l = l.
Proof.
  intros H. apply (sorted_unique Z.le); [lia | apply sorted_le | exact H | apply sorted_perm].
Qed.

Lemma ascending_sorted l : ascending l = true <-> StronglySorted Z.lt l.
Proof.
  split.
  - intros H. apply Sorted_StronglySorted; [intros a b c; lia|].
    induction l as [|a l IH]; [constructor|].
    destruct l as [|b t]; [repeat constructor|].
    simpl in H. apply andb_prop in H. destruct H as [Hab Ht].
    constructor; [now apply IH | constructor; now apply Z.ltb_lt].
  - intros H. apply StronglySorted_Sorted in H.
    induction H as [|a l Hl IH Ha]; [reflexivity|].
    destruct l as [|b t]; [reflexivity|].
    inversion Ha; subst. simpl. apply andb_true_intro. split; [now apply Z.ltb_lt | exact IH].
Qed.

Lemma valid_recommendationb_spec rec :
  valid_recommendationb rec = true <-> valid_recommendation rec.
Proof.
  unfold valid_recommendationb, valid_recommendation.
  rewrite !andb_true_iff, Nat.eqb_eq, ascending_sorted, forallb_forall, Forall_forall.
  rewrite !Z.leb_le. split.
  - intros ((((H1 & H2) & H3) & H4) & H5). repeat split; auto.
    + apply H3 in H. apply andb_prop in H. lia.
    + apply H3 in H. apply andb_prop in H. lia.
  - intros (H1 & H2 & H3 & H4 & H5). repeat split; auto.
    intros x Hx. apply H3 in Hx. apply andb_true_intro. lia.
Qed.

(** ** [sample] as a function of the cells it reads *)

Lemma cells_S g k : cells g (S k) = tape g (cursor g) :: cells (advance 1 g) k.
Proof.
  unfold cells. simpl. f_equal. rewrite <- seq_shift, map_map.
  apply map_ext. intros i. simpl. f_equal. lia.
Qed.

Lemma advance_advance a b g : advance a (advance b g) = advance (a + b) g.
Proof. unfold advance. simpl. f_equal. lia. Qed.

Lemma sample_loop_eq k : forall live pool g,
  sample_loop k live pool g = Ok (pool_picks (cells g k) live pool) (advance k g).
Proof.
  induction k as [|k IH]; intros live pool g.
  - destruct g. reflexivity.
  - rewrite cells_S. simpl. unfold bind at 1. rewrite randbelow_Ok.
    unfold bind at 1. change (mkRng (tape g) (S (cursor g))) with (advance 1 g).
    rewrite IH. unfold ret. rewrite advance_advance. do 2 f_equal. lia.
Qed.

Lemma sample_eq population k g :
  (k <= length population)%nat ->
  sample population k g =
  Ok (pool_picks (cells g k) (length population) population) (advance k g).
Proof.
  intros H. unfold sample. apply Nat.leb_le in H. rewrite H. apply sample_loop_eq.
Qed.

Lemma sample6_eq g :
  sample (Py.range 1 34) 6 g = Ok (pool_picks (cells g 6) 33 (Py.range 1 34)) (advance 6 g).
Proof. apply (sample_eq (Py.range 1 34) 6 g). vm_compute. lia. Qed.

(** ** The two reject-sampling loops *)

Lemma sum_loop_S fuel g :
  sum_loop (S fuel) g =
  if sum_accepted (sample_here g) then Ok (sample_here g) (advance 6 g)
  else sum_loop fuel (advance 6 g).
Proof.
  simpl. unfold bind. rewrite sample6_eq. fold (sample_here g).
  unfold sum_accepted. now destruct (_ && _).
Qed.

Lemma no_consecutive_loop_S fuel g :
  no_consecutive_loop (S fuel) g =
  if spread_accepted (sample_here g) then Ok (sample_here g) (advance 6 g)
  else no_consecutive_loop fuel (advance 6 g).
Proof.
  simpl. unfold bind. rewrite sample6_eq. fold (sample_here g).
  unfold spread_accepted. now destruct (negb _).
Qed.

Lemma advance_0 g : advance 0 g = g.
Proof. now destruct g. Qed.

Lemma loop_outcome_S accept fuel g :
  loop_outcome accept (S fuel) g =
  if accept (sample_here g) then Ok (sample_here g) (advance 6 g)
  else loop_outcome accept fuel (advance 6 g).
Proof.
  unfold loop_outcome. simpl. destruct (accept (sample_here g)).
  - simpl. now rewrite advance_0.
  - destruct (first_accepted accept fuel (advance 6 g)) as [k|]; simpl; [|reflexivity].
    rewrite !advance_advance. do 3 f_equal; lia.
Qed.

Lemma sum_loop_outcome fuel : forall g,
  sum_loop fuel g = loop_outcome sum_accepted fuel g.
Proof.
  induction fuel as [|fuel IH]; intros g; [reflexivity|].
  rewrite sum_loop_S, loop_outcome_S, IH. reflexivity.
Qed.

Lemma no_consecutive_loop_outcome fuel : forall g,
  no_consecutive_loop fuel g = loop_outcome spread_accepted fuel g.
Proof.
  induction fuel as [|fuel IH]; intros g; [reflexivity|].
  rewrite no_consecutive_loop_S, loop_outcome_S, IH. reflexivity.
Qed.

Lemma first_accepted_Some accept fuel : forall g k,
  first_accepted accept fuel g = Some k ->
  (k < fuel)%nat /\ accept (sample_here (advance (6 * k) g)) = true.
Proof.
  induction fuel as [|fuel IH]; intros g k H; [discriminate|].
  simpl in H. destruct (accept (sample_here g)) eqn:E.
  - inversion H; subst. rewrite advance_0. split; [lia | exact E].
  - destruct (first_accepted accept fuel (advance 6 g)) as [k'|] eqn:F; [|discriminate].
    inversion H; subst. apply IH in F. destruct F as [F1 F2].
    split; [lia|]. rewrite advance_advance in F2.
    replace (6 * S k')%nat with (6 * k' + 6)%nat by lia. exact F2.
Qed.

Lemma loop_outcome_accepted accept fuel g reds g' :
  loop_outcome accept fuel g = Ok reds g' -> accept reds = true.
Proof.
  unfold loop_outcome. destruct (first_accepted accept fuel g) as [k|] eqn:F; [|discriminate].
  intros H. inversion H; subst. now apply first_accepted_Some in F.
Qed.

Lemma loop_outcome_no_raise accept fuel g e : loop_outcome accept fuel g <> Raise e.
Proof. unfold loop_outcome. now destruct (first_accepted accept fuel g). Qed.

(** A larger budget does not change what a loop returns. *)
Lemma first_accepted_mono accept fuel : forall g k extra,
  first_accepted accept fuel g = Some k ->
  first_accepted accept (fuel + extra) g = Some k.
Proof.
  induction fuel as [|fuel IH]; intros g k extra H; [discriminate|].
  simpl in *. destruct (accept (sample_here g)); [exact H|].
  destruct (first_accepted accept fuel (advance 6 g)) as [k'|] eqn:F; [|discriminate].
  now rewrite (IH _ _ extra F).
Qed.

(** ** Neighbours *)

Lemma has_consecutive_false l : has_consecutive l = false -> no_neighbours l.
Proof.
  induction l as [|a l IH]; intros H i Hi; [simpl in Hi; lia|].
  destruct l as [|b t]; [simpl in Hi; lia|].
  simpl in H. destruct (b - a =? 1) eqn:E; [discriminate|].
  destruct i as [|i].
  - simpl. now apply Z.eqb_neq.
  - change (nth (S (S i)) (a :: b :: t) 0) with (nth (S i) (b :: t) 0).
    change (nth (S i) (a :: b :: t) 0) with (nth i (b :: t) 0).
    apply IH; [exact H | simpl in *; lia].
Qed.

(** ** One recommendation of a reject-sampling strategy *)

Lemma sum_optimized_one_eq fuel g :
  sum_optimized_one fuel g =
  match loop_outcome sum_accepted fuel g with
  | Ok reds g1 =>
      Ok {| red := reds; blue := 1 + tape g1 (cursor g1) mod 16 |} (advance 1 g1)
  | Raise e => Raise e
  | OutOfFuel => OutOfFuel
  end.
Proof.
  unfold sum_optimized_one, bind. rewrite sum_loop_outcome.
  destruct (loop_outcome sum_accepted fuel g); reflexivity.
Qed.

Lemma no_consecutive_one_eq fuel g :
  no_consecutive_one fuel g =
  match loop_outcome spread_accepted fuel g with
  | Ok reds g1 =>
      Ok {| red := reds; blue := 1 + tape g1 (cursor g1) mod 16 |} (advance 1 g1)
  | Raise e => Raise e
  | OutOfFuel => OutOfFuel
  end.
Proof.
  unfold no_consecutive_one, bind. rewrite no_consecutive_loop_outcome.
  destruct (loop_outcome spread_accepted fuel g); reflexivity.
Qed.

Lemma for_range_1 (body : M recommendation) g :
  for_range 1 body g =
  match body g with
  | Ok rec g' => Ok [rec] g'
  | Raise e => Raise e
  | OutOfFuel => OutOfFuel
  end.
Proof. unfold for_range. simpl. unfold bind. now destruct (body g). Qed.

Lemma first_accepted_zero_tape accept :
  accept [1; 29; 30; 31; 32; 33] = false ->
  forall fuel c, first_accepted accept fuel (mkRng (fun _ => 0) c) = None.
Proof.
  intros Hrej. induction fuel as [|fuel IH]; intros c; [reflexivity|].
  simpl. change (sample_here (mkRng (fun _ => 0) c)) with [1; 29; 30; 31; 32; 33].
  rewrite Hrej. change (advance 6 (mkRng (fun _ => 0) c)) with (mkRng (fun _ : nat => 0) (6 + c)).
  now rewrite IH.
Qed.

Lemma cells_zero g n k :
  (forall i, (i < n)%nat -> tape g (i + cursor g) = 0) ->
  (k <= n)%nat -> cells g k = repeat 0 k.
Proof.
  intros Hz Hk. unfold cells.
  assert (forall a, (a + k <= n)%nat ->
            map (fun i => tape g (i + cursor g)%nat) (seq a k) = repeat 0 k) as H.
  { induction k as [|k IH]; intros a Ha; [reflexivity|].
    simpl. rewrite Hz by lia. f_equal. apply IH; lia. }
  apply H. lia.
Qed.

Lemma first_accepted_late accept :
  accept [1; 29; 30; 31; 32; 33] = false ->
  forall n g,
    (forall i, (i < 6 * n)%nat -> tape g (i + cursor g) = 0) ->
    accept (sample_here (advance (6 * n) g)) = true ->
    first_accepted accept n g = None /\ first_accepted accept (S n) g = Some n.
Proof.
  intros Hrej. induction n as [|n IH]; intros g Hz Hacc.
  - split; [reflexivity|]. simpl. rewrite advance_0 in Hacc. now rewrite Hacc.
  - assert (accept (sample_here g) = false) as Hhere.
    { unfold sample_here. rewrite (cells_zero g (6 * S n) 6 Hz) by lia. exact Hrej. }
    destruct (IH (advance 6 g)) as [H1 H2].
    + intros i Hi. unfold advance. cbn [tape cursor].
      replace (i + (6 + cursor g))%nat with ((i + 6) + cursor g)%nat by lia.
      apply Hz. lia.
    + rewrite advance_advance. replace (6 * n + 6)%nat with (6 * S n)%nat by lia. exact Hacc.
    + split.
      * change (first_accepted accept (S n) g) with
          (if accept (sample_here g) then Some O
           else option_map S (first_accepted accept n (advance 6 g))).
        now rewrite Hhere, H1.
      * change (first_accepted accept (S (S n)) g) with
          (if accept (sample_here g) then Some O
           else option_map S (first_accepted accept (S n) (advance 6 g))).
        now rewrite Hhere, H2.
Qed.

Lemma late_tape_cell n i :
  tape (late_tape n) (i + 6 * n) = nth i accepted_draws 0.
Proof.
  unfold late_tape. cbn [tape].
  destruct (Nat.ltb_spec (i + 6 * n) (6 * n)); [lia|].
  f_equal. lia.
Qed.

Lemma late_tape_sample n :
  sample_here (advance (6 * n) (late_tape n)) = [3; 11; 15; 19; 23; 27].
Proof.
  unfold sample_here.
  replace (cells (advance (6 * n) (late_tape n)) 6) with accepted_draws; [reflexivity|].
  unfold cells, advance. cbn [tape cursor].
  change (cursor (late_tape n)) with 0%nat. rewrite Nat.add_0_r.
  rewrite (map_ext _ (fun i => nth i accepted_draws 0)) by (intros i; apply late_tape_cell).
  reflexivity.
Qed.

Lemma late_tape_first_accepted accept n :
  accept [1; 29; 30; 31; 32; 33] = false ->
  accept [3; 11; 15; 19; 23; 27] = true ->
  first_accepted accept n (late_tape n) = None /\
  first_accepted accept (S n) (late_tape n) = Some n.
Proof.
  intros Hrej Hacc. apply first_accepted_late; [exact Hrej | |].
  - intros i Hi. change (cursor (late_tape n)) with 0%nat. rewrite Nat.add_0_r.
    unfold late_tape. cbn [tape]. apply Nat.ltb_lt in Hi. now rewrite Hi.
  - now rewrite late_tape_sample.
Qed.

(** ** The weighted draws *)

Lemma cells_length g k : length (cells g k) = k.
Proof. unfold cells. now rewrite length_map, length_seq. Qed.

Lemma random_Ok g :
  random g = Ok (unit_of (tape g (cursor g))) (advance 1 g).
Proof. reflexivity. Qed.

Lemma uniform_jitter_Ok g :
  uniform (1 # 10) 1 g = Ok (jitter_of (tape g (cursor g))) (advance 1 g).
Proof. reflexivity. Qed.

Lemma jittered_weights_eq red_freq nums : forall g,
  jittered_weights red_freq nums g =
  Ok (weights_of red_freq nums (cells g (length nums))) (advance (length nums) g).
Proof.
  induction nums as [|num nums IH]; intros g.
  - simpl. unfold ret. now rewrite advance_0.
  - cbn [jittered_weights length]. unfold bind at 1. rewrite uniform_jitter_Ok.
    unfold bind at 1. rewrite IH. unfold ret. rewrite cells_S, advance_advance.
    unfold weights_of. simpl. do 2 f_equal. lia.
Qed.

Lemma choices_loop_eq population weights k : forall g,
  choices_loop population (accumulate weights) (last (accumulate weights) 0%Q) k g =
  Ok (picks_of population weights (cells g k)) (advance k g).
Proof.
  induction k as [|k IH]; intros g.
  - simpl. unfold ret. now rewrite advance_0.
  - cbn [choices_loop]. unfold bind at 1. rewrite random_Ok.
    unfold bind at 1. rewrite IH. unfold ret. rewrite cells_S, advance_advance.
    unfold picks_of, index_of. simpl. do 2 f_equal. lia.
Qed.

Lemma accumulate_from_length acc ws : length (accumulate_from acc ws) = length ws.
Proof. revert acc. induction ws as [|w ws IH]; intros acc; simpl; auto. Qed.

Lemma accumulate_length ws : length (accumulate ws) = length ws.
Proof. destruct ws; simpl; [reflexivity|]. now rewrite accumulate_from_length. Qed.

Lemma accumulate_from_last_pos ws : forall acc d,
  ws <> [] -> (0 <= acc)%Q -> Forall (fun w => 0 < w)%Q ws ->
  (0 < last (accumulate_from acc ws) d)%Q.
Proof.
  induction ws as [|w ws IH]; intros acc d Hne Hacc Hpos; [congruence|].
  inversion Hpos as [|? ? Hw Hws]; subst.
  destruct ws as [|w' ws'].
  - simpl. lra.
  - change (last (accumulate_from acc (w :: w' :: ws')) d)
      with (last (accumulate_from (acc + w) (w' :: ws')) d).
    apply IH; [discriminate | lra | exact Hws].
Qed.

Lemma accumulate_last_pos ws :
  ws <> [] -> Forall (fun w => 0 < w)%Q ws -> (0 < last (accumulate ws) 0)%Q.
Proof.
  intros Hne Hpos. destruct ws as [|w ws]; [congruence|].
  inversion Hpos as [|? ? Hw Hws]; subst.
  destruct ws as [|w' ws'].
  - exact Hw.
  - change (last (accumulate (w :: w' :: ws')) 0%Q)
      with (last (accumulate_from w (w' :: ws')) 0%Q).
    apply accumulate_from_last_pos; [discriminate | lra | exact Hws].
Qed.

(** [choices] on weights that are all positive never raises. *)
Lemma choices_eq population weights k g :
  length weights = length population -> weights <> [] ->
  Forall (fun w => 0 < w)%Q weights ->
  choices population weights k g =
  Ok (picks_of population weights (cells g k)) (advance k g).
Proof.
  intros Hlen Hne Hpos. unfold choices.
  rewrite accumulate_length, Hlen, Nat.eqb_refl. cbn [negb].
  pose proof (accumulate_last_pos weights Hne Hpos) as Htotal.
  destruct (Qle_bool (last (accumulate weights) 0%Q) 0) eqn:E.
  - apply Qle_bool_iff in E. lra.
  - apply choices_loop_eq.
Qed.

Lemma bisect_loop_bounds steps a x : forall lo hi,
  (lo <= hi)%nat ->
  (lo <= bisect_loop steps a x lo hi <= hi)%nat.
Proof.
  induction steps as [|steps IH]; intros lo hi H; cbn [bisect_loop]; [lia|].
  destruct (Nat.ltb_spec lo hi) as [Hlt|Hge]; [|lia].
  assert (lo <= (lo + hi) / 2 < hi)%nat as Hmid.
  { split; [apply Nat.div_le_lower_bound; lia | apply Nat.Div0.div_lt_upper_bound; lia]. }
  set (mid := ((lo + hi) / 2)%nat) in *.
  destruct (Qlt_bool x (nth mid a 0%Q)).
  - specialize (IH lo mid). lia.
  - specialize (IH (mid + 1)%nat hi). lia.
Qed.

Lemma index_of_bound cum n x : (index_of cum n x <= n - 1)%nat.
Proof. unfold index_of, bisect. apply bisect_loop_bounds. lia. Qed.

Lemma picks_of_length population weights raws :
  length (picks_of population weights raws) = length raws.
Proof. unfold picks_of. apply length_map. Qed.

Lemma picks_of_In population weights raws x :
  population <> [] -> In x (picks_of population weights raws) -> In x population.
Proof.
  intros Hne H. unfold picks_of in H. apply in_map_iff in H.
  destruct H as (raw & <- & _). apply nth_In.
  pose proof (index_of_bound (accumulate weights) (length population) raw).
  destruct population; [congruence | simpl in *; lia].
Qed.

Lemma unit_of_range x : (0 <= unit_of x)%Q /\ (unit_of x < 1)%Q.
Proof.
  unfold unit_of. pose proof (Z.mod_pos_bound x (2 ^ 53) ltac:(lia)) as H.
  unfold Qle, Qlt. cbn [Qnum Qden]. split; [lia|].
  change (Z.pos (2 ^ 53)) with (2 ^ 53). lia.
Qed.

Lemma jitter_of_range x : ((1 # 10) <= jitter_of x)%Q /\ (jitter_of x < 1)%Q.
Proof. unfold jitter_of. pose proof (unit_of_range x). lra. Qed.

Lemma get_default_Forall (P : Z -> Prop) d k default :
  Forall (fun kv => P (snd kv)) d -> P default -> P (Py.get d k default).
Proof.
  intros Hd Hdef. induction Hd as [|[k' v] d Hv Hd IH]; simpl; [exact Hdef|].
  destruct (k' =? k); [exact Hv | exact IH].
Qed.

Lemma weights_of_length red_freq nums raws :
  length raws = length nums -> length (weights_of red_freq nums raws) = length nums.
Proof. intros H. unfold weights_of. rewrite length_map, length_combine. lia. Qed.

Lemma weights_of_pos red_freq nums raws :
  Forall (fun kv => 0 <= snd kv) red_freq ->
  Forall (fun w => 0 < w)%Q (weights_of red_freq nums raws).
Proof.
  intros Hd. unfold weights_of. apply Forall_forall. intros w Hw.
  apply in_map_iff in Hw. destruct Hw as ([num raw] & <- & _). cbn [fst snd].
  pose proof (jitter_of_range raw) as [Hj _].
  assert (0 <= Py.get red_freq num 1) as Hget
      by (apply (get_default_Forall (fun v => 0 <= v)); [exact Hd | lia]).
  assert (0 <= inject_Z (Py.get red_freq num 1))%Q
      by (unfold Qle, inject_Z; cbn [Qnum Qden]; lia).
  lra.
Qed.

Lemma blue_weights_pos blue_freq :
  Forall (fun kv => 1 <= snd kv) blue_freq ->
  Forall (fun w => 0 < w)%Q (blue_weights blue_freq).
Proof.
  intros Hd. unfold blue_weights. apply Forall_forall. intros w Hw.
  apply in_map_iff in Hw. destruct Hw as (num & <- & _).
  assert (1 <= Py.get blue_freq num 1) as Hget
      by (apply (get_default_Forall (fun v => 1 <= v)); [exact Hd | lia]).
  unfold Qlt, inject_Z. cbn [Qnum Qden]. lia.
Qed.


(** ** The top-up loop *)

Lemma top_up_done fuel selected_reds g :
  (6 <= length selected_reds)%nat -> top_up fuel selected_reds g = Ok selected_reds g.
Proof.
  intros H. destruct fuel; simpl;
    (destruct (Nat.ltb_spec (length selected_reds) 6); [lia | reflexivity]).
Qed.

Lemma top_up_S fuel selected_reds g :
  (length selected_reds < 6)%nat ->
  top_up (S fuel) selected_reds g =
  if Py.contains (candidate_at g (cursor g)) selected_reds
  then top_up fuel selected_reds (advance 1 g)
  else top_up fuel (Py.sorted (selected_reds ++ [candidate_at g (cursor g)])) (advance 1 g).
Proof.
  intros H. cbn [top_up]. apply Nat.ltb_lt in H. rewrite H.
  unfold bind. rewrite randint_Ok.
  change (1 + tape g (cursor g) mod (33 - 1 + 1)) with (candidate_at g (cursor g)).
  change (mkRng (tape g) (S (cursor g))) with (advance 1 g).
  destruct (Py.contains (candidate_at g (cursor g)) selected_reds); cbn [negb]; [reflexivity|].
  unfold Py.slice_to. rewrite firstn_all2; [reflexivity|].
  rewrite length_app. simpl. apply Nat.ltb_lt in H. lia.
Qed.

Lemma top_up_0 selected_reds g :
  (length selected_reds < 6)%nat -> top_up 0 selected_reds g = OutOfFuel.
Proof. intros H. simpl. apply Nat.ltb_lt in H. now rewrite H. Qed.

Lemma contains_In x l : Py.contains x l = true <-> In x l.
Proof.
  unfold Py.contains. rewrite existsb_exists. split.
  - intros (y & Hy & E). apply Z.eqb_eq in E. now subst.
  - intros H. exists x. split; [exact H | apply Z.eqb_refl].
Qed.

Lemma candidate_at_range g i : 1 <= candidate_at g i <= 33.
Proof. unfold candidate_at. pose proof (Z.mod_pos_bound (tape g i) 33). lia. Qed.

Lemma reds_ok_add selected_reds c :
  reds_ok selected_reds -> ~ In c selected_reds -> 1 <= c <= 33 ->
  reds_ok (Py.sorted (selected_reds ++ [c])).
Proof.
  intros [Hs Hr] Hc Hrange. split.
  - apply sorted_lt. apply lt_sorted_NoDup in Hs.
    apply NoDup_app; [exact Hs | repeat constructor; tauto |].
    intros x Hx [<- | []]. contradiction.
  - apply sorted_Forall. apply Forall_app. split; [exact Hr | now repeat constructor].
Qed.

Lemma top_up_no_raise fuel : forall selected_reds g e,
  top_up fuel selected_reds g <> Raise e.
Proof.
  induction fuel as [|fuel IH]; intros sel g e.
  - simpl. now destruct (length sel <? 6)%nat.
  - destruct (Nat.ltb_spec (length sel) 6) as [Hlt|Hge].
    + rewrite top_up_S by exact Hlt.
      destruct (Py.contains (candidate_at g (cursor g)) sel); apply IH.
    + now rewrite top_up_done.
Qed.

(** What the loop returns: six reds in order, the ones it started with
    among them, every other one a candidate read off the tape. *)
Lemma top_up_Ok fuel : forall selected_reds g reds g',
  reds_ok selected_reds -> (length selected_reds <= 6)%nat ->
  top_up fuel selected_reds g = Ok reds g' ->
  length reds = 6%nat /\ reds_ok reds /\ incl selected_reds reds /\
  tape g' = tape g /\ (cursor g <= cursor g')%nat /\
  forall x, In x reds ->
    In x selected_reds \/
    exists i, (cursor g <= i < cursor g')%nat /\ x = candidate_at g i.
Proof.
  induction fuel as [|fuel IH]; intros sel g reds g' Hok Hlen H.
  - destruct (Nat.ltb_spec (length sel) 6) as [Hlt|Hge].
    + now rewrite top_up_0 in H.
    + rewrite top_up_done in H by exact Hge. inversion H; subst.
      repeat split; try apply Hok; try lia; auto using incl_refl.
  - destruct (Nat.ltb_spec (length sel) 6) as [Hlt|Hge].
    + rewrite top_up_S in H by exact Hlt.
      destruct (Py.contains (candidate_at g (cursor g)) sel) eqn:C.
      * apply IH in H; auto. destruct H as (H1 & H2 & H3 & H4 & H5 & H6).
        cbn [advance tape cursor] in *. repeat split; auto; try apply H2; try lia.
        intros x Hx. destruct (H6 x Hx) as [Hin | (i & Hi & ->)]; [now left|].
        right. exists i. split; [lia | reflexivity].
      * assert (~ In (candidate_at g (cursor g)) sel) as Hnew.
        { intros Hin. apply contains_In in Hin. congruence. }
        apply IH in H.
        -- destruct H as (H1 & H2 & H3 & H4 & H5 & H6).
           cbn [advance tape cursor] in *. repeat split; auto; try apply H2; try lia.
           ++ intros x Hx. apply H3, sorted_In, in_or_app. now left.
           ++ intros x Hx. destruct (H6 x Hx) as [Hin | (i & Hi & ->)].
              ** apply sorted_In, in_app_or in Hin. destruct Hin as [Hin | [<- | []]].
                 --- now left.
                 --- right. exists (cursor g). split; [lia | reflexivity].
              ** right. exists i. split; [lia | reflexivity].
        -- apply reds_ok_add; auto using candidate_at_range.
        -- rewrite sorted_length, length_app. simpl. lia.
    + rewrite top_up_done in H by exact Hge. inversion H; subst.
      repeat split; try apply Hok; try lia; auto using incl_refl.
Qed.

(** The loop returns within its budget as soon as what it holds and the
    candidates it is going to see make up six different numbers. *)
Lemma top_up_returns fuel : forall selected_reds g,
  (exists l, NoDup l /\ (6 <= length l)%nat /\
             incl l (selected_reds ++ candidates g fuel)) ->
  exists reds g', top_up fuel selected_reds g = Ok reds g' /\
                  (cursor g' <= cursor g + fuel)%nat.
Proof.
  induction fuel as [|fuel IH]; intros sel g (l & Hnd & Hl & Hincl).
  - unfold candidates in Hincl. simpl in Hincl. rewrite app_nil_r in Hincl.
    pose proof (NoDup_incl_length Hnd Hincl).
    exists sel, g. rewrite top_up_done by lia. split; [reflexivity | lia].
  - destruct (Nat.ltb_spec (length sel) 6) as [Hlt|Hge].
    + rewrite top_up_S by exact Hlt.
      assert (candidates g (S fuel) =
              candidate_at g (cursor g) :: candidates (advance 1 g) fuel) as Hc
          by reflexivity.
      rewrite Hc in Hincl.
      destruct (Py.contains (candidate_at g (cursor g)) sel) eqn:C.
      * apply contains_In in C.
        destruct (IH sel (advance 1 g)) as (reds & g' & E & Hcur).
        { exists l. repeat split; auto. intros x Hx. apply Hincl in Hx.
          apply in_app_or in Hx. apply in_or_app.
          destruct Hx as [Hx | [<- | Hx]]; auto. }
        exists reds, g'. split; [exact E | simpl in Hcur; lia].
      * destruct (IH (Py.sorted (sel ++ [candidate_at g (cursor g)])) (advance 1 g))
          as (reds & g' & E & Hcur).
        { exists l. repeat split; auto. intros x Hx. apply Hincl in Hx.
          apply in_app_or in Hx. apply in_or_app.
          destruct Hx as [Hx | [<- | Hx]]; auto.
          - left. apply sorted_In, in_or_app. now left.
          - left. apply sorted_In, in_or_app. right. now left. }
        exists reds, g'. split; [exact E | simpl in Hcur; lia].
    + exists sel, g. rewrite top_up_done by exact Hge. split; [reflexivity | lia].
Qed.

Lemma map_seq_from {B} (f : nat -> B) w : forall a,
  map f (seq a w) = map (fun i => f (a + i)%nat) (seq 0 w).
Proof.
  intros a.
  assert (forall b, map f (seq (a + b) w) = map (fun i => f (a + i)%nat) (seq b w)) as H.
  { induction w as [|w IH]; intros b; [reflexivity|].
    simpl. f_equal. rewrite <- IH. do 2 f_equal. lia. }
  rewrite <- (H 0%nat). now rewrite Nat.add_0_r.
Qed.

Lemma window_varied_candidates w g :
  window_varied w g (cursor g) = true ->
  exists l, NoDup l /\ (6 <= length l)%nat /\ incl l (candidates g w).
Proof.
  unfold window_varied. intros H. apply Nat.leb_le in H.
  exists (nodup Z.eq_dec (map (fun i => candidate_at g (cursor g + i)) (seq 0 w))).
  split; [apply NoDup_nodup|]. split; [exact H|].
  intros x Hx. apply nodup_In in Hx. unfold candidates.
  now rewrite map_seq_from.
Qed.


(** ** One round of the frequency-weighted strategy *)

Lemma all_reds_In x : In x all_reds <-> 1 <= x <= 33.
Proof.
  unfold all_reds, Py.range. rewrite in_map_iff. split.
  - intros (i & <- & Hi). apply in_seq in Hi. simpl in Hi. lia.
  - intros H. exists (Z.to_nat (x - 1)). split; [lia|]. apply in_seq. simpl. lia.
Qed.

Lemma all_blues_In x : In x all_blues <-> 1 <= x <= 16.
Proof.
  unfold all_blues, Py.range. rewrite in_map_iff. split.
  - intros (i & <- & Hi). apply in_seq in Hi. simpl in Hi. lia.
  - intros H. exists (Z.to_nat (x - 1)). split; [lia|]. apply in_seq. simpl. lia.
Qed.

Lemma weighted_picks_eq red_freq g :
  Forall (fun kv => 0 <= snd kv) red_freq ->
  weighted_picks red_freq g = Ok (picks_at red_freq g) (advance 39 g).
Proof.
  intros Hd. unfold weighted_picks, bind. rewrite jittered_weights_eq.
  change (length all_reds) with 33%nat.
  rewrite choices_eq.
  - rewrite advance_advance. reflexivity.
  - now rewrite weights_of_length; rewrite ?cells_length.
  - intros E. apply (f_equal (@length Q)) in E.
    rewrite weights_of_length in E by now rewrite cells_length. discriminate.
  - now apply weights_of_pos.
Qed.

Lemma blue_choice_eq blue_freq g :
  Forall (fun kv => 1 <= snd kv) blue_freq ->
  choices all_blues (blue_weights blue_freq) 1 g = Ok [blue_at blue_freq g] (advance 1 g).
Proof.
  intros Hd. rewrite choices_eq.
  - unfold picks_of, blue_at, cells. cbn [seq map Nat.add].
    change (length all_blues) with 16%nat. reflexivity.
  - unfold blue_weights. now rewrite length_map.
  - discriminate.
  - now apply blue_weights_pos.
Qed.

Lemma frequency_weighted_one_eq fuel red_freq blue_freq g :
  Forall (fun kv => 0 <= snd kv) red_freq ->
  Forall (fun kv => 1 <= snd kv) blue_freq ->
  frequency_weighted_one fuel red_freq blue_freq g =
  match top_up fuel (Py.sorted (Py.slice_to 6 (Py.list_set (picks_at red_freq g))))
          (advance 39 g) with
  | Ok reds g1 => Ok {| red := reds; blue := blue_at blue_freq g1 |} (advance 1 g1)
  | Raise e => Raise e
  | OutOfFuel => OutOfFuel
  end.
Proof.
  intros Hr Hb. unfold frequency_weighted_one. unfold bind at 1.
  rewrite weighted_picks_eq by exact Hr. unfold bind at 1.
  destruct (top_up fuel _ (advance 39 g)) as [reds g1| |]; try reflexivity.
  unfold bind. now rewrite blue_choice_eq.
Qed.

Lemma picks_at_In red_freq g x : In x (picks_at red_freq g) -> 1 <= x <= 33.
Proof.
  intros H. apply all_reds_In. eapply picks_of_In; [discriminate | exact H].
Qed.

Lemma picks_at_length red_freq g : length (picks_at red_freq g) = 6%nat.
Proof. unfold picks_at. now rewrite picks_of_length, cells_length. Qed.

(** The set of six picks has at most six elements: the slice keeps all. *)
Lemma slice_of_picks red_freq g :
  Py.slice_to 6 (Py.list_set (picks_at red_freq g)) = Py.list_set (picks_at red_freq g).
Proof.
  unfold Py.slice_to, Py.list_set. apply firstn_all2.
  pose proof (NoDup_incl_length (NoDup_nodup Z.eq_dec (picks_at red_freq g))
                (l' := picks_at red_freq g)) as H.
  rewrite picks_at_length in H. apply H. intros x Hx. now apply nodup_In in Hx.
Qed.

Lemma first_selection_ok red_freq g :
  reds_ok (Py.sorted (Py.slice_to 6 (Py.list_set (picks_at red_freq g)))) /\
  (length (Py.sorted (Py.slice_to 6 (Py.list_set (picks_at red_freq g)))) <= 6)%nat.
Proof.
  rewrite slice_of_picks. unfold Py.list_set. repeat split.
  - apply sorted_lt, NoDup_nodup.
  - apply sorted_Forall, Forall_forall. intros x Hx. apply nodup_In in Hx.
    now apply picks_at_In in Hx.
  - rewrite sorted_length.
    pose proof (NoDup_incl_length (NoDup_nodup Z.eq_dec (picks_at red_freq g))
                  (l' := picks_at red_freq g)) as H.
    rewrite picks_at_length in H. apply H. intros x Hx. now apply nodup_In in Hx.
Qed.

Lemma blue_at_range blue_freq g : 1 <= blue_at blue_freq g <= 16.
Proof.
  apply all_blues_In. unfold blue_at. apply nth_In.
  pose proof (index_of_bound (accumulate (blue_weights blue_freq)) 16 (tape g (cursor g))).
  change (length all_blues) with 16%nat. lia.
Qed.

Lemma frequency_weighted_one_valid fuel red_freq blue_freq g rec g' :
  Forall (fun kv => 0 <= snd kv) red_freq ->
  Forall (fun kv => 1 <= snd kv) blue_freq ->
  frequency_weighted_one fuel red_freq blue_freq g = Ok rec g' ->
  valid_recommendation rec.
Proof.
  intros Hr Hb H. rewrite frequency_weighted_one_eq in H by assumption.
  destruct (top_up fuel _ (advance 39 g)) as [reds g1| |] eqn:T; inversion H; subst.
  destruct (first_selection_ok red_freq g) as [Hok Hlen].
  apply top_up_Ok in T; auto. destruct T as (H1 & [H2 H3] & _).
  unfold valid_recommendation. cbn [red blue].
  repeat split; auto; apply blue_at_range.
Qed.

Lemma frequency_weighted_one_no_raise fuel red_freq blue_freq g e :
  Forall (fun kv => 0 <= snd kv) red_freq ->
  Forall (fun kv => 1 <= snd kv) blue_freq ->
  frequency_weighted_one fuel red_freq blue_freq g <> Raise e.
Proof.
  intros Hr Hb H. rewrite frequency_weighted_one_eq in H by assumption.
  destruct (top_up fuel _ (advance 39 g)) as [reds g1| |] eqn:T; inversion H; subst.
  now apply top_up_no_raise in T.
Qed.

(** One round returns when the window read by its top-up loop is varied. *)
Lemma frequency_weighted_one_returns w red_freq blue_freq g :
  Forall (fun kv => 0 <= snd kv) red_freq ->
  Forall (fun kv => 1 <= snd kv) blue_freq ->
  window_varied w g (39 + cursor g) = true ->
  exists rec g', frequency_weighted_one w red_freq blue_freq g = Ok rec g' /\
                 tape g' = tape g /\
                 (cursor g <= cursor g' <= cursor g + (40 + w))%nat.
Proof.
  intros Hr Hb Hw. rewrite frequency_weighted_one_eq by assumption.
  destruct (window_varied_candidates w (advance 39 g) Hw) as (l & Hnd & Hl & Hincl).
  destruct (top_up_returns w (Py.sorted (Py.slice_to 6 (Py.list_set (picks_at red_freq g))))
              (advance 39 g)) as (reds & g1 & E & Hcur).
  { exists l. split; [exact Hnd|]. split; [exact Hl|].
    intros x Hx. apply in_or_app. right. now apply Hincl. }
  rewrite E. eexists. eexists. split; [reflexivity|].
  destruct (first_selection_ok red_freq g) as [Hok Hlen].
  apply top_up_Ok in E; auto. destruct E as (_ & _ & _ & Ht & Hc & _).
  cbn [advance tape cursor] in *. split; [exact Ht | lia].
Qed.

Lemma window_varied_tape w g g' p :
  tape g' = tape g -> window_varied w g' p = window_varied w g p.
Proof. intros H. unfold window_varied, candidate_at. now rewrite H. Qed.

Lemma append_each_frequency_weighted_returns w red_freq blue_freq :
  Forall (fun kv => 0 <= snd kv) red_freq ->
  Forall (fun kv => 1 <= snd kv) blue_freq ->
  forall n acc g,
    (forall p, (cursor g <= p < cursor g + n * (40 + w))%nat ->
               window_varied w g p = true) ->
    exists recs g',
      append_each n (frequency_weighted_one w red_freq blue_freq) acc g = Ok recs g'.
Proof.
  intros Hr Hb. induction n as [|n IH]; intros acc g Hv.
  - now exists acc, g.
  - destruct (frequency_weighted_one_returns w red_freq blue_freq g Hr Hb)
      as (rec & g1 & E & Ht & Hc).
    { apply Hv. lia. }
    cbn [append_each]. unfold bind. rewrite E. apply IH.
    intros p Hp. rewrite (window_varied_tape w g g1 p Ht). apply Hv. lia.
Qed.

Lemma varied_spec w g n :
  varied w g n <->
  forall p, (cursor g <= p < cursor g + n)%nat -> window_varied w g p = true.
Proof.
  unfold varied. rewrite forallb_forall. split; intros H p Hp; apply H.
  - apply in_seq. lia.
  - apply in_seq in Hp. lia.
Qed.


(** ** Parsing *)

Lemma ints_of_Some pieces nums :
  SSQCore.ints_of pieces = Some nums <->
  Forall2 (fun piece n => Str.int piece = Some n) pieces nums.
Proof.
  revert nums. induction pieces as [|x pieces IH]; intros nums; simpl.
  - split; [intros H; inversion H; constructor | intros H; now inversion H].
  - destruct (Str.int x) as [n|] eqn:E.
    + destruct (SSQCore.ints_of pieces) as [ns|] eqn:F; split; intros H.
      * inversion H; subst. constructor; [exact E | now apply IH].
      * inversion H; subst. apply IH in H4. congruence.
      * discriminate.
      * inversion H; subst. apply IH in H4. discriminate.
    + split; [discriminate | intros H; inversion H; subst; congruence].
Qed.

Lemma int_empty : Str.int EmptyString = None.
Proof. reflexivity. Qed.

Lemma truthy_false s : Str.truthy s = false -> s = EmptyString.
Proof. now destruct s. Qed.

Lemma parse_item_eq acc it :
  SSQCore.parse_item acc it = (fst acc ++ red_added it, snd acc ++ blue_added it).
Proof.
  destruct acc as [red_balls blue_balls]. unfold SSQCore.parse_item, red_added, blue_added.
  cbn [fst snd]. f_equal.
  - destruct (SSQCore.red it) as [s|]; [|now rewrite app_nil_r].
    destruct (Str.truthy s) eqn:T.
    + destruct (SSQCore.ints_of (Str.split "," s)) as [nums|]; [|now rewrite app_nil_r].
      destruct (length nums =? 6)%nat; [reflexivity | now rewrite app_nil_r].
    + apply truthy_false in T. subst. now rewrite app_nil_r.
  - destruct (SSQCore.blue it) as [s|]; [|now rewrite app_nil_r].
    destruct (Str.truthy s) eqn:T.
    + destruct (Str.int s); [reflexivity | now rewrite app_nil_r].
    + apply truthy_false in T. subst. now rewrite app_nil_r.
Qed.

Lemma parse_fold data : forall acc,
  fold_left SSQCore.parse_item data acc =
  (fst acc ++ concat (map red_added data), snd acc ++ concat (map blue_added data)).
Proof.
  induction data as [|it data IH]; intros acc; simpl.
  - rewrite !app_nil_r. now destruct acc.
  - rewrite IH, parse_item_eq. cbn [fst snd]. now rewrite <- !app_assoc.
Qed.

Lemma red_added_rule it : red_rule it (red_added it).
Proof.
  unfold red_rule, red_added, red_decodes.
  destruct (SSQCore.red it) as [s|] eqn:R.
  - destruct (SSQCore.ints_of (Str.split "," s)) as [nums|] eqn:I.
    + destruct (Nat.eqb_spec (length nums) 6) as [L|L].
      * left. exists nums. repeat split; auto. exists s. split; [reflexivity|].
        now apply ints_of_Some.
      * right. split; [|reflexivity]. intros nums' (s' & E & F).
        inversion E; subst. apply ints_of_Some in F. congruence.
    + right. split; [|reflexivity]. intros nums' (s' & E & F).
      inversion E; subst. apply ints_of_Some in F. congruence.
  - right. split; [|reflexivity]. intros nums' (s' & E & _). discriminate.
Qed.

Lemma blue_added_rule it : blue_rule it (blue_added it).
Proof.
  unfold blue_rule, blue_added, blue_decodes.
  destruct (SSQCore.blue it) as [s|] eqn:B.
  - destruct (Str.int s) as [n|] eqn:I.
    + left. exists n. split; [|reflexivity]. now exists s.
    + right. split; [|reflexivity]. intros n (s' & E & F). congruence.
  - right. split; [|reflexivity]. intros n (s' & E & _). discriminate.
Qed.


(** ** Ranking a table by count *)



Lemma sorted_desc_perm d : Permutation (Py.sorted_desc d) d.
Proof. apply sorted_by_perm. Qed.

Lemma sorted_asc_perm d : Permutation (Py.sorted_asc d) d.
Proof. apply sorted_by_perm. Qed.


Lemma sorted_asc_stable d x y :
  before (Py.sorted_asc d) x y ->
  snd x <= snd y /\ (snd x = snd y -> before d x y).
Proof.
  intros H.
  apply (sorted_by_stable (fun a b : Z * Z => snd a <=? snd b)
           (fun a b => leb_total (snd a) (snd b))
           (fun a b c => leb_trans (snd a) (snd b) (snd c))) in H.
  destruct H as [H1 H2]. apply Z.leb_le in H1. split; [exact H1|].
  intros E. apply H2. apply Z.leb_le. lia.
Qed.

Lemma firstn_In {A} (l : list A) n x : In x (firstn n l) -> In x l.
Proof.
  intros H. rewrite <- (firstn_skipn n l). apply in_or_app. now left.
Qed.



Lemma append_each_ret rec n : forall acc g,
  append_each n (ret rec) acc g = Ok (acc ++ repeat rec n) g.
Proof.
  induction n as [|n IH]; intros acc g; simpl.
  - now rewrite app_nil_r.
  - unfold bind, ret at 1. rewrite IH. now rewrite <- app_assoc.
Qed.






(** ** [bisect] and the weight of a pick *)




Lemma weight_below_0 ws : weight_below ws 0 = 0%Q.
Proof. reflexivity. Qed.









(** ** The weights and the picks of a round *)











(** ** [sample]: its picks are distinct elements of the population *)

Lemma setitem_length {A} (l : list A) : forall i v, length (Py.setitem l i v) = length l.
Proof.
  induction l as [|h t IH]; intros [|i] v; simpl; auto.
Qed.

Lemma setitem_same {A} (l : list A) d : forall i,
  (i < length l)%nat -> Py.setitem l i (nth i l d) = l.
Proof.
  induction l as [|h t IH]; intros [|i] Hi; simpl in *; try lia; auto.
  f_equal. apply IH. lia.
Qed.

Lemma firstn_setitem {A} (l : list A) v : forall n i,
  (i < n)%nat -> firstn n (Py.setitem l i v) = Py.setitem (firstn n l) i v.
Proof.
  induction l as [|h t IH]; intros [|n] [|i] Hi; simpl; try lia; auto.
  f_equal. apply IH. lia.
Qed.

Lemma setitem_perm {A} (l : list A) d v : forall i,
  (i < length l)%nat -> Permutation (nth i l d :: Py.setitem l i v) (v :: l).
Proof.
  induction l as [|h t IH]; intros [|i] Hi; simpl in *; try lia.
  - apply perm_swap.
  - rewrite perm_swap. rewrite (IH i) by lia. apply perm_swap.
Qed.

Lemma firstn_succ {A} (l : list A) d : forall n,
  (n < length l)%nat -> firstn (S n) l = firstn n l ++ [nth n l d].
Proof.
  induction l as [|h t IH]; intros [|n] Hn; simpl in *; try lia; auto.
  f_equal. apply IH. lia.
Qed.

(** One step of the pool: the pick and what stays alive are what was alive. *)
Lemma pool_step_perm (pool : list Z) live j :
  (j < live <= length pool)%nat ->
  Permutation
    (nth j pool 0 :: firstn (live - 1) (Py.setitem pool j (nth (live - 1) pool 0)))
    (firstn live pool).
Proof.
  intros [Hj Hlive].
  assert (firstn live pool = firstn (live - 1) pool ++ [nth (live - 1) pool 0]) as E.
  { replace live with (S (live - 1)) at 1 by lia. apply firstn_succ. lia. }
  rewrite E. destruct (Nat.eq_dec j (live - 1)) as [->|Hne].
  - rewrite setitem_same by lia. apply Permutation_cons_append.
  - rewrite firstn_setitem by lia.
    assert (nth j pool 0 = nth j (firstn (live - 1) pool) 0) as ->.
    { rewrite nth_firstn.
      now replace (j <? live - 1)%nat with true by (symmetry; apply Nat.ltb_lt; lia). }
    rewrite setitem_perm by (rewrite length_firstn; lia).
    apply Permutation_cons_append.
Qed.

Lemma pool_picks_perm raws : forall live pool,
  (length raws <= live <= length pool)%nat ->
  exists rest, Permutation (pool_picks raws live pool ++ rest) (firstn live pool).
Proof.
  induction raws as [|x raws IH]; intros live pool [Hr Hl].
  - exists (firstn live pool). reflexivity.
  - simpl in Hr. cbn [pool_picks].
    set (j := Z.to_nat (x mod Z.of_nat live)).
    assert (j < live)%nat as Hj.
    { unfold j. pose proof (Z.mod_pos_bound x (Z.of_nat live)). lia. }
    destruct (IH (live - 1)%nat (Py.setitem pool j (nth (live - 1) pool 0))) as (rest & HP).
    { rewrite setitem_length. lia. }
    exists rest. cbn [app]. rewrite HP. apply pool_step_perm. lia.
Qed.

Lemma pool_picks_length raws : forall live pool,
  length (pool_picks raws live pool) = length raws.
Proof.
  induction raws as [|x raws IH]; intros live pool; simpl; auto.
Qed.

Lemma pool_picks_ok population n raws :
  n = length population -> (length raws <= n)%nat -> NoDup population ->
  length (pool_picks raws n population) = length raws /\
  NoDup (pool_picks raws n population) /\
  incl (pool_picks raws n population) population.
Proof.
  intros -> Hk Hnd. split; [apply pool_picks_length|].
  destruct (pool_picks_perm raws (length population) population) as (rest & HP); [lia|].
  rewrite firstn_all in HP. split.
  - apply (Permutation_NoDup (Permutation_sym HP)) in Hnd.
    now apply NoDup_app_remove_r in Hnd.
  - intros x Hx. eapply Permutation_in; [exact HP|]. apply in_or_app. now left.
Qed.

(** [sample] returns, without raising, [k] different elements of a
    population without repeats; it raises only when asked for more than
    there are. *)
Lemma sample_Ok population k g :
  (k <= length population)%nat -> NoDup population ->
  exists picks,
    sample population k g = Ok picks (advance k g) /\
    length picks = k /\ NoDup picks /\ incl picks population.
Proof.
  intros Hk Hnd. exists (pool_picks (cells g k) (length population) population).
  split; [now apply sample_eq|].
  split; [now rewrite pool_picks_length, cells_length|].
  destruct (pool_picks_perm (cells g k) (length population) population) as (rest & HP).
  { rewrite cells_length. lia. }
  rewrite firstn_all in HP. split.
  - apply (Permutation_NoDup (Permutation_sym HP)) in Hnd.
    now apply NoDup_app_remove_r in Hnd.
  - intros x Hx. eapply Permutation_in; [exact HP|]. apply in_or_app. now left.
Qed.

Lemma sample_too_many population k g :
  (length population < k)%nat -> sample population k g = Raise ValueError.
Proof.
  intros H. unfold sample. apply Nat.leb_gt in H. now rewrite H.
Qed.

Lemma range_NoDup lo hi : NoDup (Py.range lo hi).
Proof.
  unfold Py.range. apply Finite.Injective_map_NoDup; [|apply seq_NoDup].
  intros a b H. lia.
Qed.

Lemma range_In lo hi x : In x (Py.range lo hi) <-> lo <= x < hi.
Proof.
  unfold Py.range. rewrite in_map_iff. split.
  - intros (i & <- & Hi). apply in_seq in Hi. lia.
  - intros H. exists (Z.to_nat (x - lo)). split; [lia|]. apply in_seq. lia.
Qed.

Lemma range_length lo hi : length (Py.range lo hi) = Z.to_nat (hi - lo).
Proof. unfold Py.range. now rewrite length_map, length_seq. Qed.


(** ** Strategies that need no table *)

Lemma for_range_total (P : recommendation -> Prop) (body : M recommendation) :
  (forall g, exists rec g', body g = Ok rec g' /\ P rec) ->
  forall count g,
    exists recs g',
      for_range count body g = Ok recs g' /\
      length recs = Z.to_nat count /\ Forall P recs.
Proof.
  intros Hbody count g. unfold for_range.
  assert (forall n acc g, exists new g',
            append_each n body acc g = Ok (acc ++ new) g' /\
            length new = n /\ Forall P new) as H.
  { induction n as [|n IH]; intros acc g0.
    - exists [], g0. rewrite app_nil_r. repeat split. constructor.
    - destruct (Hbody g0) as (rec & g1 & E & HP).
      destruct (IH (acc ++ [rec]) g1) as (new & g2 & E2 & Hlen & Hall).
      exists (rec :: new), g2. cbn [append_each]. unfold bind. rewrite E, E2.
      rewrite <- app_assoc. repeat split; [simpl; lia | now constructor]. }
  destruct (H (Z.to_nat count) [] g) as (new & g' & E & Hlen & Hall).
  exists new, g'. auto.
Qed.

Lemma choice_pair a b g :
  exists x, choice [a; b] g = Ok x (advance 1 g) /\ (x = a \/ x = b).
Proof.
  unfold choice, bind. rewrite randbelow_Ok. unfold ret.
  pose proof (Z.mod_pos_bound (tape g (cursor g)) (Z.of_nat (length [a; b])) ltac:(simpl; lia)) as H.
  set (j := tape g (cursor g) mod Z.of_nat (length [a; b])) in *.
  change (Z.of_nat (length [a; b])) with 2 in H.
  exists (nth (Z.to_nat j) [a; b] 0). split; [reflexivity|].
  assert (j = 0 \/ j = 1) as [-> | ->] by lia; [left | right]; reflexivity.
Qed.

Lemma choice_single b g : choice [b] g = Ok b (advance 1 g).
Proof.
  unfold choice, bind. rewrite randbelow_Ok. unfold ret.
  change (Z.of_nat (length [b])) with 1. rewrite Z.mod_1_r. reflexivity.
Qed.

Lemma randint_advance a b g :
  randint a b g = Ok (a + tape g (cursor g) mod (b - a + 1)) (advance 1 g).
Proof. reflexivity. Qed.

Lemma randint_within a b g :
  a <= b -> a <= a + tape g (cursor g) mod (b - a + 1) <= b.
Proof. intros H. pose proof (Z.mod_pos_bound (tape g (cursor g)) (b - a + 1)). lia. Qed.

(** Six different numbers of 1..33, sorted, are the reds of a well-formed
    recommendation. *)
Lemma sorted_six_ok picks :
  length picks = 6%nat -> NoDup picks -> incl picks (Py.range 1 34) ->
  length (Py.sorted picks) = 6%nat /\ reds_ok (Py.sorted picks).
Proof.
  intros Hlen Hnd Hincl. split; [now rewrite sorted_length|]. split.
  - now apply sorted_lt.
  - apply sorted_Forall, Forall_forall. intros x Hx. apply Hincl, range_In in Hx. lia.
Qed.

Lemma sample_here_ok g :
  length (sample_here g) = 6%nat /\ reds_ok (sample_here g).
Proof.
  unfold sample_here.
  destruct (pool_picks_ok (Py.range 1 34) 33 (cells g 6) eq_refl)
    as (Hlen & Hnd & Hincl).
  - rewrite cells_length. lia.
  - apply range_NoDup.
  - rewrite cells_length in Hlen. now apply sorted_six_ok.
Qed.

Lemma pure_random_one_Ok g :
  exists rec g', pure_random_one g = Ok rec g' /\ valid_recommendation rec.
Proof.
  unfold pure_random_one, bind. rewrite sample6_eq. fold (sample_here g).
  rewrite randint_advance. unfold ret.
  eexists. eexists. split; [reflexivity|].
  destruct (sample_here_ok g) as [Hlen [Hs Hr]].
  unfold valid_recommendation. cbn [red blue].
  split; [exact Hlen|]. split; [exact Hs|]. split; [exact Hr|].
  apply randint_within. lia.
Qed.

Lemma filter_perm {A} (f : A -> bool) l l' :
  Permutation l l' -> Permutation (filter f l) (filter f l').
Proof.
  induction 1 as [| x l l' HP IH | x y l | l l' l'' H1 IH1 H2 IH2]; simpl.
  - constructor.
  - destruct (f x); [now constructor | exact IH].
  - destruct (f x), (f y); try reflexivity. apply perm_swap.
  - now transitivity (filter f l').
Qed.

Lemma filter_all {A} (f : A -> bool) l :
  (forall x, In x l -> f x = true) -> filter f l = l.
Proof.
  induction l as [|a l IH]; intros H; simpl; [reflexivity|].
  rewrite (H a) by now left. f_equal. apply IH. intros x Hx. apply H. now right.
Qed.

Lemma filter_none {A} (f : A -> bool) l :
  (forall x, In x l -> f x = false) -> filter f l = [].
Proof.
  induction l as [|a l IH]; intros H; simpl; [reflexivity|].
  rewrite (H a) by now left. apply IH. intros x Hx. apply H. now right.
Qed.

Lemma count_in_sorted lo hi l : count_in lo hi (Py.sorted l) = count_in lo hi l.
Proof. unfold count_in. apply Permutation_length, filter_perm, sorted_perm. Qed.

Lemma count_in_app lo hi l1 l2 :
  count_in lo hi (l1 ++ l2) = (count_in lo hi l1 + count_in lo hi l2)%nat.
Proof. unfold count_in. now rewrite filter_app, length_app. Qed.

Lemma count_in_all lo hi l :
  (forall x, In x l -> lo <= x <= hi) -> count_in lo hi l = length l.
Proof.
  intros H. unfold count_in. rewrite filter_all; [reflexivity|].
  intros x Hx. apply H in Hx. apply andb_true_intro. rewrite !Z.leb_le. lia.
Qed.

Lemma count_in_none lo hi l :
  (forall x, In x l -> x < lo \/ hi < x) -> count_in lo hi l = 0%nat.
Proof.
  intros H. unfold count_in. rewrite filter_none; [reflexivity|].
  intros x Hx. apply H in Hx. apply andb_false_iff. rewrite !Z.leb_gt. lia.
Qed.


Lemma bind_eq {A B} (m : M A) (k : A -> M B) g a g1 :
  m g = Ok a g1 -> bind m k g = k a g1.
Proof. intros E. unfold bind. now rewrite E. Qed.

(** One round of the interval strategy always returns; its reds are two
    numbers of each third of 1..33. *)
Lemma interval_one_Ok g :
  exists rec g',
    interval_one g = Ok rec g' /\ valid_recommendation rec /\
    count_in 1 11 (red rec) = 2%nat /\ count_in 12 22 (red rec) = 2%nat /\
    count_in 23 33 (red rec) = 2%nat /\
    cursor g' = (9 + cursor g)%nat.
Proof.
  destruct (sample_Ok (Py.range 1 12) 2 g) as (i1 & E1 & L1 & N1 & I1);
    [rewrite range_length; simpl; lia | apply range_NoDup |].
  destruct (sample_Ok (Py.range 12 23) 2 (advance 2 g)) as (i2 & E2 & L2 & N2 & I2);
    [rewrite range_length; simpl; lia | apply range_NoDup |].
  destruct (sample_Ok (Py.range 23 34) 2 (advance 2 (advance 2 g)))
    as (i3 & E3 & L3 & N3 & I3);
    [rewrite range_length; simpl; lia | apply range_NoDup |].
  set (g3 := advance 2 (advance 2 (advance 2 g))) in *.
  destruct (choice_pair (1 + tape g3 (cursor g3) mod (8 - 1 + 1))
              (9 + tape (advance 1 g3) (cursor (advance 1 g3)) mod (16 - 9 + 1))
              (advance 1 (advance 1 g3))) as (b & Eb & Hb).
  unfold interval_one.
  rewrite (bind_eq _ _ _ _ _ E1). cbv beta.
  rewrite (bind_eq _ _ _ _ _ E2). cbv beta.
  rewrite (bind_eq _ _ _ _ _ E3). cbv beta. fold g3.
  rewrite (bind_eq _ _ _ _ _ (randint_advance 1 8 g3)). cbv beta.
  rewrite (bind_eq _ _ _ _ _ (randint_advance 9 16 (advance 1 g3))). cbv beta.
  rewrite (bind_eq _ _ _ _ _ Eb). cbv beta. unfold ret.
  eexists. eexists. split; [reflexivity|]. cbn [red blue].
  assert (forall x, In x i1 -> 1 <= x <= 11) as R1
      by (intros x Hx; apply I1, range_In in Hx; lia).
  assert (forall x, In x i2 -> 12 <= x <= 22) as R2
      by (intros x Hx; apply I2, range_In in Hx; lia).
  assert (forall x, In x i3 -> 23 <= x <= 33) as R3
      by (intros x Hx; apply I3, range_In in Hx; lia).
  split; [|split; [|split; [|split]]].
  - unfold valid_recommendation. cbn [red blue].
    split; [rewrite sorted_length, !length_app; lia|].
    split; [|split].
    + apply sorted_lt. apply NoDup_app; [exact N1 | |].
      * apply NoDup_app; [exact N2 | exact N3 |].
        intros x H2 H3. apply R2 in H2. apply R3 in H3. lia.
      * intros x H1 H23. apply R1 in H1. apply in_app_or in H23.
        destruct H23 as [H2 | H3]; [apply R2 in H2 | apply R3 in H3]; lia.
    + apply sorted_Forall, Forall_forall. intros x Hx.
      apply in_app_or in Hx. destruct Hx as [Hx | Hx]; [apply R1 in Hx; lia|].
      apply in_app_or in Hx. destruct Hx as [Hx | Hx]; [apply R2 in Hx | apply R3 in Hx]; lia.
    + pose proof (randint_within 1 8 g3 ltac:(lia)).
      pose proof (randint_within 9 16 (advance 1 g3) ltac:(lia)).
      destruct Hb as [-> | ->]; lia.
  - rewrite count_in_sorted, !count_in_app, (count_in_all 1 11 i1 R1).
    rewrite (count_in_none 1 11 i2), (count_in_none 1 11 i3); [lia | |].
    + intros x Hx. apply R3 in Hx. lia.
    + intros x Hx. apply R2 in Hx. lia.
  - rewrite count_in_sorted, !count_in_app, (count_in_all 12 22 i2 R2).
    rewrite (count_in_none 12 22 i1), (count_in_none 12 22 i3); [lia | |].
    + intros x Hx. apply R3 in Hx. lia.
    + intros x Hx. apply R1 in Hx. lia.
  - rewrite count_in_sorted, !count_in_app, (count_in_all 23 33 i3 R3).
    rewrite (count_in_none 23 33 i1), (count_in_none 23 33 i2); [lia | |].
    + intros x Hx. apply R2 in Hx. lia.
    + intros x Hx. apply R1 in Hx. lia.
  - unfold g3, advance. cbn [cursor]. lia.
Qed.


Lemma count_odd_sorted l : count_odd (Py.sorted l) = count_odd l.
Proof. unfold count_odd. apply Permutation_length, filter_perm, sorted_perm. Qed.

Lemma count_even_sorted l : count_even (Py.sorted l) = count_even l.
Proof. unfold count_even. apply Permutation_length, filter_perm, sorted_perm. Qed.

(** One round of the odd-even strategy always returns; its reds are three
    odd and three even numbers. *)
Lemma odd_even_one_Ok g :
  exists rec g',
    odd_even_one g = Ok rec g' /\ valid_recommendation rec /\
    count_odd (red rec) = 3%nat /\ count_even (red rec) = 3%nat /\
    cursor g' = (8 + cursor g)%nat.
Proof.
  set (odd_numbers := filter (fun x => x mod 2 =? 1) (Py.range 1 34)).
  set (even_numbers := filter (fun x => x mod 2 =? 0) (Py.range 1 34)).
  destruct (sample_Ok odd_numbers 3 g) as (odds & E1 & L1 & N1 & I1);
    [vm_compute; lia | apply NoDup_filter, range_NoDup |].
  destruct (sample_Ok even_numbers 3 (advance 3 g)) as (evens & E2 & L2 & N2 & I2);
    [vm_compute; lia | apply NoDup_filter, range_NoDup |].
  set (g2 := advance 3 (advance 3 g)) in *.
  unfold odd_even_one. fold odd_numbers even_numbers.
  rewrite (bind_eq _ _ _ _ _ E1). cbv beta.
  rewrite (bind_eq _ _ _ _ _ E2). cbv beta. fold g2.
  rewrite (bind_eq _ _ _ _ _ (randint_advance 1 16 g2)). cbv beta.
  rewrite (bind_eq _ _ _ _ _ (choice_single _ (advance 1 g2))). cbv beta. unfold ret.
  eexists. eexists. split; [reflexivity|]. cbn [red blue].
  assert (forall x, In x odds -> 1 <= x <= 33 /\ x mod 2 = 1) as R1.
  { intros x Hx. apply I1, filter_In in Hx. destruct Hx as [Hx Hodd].
    apply range_In in Hx. apply Z.eqb_eq in Hodd. lia. }
  assert (forall x, In x evens -> 1 <= x <= 33 /\ x mod 2 = 0) as R2.
  { intros x Hx. apply I2, filter_In in Hx. destruct Hx as [Hx Heven].
    apply range_In in Hx. apply Z.eqb_eq in Heven. lia. }
  split; [|split; [|split]].
  - unfold valid_recommendation. cbn [red blue].
    split; [rewrite sorted_length, length_app; lia|].
    split; [|split].
    + apply sorted_lt. apply NoDup_app; [exact N1 | exact N2 |].
      intros x H1 H2. apply R1 in H1. apply R2 in H2. lia.
    + apply sorted_Forall, Forall_forall. intros x Hx.
      apply in_app_or in Hx. destruct Hx as [Hx | Hx]; [apply R1 in Hx | apply R2 in Hx]; lia.
    + apply randint_within. lia.
  - rewrite count_odd_sorted. unfold count_odd. rewrite filter_app, length_app.
    rewrite (filter_all _ odds), (filter_none _ evens); [simpl; lia | |].
    + intros x Hx. apply R2 in Hx. apply Z.eqb_neq. lia.
    + intros x Hx. apply R1 in Hx. apply Z.eqb_eq. lia.
  - rewrite count_even_sorted. unfold count_even. rewrite filter_app, length_app.
    rewrite (filter_none _ odds), (filter_all _ evens); [simpl; lia | |].
    + intros x Hx. apply R2 in Hx. apply Z.eqb_eq. lia.
    + intros x Hx. apply R1 in Hx. apply Z.eqb_neq. lia.
  - unfold g2, advance. cbn [cursor]. lia.
Qed.

(** What a reject-sampling loop returns is a sample of six: well formed. *)
Lemma loop_outcome_ok accept fuel g reds g' :
  loop_outcome accept fuel g = Ok reds g' ->
  length reds = 6%nat /\ reds_ok reds.
Proof.
  unfold loop_outcome. destruct (first_accepted accept fuel g) as [k|]; [|discriminate].
  intros H. injection H as <- _. apply sample_here_ok.
Qed.

Lemma sum_optimized_one_valid fuel g rec g' :
  sum_optimized_one fuel g = Ok rec g' -> valid_recommendation rec.
Proof.
  rewrite sum_optimized_one_eq.
  destruct (loop_outcome sum_accepted fuel g) as [reds g1| |] eqn:L; try discriminate.
  intros H. injection H as <- _. apply loop_outcome_ok in L. destruct L as [Hlen [Hs Hr]].
  assert (1 <= 1 + tape g1 (cursor g1) mod 16 <= 16) as Hb
      by (pose proof (Z.mod_pos_bound (tape g1 (cursor g1)) 16); lia).
  unfold valid_recommendation.
  split; [exact Hlen|]. split; [exact Hs|]. split; [exact Hr | exact Hb].
Qed.

Lemma no_consecutive_one_valid fuel g rec g' :
  no_consecutive_one fuel g = Ok rec g' -> valid_recommendation rec.
Proof.
  rewrite no_consecutive_one_eq.
  destruct (loop_outcome spread_accepted fuel g) as [reds g1| |] eqn:L; try discriminate.
  intros H. injection H as <- _. apply loop_outcome_ok in L. destruct L as [Hlen [Hs Hr]].
  assert (1 <= 1 + tape g1 (cursor g1) mod 16 <= 16) as Hb
      by (pose proof (Z.mod_pos_bound (tape g1 (cursor g1)) 16); lia).
  unfold valid_recommendation.
  split; [exact Hlen|]. split; [exact Hs|]. split; [exact Hr | exact Hb].
Qed.

Lemma sum_optimized_one_no_raise fuel g e : sum_optimized_one fuel g <> Raise e.
Proof.
  rewrite sum_optimized_one_eq.
  destruct (loop_outcome sum_accepted fuel g) as [reds g1| |] eqn:L; try discriminate.
  now apply loop_outcome_no_raise in L.
Qed.

Lemma no_consecutive_one_no_raise fuel g e : no_consecutive_one fuel g <> Raise e.
Proof.
  rewrite no_consecutive_one_eq.
  destruct (loop_outcome spread_accepted fuel g) as [reds g1| |] eqn:L; try discriminate.
  now apply loop_outcome_no_raise in L.
Qed.


(** ** Counting occurrences into a table *)

Lemma incr_keys d k :
  map fst (Py.incr d k) =
  if Py.contains k (map fst d) then map fst d else map fst d ++ [k].
Proof.
  induction d as [|[k' v] d IH]; [reflexivity|].
  cbn [Py.incr map fst Py.contains existsb]. rewrite (Z.eqb_sym k k').
  destruct (k' =? k) eqn:E; [reflexivity|].
  cbn [map fst orb]. rewrite IH. unfold Py.contains.
  now destruct (existsb (Z.eqb k) (map fst d)).
Qed.

Lemma get_incr d k k' default :
  Py.get (Py.incr d k) k' default =
  if k =? k'
  then (if Py.contains k (map fst d) then Py.get d k default + 1 else 1)
  else Py.get d k' default.
Proof.
  induction d as [|[k0 v] d IH].
  - cbn [Py.incr Py.get map Py.contains existsb]. now destruct (k =? k').
  - cbn [Py.incr Py.get map fst Py.contains existsb]. rewrite (Z.eqb_sym k k0).
    destruct (k0 =? k) eqn:E0.
    + apply Z.eqb_eq in E0. subst k0. cbn [Py.get orb].
      destruct (k =? k'); reflexivity.
    + cbn [Py.get orb]. rewrite IH. fold (Py.contains k (map fst d)).
      destruct (k =? k') eqn:E; [|reflexivity].
      apply Z.eqb_eq in E. subst k'. now rewrite E0.
Qed.

Lemma incr_table hi d k : 1 <= k <= hi -> table hi d -> table hi (Py.incr d k).
Proof.
  intros Hk [Hnd Hall]. split.
  - rewrite incr_keys. destruct (Py.contains k (map fst d)) eqn:C; [exact Hnd|].
    apply NoDup_app; [exact Hnd | repeat constructor; tauto |].
    intros x Hx [<- | []]. apply contains_In in Hx. congruence.
  - clear Hnd. induction Hall as [|[k' v] d Hkv Hall IH]; simpl.
    + repeat constructor; simpl; lia.
    + destruct (k' =? k); constructor; auto. simpl in *. lia.
Qed.

Lemma count_into_table hi balls : forall freq,
  table hi freq -> table hi (SSQCore.count_into hi freq balls).
Proof.
  unfold SSQCore.count_into. induction balls as [|num balls IH]; intros freq H; [exact H|].
  cbn [fold_left]. apply IH.
  destruct ((1 <=? num) && (num <=? hi)) eqn:E; [|exact H].
  apply andb_prop in E. rewrite !Z.leb_le in E. now apply incr_table.
Qed.

Lemma contains_get_pos hi d k :
  table hi d -> Py.contains k (map fst d) = false -> Py.get d k 0 = 0.
Proof.
  intros _ H. induction d as [|[k' v] d IH]; [reflexivity|].
  cbn [map fst Py.contains existsb] in H. apply orb_false_elim in H. destruct H as [H1 H2].
  cbn [Py.get]. rewrite (Z.eqb_sym k' k), H1. now apply IH.
Qed.

(** The count recorded for a number is the number of its occurrences, if it
    lies in [1, hi]; a number outside is not recorded. *)
Lemma count_into_get hi balls k : forall freq,
  table hi freq ->
  Py.get (SSQCore.count_into hi freq balls) k 0 =
  Py.get freq k 0 +
  (if (1 <=? k) && (k <=? hi) then Z.of_nat (count_occ Z.eq_dec balls k) else 0).
Proof.
  unfold SSQCore.count_into. induction balls as [|num balls IH]; intros freq Ht.
  - cbn [fold_left count_occ]. destruct (_ && _); simpl; lia.
  - cbn [fold_left count_occ].
    destruct ((1 <=? num) && (num <=? hi)) eqn:E.
    + rewrite IH by (apply andb_prop in E; rewrite !Z.leb_le in E; now apply incr_table).
      rewrite get_incr. destruct (Z.eq_dec num k) as [->|Hne].
      * rewrite Z.eqb_refl, E.
        destruct (Py.contains k (map fst freq)) eqn:C.
        -- lia.
        -- rewrite (contains_get_pos hi freq k Ht C). lia.
      * apply Z.eqb_neq in Hne. rewrite Hne. reflexivity.
    + rewrite IH by exact Ht. destruct (Z.eq_dec num k) as [->|Hne]; [|reflexivity].
      rewrite E. reflexivity.
Qed.

Lemma filter_filter_keys (keys : list Z) x l :
  In x keys ->
  filter (fun y => negb (Py.contains y keys)) (filter (fun y => negb (y =? x)) l) =
  filter (fun y => negb (Py.contains y keys)) l.
Proof.
  intros Hx. induction l as [|y l IH]; [reflexivity|]. cbn [filter].
  destruct (y =? x) eqn:E; cbn [negb filter].
  - apply Z.eqb_eq in E. subst y.
    replace (Py.contains x keys) with true by (symmetry; now apply contains_In).
    exact IH.
  - destruct (negb (Py.contains y keys)); [f_equal|]; exact IH.
Qed.

Lemma filter_new_key (keys : list Z) x l :
  filter (fun y => negb (Py.contains y (keys ++ [x]))) l =
  filter (fun y => negb (Py.contains y keys)) (filter (fun y => negb (y =? x)) l).
Proof.
  induction l as [|y l IH]; [reflexivity|]. cbn [filter].
  unfold Py.contains at 1. rewrite existsb_app. cbn [existsb]. rewrite orb_false_r.
  fold (Py.contains y keys).
  destruct (y =? x) eqn:E; cbn [negb filter].
  - rewrite orb_true_r. exact IH.
  - rewrite orb_false_r. destruct (negb (Py.contains y keys)); [f_equal|]; exact IH.
Qed.

(** The keys of the table keep their places; new numbers are added behind
    them in the order of their first appearance. *)
Lemma count_into_keys hi balls : forall freq,
  map fst (SSQCore.count_into hi freq balls) =
  map fst freq ++
  filter (fun y => negb (Py.contains y (map fst freq))) (first_seen (within hi balls)).
Proof.
  unfold SSQCore.count_into, within. induction balls as [|num balls IH]; intros freq.
  - cbn. now rewrite app_nil_r.
  - cbn [fold_left filter].
    destruct ((1 <=? num) && (num <=? hi)) eqn:E; [|apply IH].
    rewrite IH, incr_keys. cbn [first_seen filter].
    destruct (Py.contains num (map fst freq)) eqn:C; cbn [negb].
    + f_equal. symmetry. apply filter_filter_keys. now apply contains_In.
    + rewrite <- app_assoc. cbn [app]. do 2 f_equal. apply filter_new_key.
Qed.


(** ** The strategies that rank the table *)

Lemma firstn_NoDup {A} (l : list A) n : NoDup l -> NoDup (firstn n l).
Proof.
  intros H. rewrite <- (firstn_skipn n l) in H. now apply NoDup_app_remove_r in H.
Qed.

Lemma ranked_keys_NoDup (d l : list (Z * Z)) n :
  Permutation l d -> NoDup (map fst d) -> NoDup (map fst (firstn n l)).
Proof.
  intros HP Hnd. rewrite <- firstn_map. apply firstn_NoDup.
  eapply Permutation_NoDup; [|exact Hnd]. symmetry. now apply Permutation_map.
Qed.

Lemma ranked_keys_In (d l : list (Z * Z)) n k :
  Permutation l d -> In k (map fst (firstn n l)) -> In k (map fst d).
Proof.
  intros HP Hk. rewrite <- firstn_map in Hk. apply firstn_In in Hk.
  eapply Permutation_in; [|exact Hk]. now apply Permutation_map.
Qed.

Lemma table_key_range hi d k : table hi d -> In k (map fst d) -> 1 <= k <= hi.
Proof.
  intros [_ Hall] Hk. apply in_map_iff in Hk. destruct Hk as (kv & <- & Hkv).
  rewrite Forall_forall in Hall. now apply Hall in Hkv.
Qed.

Lemma top_reds_ok red_freq :
  table 33 red_freq -> (6 <= length red_freq)%nat ->
  length (top_reds red_freq) = 6%nat /\ reds_ok (top_reds red_freq).
Proof.
  intros Ht Hlen. unfold top_reds, Py.slice_to. split; [|split].
  - rewrite sorted_length, length_map, length_firstn.
    rewrite (Permutation_length (sorted_desc_perm red_freq)). lia.
  - apply sorted_lt.
    exact (ranked_keys_NoDup red_freq (Py.sorted_desc red_freq) 6 (sorted_desc_perm _) (proj1 Ht)).
  - apply sorted_Forall, Forall_forall. intros k Hk.
    apply (table_key_range 33 red_freq); [exact Ht|].
    exact (ranked_keys_In red_freq (Py.sorted_desc red_freq) 6 k (sorted_desc_perm _) Hk).
Qed.

Lemma first_key_Ok (d l : list (Z * Z)) g :
  Permutation l d -> d <> [] ->
  exists k, first_key l g = Ok k g /\ In k (map fst d).
Proof.
  intros HP Hne. destruct l as [|[k v] l].
  - apply Permutation_nil in HP. congruence.
  - exists k. split; [reflexivity|]. apply in_map_iff. exists (k, v).
    split; [reflexivity|]. eapply Permutation_in; [exact HP | now left].
Qed.

Lemma pure_frequency_valid red_freq blue_freq count g :
  table 33 red_freq -> (6 <= length red_freq)%nat ->
  table 16 blue_freq -> blue_freq <> [] ->
  exists recs,
    _pure_frequency red_freq blue_freq count g = Ok recs g /\
    length recs = Z.to_nat count /\ Forall valid_recommendation recs.
Proof.
  intros Hr Hlen Hb Hne.
  destruct (first_key_Ok blue_freq (Py.sorted_desc blue_freq) g (sorted_desc_perm _) Hne)
    as (kb & E & Hkb).
  destruct (top_reds_ok red_freq Hr Hlen) as [H6 [Hs Hrange]].
  exists (repeat {| red := top_reds red_freq; blue := kb |} (Z.to_nat count)).
  split; [|split].
  - unfold _pure_frequency. rewrite (bind_eq _ _ _ _ _ E). cbv beta.
    unfold for_range. now rewrite append_each_ret.
  - apply repeat_length.
  - apply Forall_forall. intros rec Hrec. apply repeat_spec in Hrec. subst rec.
    unfold valid_recommendation.
    split; [exact H6|]. split; [exact Hs|]. split; [exact Hrange|].
    exact (table_key_range 16 blue_freq kb Hb Hkb).
Qed.

Lemma disjoint_spec l1 l2 x : disjoint l1 l2 = true -> In x l1 -> ~ In x l2.
Proof.
  unfold disjoint. rewrite forallb_forall. intros H Hx Hx2.
  apply H in Hx. apply contains_In in Hx2. rewrite Hx2 in Hx. discriminate.
Qed.

Lemma pool_length (d l : list (Z * Z)) :
  Permutation l d -> (3 <= length d)%nat ->
  (3 <= length (map fst (Py.slice_to 10 l)))%nat.
Proof.
  intros HP H. unfold Py.slice_to. rewrite length_map, length_firstn.
  rewrite (Permutation_length HP). lia.
Qed.

(** One round of hot and cold on a table of at least three numbers and a
    non-empty blue table: it returns three different numbers of the hot
    pool and three different numbers of the cold pool, sorted together, and
    as blue the first of the hottest or the first of the coldest blues. *)
Lemma hot_cold_one_Ok red_freq blue_freq g :
  NoDup (map fst red_freq) -> (3 <= length red_freq)%nat -> blue_freq <> [] ->
  exists rec g',
    hot_cold_one red_freq blue_freq g = Ok rec g' /\
    hot_cold_shape red_freq blue_freq rec.
Proof.
  intros Hnd Hlen Hne.
  destruct (sample_Ok (hot_pool red_freq) 3 g) as (hs & E1 & L1 & N1 & I1).
  { exact (pool_length red_freq (Py.sorted_desc red_freq) (sorted_desc_perm _) Hlen). }
  { exact (ranked_keys_NoDup red_freq (Py.sorted_desc red_freq) 10 (sorted_desc_perm _) Hnd). }
  destruct (sample_Ok (cold_pool red_freq) 3 (advance 3 g)) as (cs & E2 & L2 & N2 & I2).
  { exact (pool_length red_freq (Py.sorted_asc red_freq) (sorted_asc_perm _) Hlen). }
  { exact (ranked_keys_NoDup red_freq (Py.sorted_asc red_freq) 10 (sorted_asc_perm _) Hnd). }
  pose proof (sorted_desc_perm blue_freq) as HPd.
  pose proof (sorted_asc_perm blue_freq) as HPa.
  destruct (Py.sorted_desc blue_freq) as [|[kh vh] resth] eqn:Ed.
  { apply Permutation_nil in HPd. congruence. }
  destruct (Py.sorted_asc blue_freq) as [|[kc vc] restc] eqn:Ea.
  { apply Permutation_nil in HPa. congruence. }
  set (g2 := advance 3 (advance 3 g)) in *.
  destruct (choice_pair kh kc g2) as (b & Eb & Hb).
  exists {| red := Py.sorted (hs ++ cs); blue := b |}, (advance 1 g2).
  split.
  { unfold hot_cold_one. fold (hot_pool red_freq) (cold_pool red_freq).
    rewrite (bind_eq _ _ _ _ _ E1). cbv beta.
    rewrite (bind_eq _ _ _ _ _ E2). cbv beta. fold g2.
    rewrite Ed, Ea. cbn [first_key]. unfold bind at 1, ret at 1. unfold bind at 1, ret at 1.
    rewrite (bind_eq _ _ _ _ _ Eb). cbv beta. reflexivity. }
  exists hs, cs, (kh, vh), (kc, vc). cbn [red blue fst].
  split; [reflexivity|]. split; [exact L1|]. split; [exact N1|]. split; [exact I1|].
  split; [exact L2|]. split; [exact N2|]. split; [exact I2|].
  split; [unfold hottest_first; now rewrite Ed|].
  split; [unfold coldest_first; now rewrite Ea | exact Hb].
Qed.

Lemma ranked_first_In (d l : list (Z * Z)) kv rest :
  Permutation l d -> l = kv :: rest -> In (fst kv) (map fst d).
Proof.
  intros HP ->. apply in_map. eapply Permutation_in; [exact HP | now left].
Qed.

Lemma hot_cold_shape_valid red_freq blue_freq rec :
  table 33 red_freq -> table 16 blue_freq ->
  disjoint (hot_pool red_freq) (cold_pool red_freq) = true ->
  hot_cold_shape red_freq blue_freq rec -> valid_recommendation rec.
Proof.
  intros Hr Hb Hdis (hs & cs & hb & cb & E & L1 & N1 & I1 & L2 & N2 & I2 & Hh & Hc & Hbl).
  unfold valid_recommendation. rewrite E.
  split; [rewrite sorted_length, length_app; lia|]. split; [|split].
  - apply sorted_lt. apply NoDup_app; [exact N1 | exact N2 |].
    intros x H1 H2. exact (disjoint_spec _ _ x Hdis (I1 x H1) (I2 x H2)).
  - apply sorted_Forall, Forall_forall. intros x Hx.
    apply (table_key_range 33 red_freq); [exact Hr|].
    apply in_app_or in Hx. destruct Hx as [Hx | Hx].
    + exact (ranked_keys_In red_freq (Py.sorted_desc red_freq) 10 x
               (sorted_desc_perm _) (I1 x Hx)).
    + exact (ranked_keys_In red_freq (Py.sorted_asc red_freq) 10 x
               (sorted_asc_perm _) (I2 x Hx)).
  - unfold hottest_first in Hh. unfold coldest_first in Hc.
    destruct (Py.sorted_desc blue_freq) as [|kh resth] eqn:Ed; [discriminate|].
    destruct (Py.sorted_asc blue_freq) as [|kc restc] eqn:Ea; [discriminate|].
    injection Hh as <-. injection Hc as <-.
    apply (table_key_range 16 blue_freq); [exact Hb|].
    destruct Hbl as [-> | ->].
    + apply (ranked_first_In blue_freq (kh :: resth) kh resth); [|reflexivity].
      rewrite <- Ed. apply sorted_desc_perm.
    + apply (ranked_first_In blue_freq (kc :: restc) kc restc); [|reflexivity].
      rewrite <- Ea. apply sorted_asc_perm.
Qed.

(** Hot and cold on tables that are too short. *)
Lemma hot_cold_short_raises red_freq blue_freq count g :
  1 <= count -> (length red_freq < 3)%nat ->
  _hot_cold_balance red_freq blue_freq count g = Raise ValueError.
Proof.
  intros Hc Hlen. unfold _hot_cold_balance, for_range.
  destruct (Z.to_nat count) as [|n] eqn:En; [lia|].
  cbn [append_each]. unfold bind at 1. unfold hot_cold_one. unfold bind at 1.
  rewrite sample_too_many; [reflexivity|].
  unfold Py.slice_to. rewrite length_map, length_firstn.
  rewrite (Permutation_length (sorted_desc_perm red_freq)). lia.
Qed.

Lemma hot_cold_no_blue_raises red_freq count g :
  1 <= count -> NoDup (map fst red_freq) -> (3 <= length red_freq)%nat ->
  _hot_cold_balance red_freq [] count g = Raise IndexError.
Proof.
  intros Hc Hnd Hlen. unfold _hot_cold_balance, for_range.
  destruct (Z.to_nat count) as [|n] eqn:En; [lia|].
  destruct (sample_Ok (hot_pool red_freq) 3 g) as (hs & E1 & _).
  { exact (pool_length red_freq (Py.sorted_desc red_freq) (sorted_desc_perm _) Hlen). }
  { exact (ranked_keys_NoDup red_freq (Py.sorted_desc red_freq) 10
             (sorted_desc_perm _) Hnd). }
  destruct (sample_Ok (cold_pool red_freq) 3 (advance 3 g)) as (cs & E2 & _).
  { exact (pool_length red_freq (Py.sorted_asc red_freq) (sorted_asc_perm _) Hlen). }
  { exact (ranked_keys_NoDup red_freq (Py.sorted_asc red_freq) 10
             (sorted_asc_perm _) Hnd). }
  cbn [append_each]. unfold bind at 1. unfold hot_cold_one.
  fold (hot_pool red_freq) (cold_pool red_freq).
  rewrite (bind_eq _ _ _ _ _ E1). cbv beta.
  rewrite (bind_eq _ _ _ _ _ E2). cbv beta. reflexivity.
Qed.

Lemma pure_frequency_Ok red_freq blue_freq count g :
  blue_freq <> [] ->
  exists recs,
    _pure_frequency red_freq blue_freq count g = Ok recs g /\
    length recs = Z.to_nat count /\
    Forall (fun rec => length (red rec) = Nat.min 6 (length red_freq)) recs.
Proof.
  intros Hne.
  destruct (first_key_Ok blue_freq (Py.sorted_desc blue_freq) g (sorted_desc_perm _) Hne)
    as (kb & E & _).
  exists (repeat {| red := top_reds red_freq; blue := kb |} (Z.to_nat count)).
  split; [|split].
  - unfold _pure_frequency. rewrite (bind_eq _ _ _ _ _ E). cbv beta.
    unfold for_range. now rewrite append_each_ret.
  - apply repeat_length.
  - apply Forall_forall. intros rec Hrec. apply repeat_spec in Hrec. subst rec.
    cbn [red]. unfold top_reds, Py.slice_to.
    rewrite sorted_length, length_map, length_firstn.
    now rewrite (Permutation_length (sorted_desc_perm red_freq)).
Qed.

(** ** The worker and the panels *)

Lemma table_nil hi : table hi [].
Proof. split; constructor. Qed.

Lemma analysed_keys hi balls :
  map fst (SSQCore.count_into hi [] balls) = first_seen (within hi balls).
Proof.
  rewrite count_into_keys. cbn [map app]. apply filter_all. reflexivity.
Qed.

Lemma analysed_length hi balls :
  length (SSQCore.count_into hi [] balls) = length (first_seen (within hi balls)).
Proof. rewrite <- analysed_keys. symmetry. apply length_map. Qed.

Lemma worker_recommendations_eq fuel algorithm data g :
  SSQGUI.worker_recommendations fuel algorithm data g =
  generate fuel algorithm
    (SSQCore.count_into 33 [] (fst (SSQCore.parse_numbers data)))
    (SSQCore.count_into 16 [] (snd (SSQCore.parse_numbers data))) 5 g.
Proof.
  unfold SSQGUI.worker_recommendations.
  destruct (SSQCore.parse_numbers data) as [red_balls blue_balls].
  unfold SSQCore.analyze_frequency. cbn [fst snd]. reflexivity.
Qed.

Lemma frequency_weighted_table_no_raise fuel red_freq blue_freq count g e :
  table 33 red_freq -> table 16 blue_freq ->
  _frequency_weighted fuel red_freq blue_freq count g <> Raise e.
Proof.
  intros [_ Hr] [_ Hb].
  assert (Forall (fun kv : Z * Z => 0 <= snd kv) red_freq) as Hr0
      by (eapply Forall_impl; [|exact Hr]; cbv beta; intros kv H; lia).
  assert (Forall (fun kv : Z * Z => 1 <= snd kv) blue_freq) as Hb1
      by (eapply Forall_impl; [|exact Hb]; cbv beta; intros kv H; lia).
  apply append_each_no_raise. intros g0 e0. now apply frequency_weighted_one_no_raise.
Qed.

Lemma pairs_from_shift a ranked steps : forall i,
  SSQGUI.pairs_from (a :: ranked) (S i) steps = SSQGUI.pairs_from ranked i steps.
Proof.
  induction steps as [|n IH]; intros i; [reflexivity|].
  cbn [SSQGUI.pairs_from].
  change (S i + 1)%nat with (S (i + 1)). change (S i + 2)%nat with (S (i + 2)).
  cbn [nth_error]. rewrite IH. reflexivity.
Qed.

Lemma pairs_from_spec steps : forall ranked,
  ((2 * steps <= length ranked)%nat ->
   exists lines,
     SSQGUI.pairs_from ranked 0 steps = Some lines /\
     length lines = steps /\ entries_of lines = firstn (2 * steps) ranked) /\
  ((length ranked < 2 * steps)%nat -> SSQGUI.pairs_from ranked 0 steps = None).
Proof.
  induction steps as [|n IH]; intros ranked.
  - split; [intros _; exists []; repeat split | simpl; lia].
  - destruct ranked as [|a [|b ranked]].
    + split; [intros H; simpl in H; lia | intros _; reflexivity].
    + split; [intros H; simpl in H; lia | intros _; reflexivity].
    + cbn [SSQGUI.pairs_from nth_error Nat.add]. rewrite !pairs_from_shift.
      replace (2 * S n)%nat with (S (S (2 * n))) by lia. cbn [length firstn].
      destruct (IH ranked) as [H1 H2]. split; intros H.
      * destruct H1 as (lines & E & L & F); [lia|]. rewrite E.
        exists ((a, b) :: lines). split; [reflexivity|]. split; [simpl; lia|].
        unfold entries_of in *. cbn [flat_map fst snd app]. now rewrite F.
      * rewrite H2 by lia. reflexivity.
Qed.

Lemma panel_lines_spec ranking :
  ((14 <= length ranking)%nat ->
   exists lines,
     SSQGUI.panel_lines ranking = Some lines /\
     length lines = 7%nat /\ entries_of lines = firstn 14 ranking) /\
  ((length ranking < 14)%nat -> SSQGUI.panel_lines ranking = None).
Proof.
  unfold SSQGUI.panel_lines, Py.slice_to.
  destruct (pairs_from_spec 7 (firstn 14 ranking)) as [H1 H2].
  rewrite length_firstn in H1, H2. change (2 * 7)%nat with 14%nat in *.
  split; intros H.
  - destruct H1 as (lines & E & L & F); [lia|]. exists lines.
    rewrite firstn_firstn in F. change (Nat.min 14 14) with 14%nat in F.
    split; [exact E|]. split; [exact L | exact F].
  - apply H2. lia.
Qed.

(** What the latest-draw display reads from a record, against what the
    parser adds for it. *)
Lemma red_list_added it :
  red_added it =
  match SSQGUI.red_list it with
  | Some nums => if (length nums =? 6)%nat then nums else []
  | None => []
  end.
Proof. destruct it as [[[|c s]|] b]; reflexivity. Qed.

Lemma blue_list_added it :
  blue_added it = match SSQGUI.blue_list it with Some nums => nums | None => [] end.
Proof.
  destruct it as [r [[|c s]|]]; try reflexivity.
  unfold blue_added, SSQGUI.blue_list. cbn [SSQCore.blue Str.truthy].
  now destruct (Str.int (String c s)).
Qed.


(** ** The text of the recommendations, read back by the chart *)

Section ChartText.
Import Str SSQGUI.

Lemma sapp_assoc (a b c : string) : ((a ++ b) ++ c = a ++ (b ++ c))%string.
Proof. induction a as [|x a IH]; simpl; [reflexivity | now rewrite IH]. Qed.

Lemma lacks_app c a b : lacks c (a ++ b) = lacks c a && lacks c b.
Proof.
  induction a as [|x a IH]; simpl; [reflexivity|]. rewrite IH. now rewrite andb_assoc.
Qed.

Lemma split_lacks sep a : lacks sep a = true -> split sep a = [a].
Proof.
  induction a as [|x a IH]; simpl; [reflexivity|]. intros H.
  apply andb_prop in H. destruct H as [H1 H2]. apply negb_true_iff in H1.
  rewrite H1, (IH H2). reflexivity.
Qed.

Lemma split_app sep a b :
  lacks sep a = true -> split sep (a ++ String sep b) = a :: split sep b.
Proof.
  induction a as [|x a IH]; simpl; intros H.
  - now rewrite Ascii.eqb_refl.
  - apply andb_prop in H. destruct H as [H1 H2]. apply negb_true_iff in H1.
    rewrite H1, (IH H2). reflexivity.
Qed.

Lemma eqb_digit c k : digit_of c = None -> digit_of k <> None -> Ascii.eqb k c = false.
Proof.
  intros Hc Hk. destruct (Ascii.eqb_spec k c) as [->|]; [contradiction | reflexivity].
Qed.

Lemma lacks_uint c d : digit_of c = None -> lacks c (NilEmpty.string_of_uint d) = true.
Proof.
  intros Hc. induction d; cbn [NilEmpty.string_of_uint lacks]; [reflexivity|..];
    rewrite (eqb_digit c _ Hc) by (vm_compute; discriminate); exact IHd.
Qed.

Lemma lacks_format_d c n : plain c -> lacks c (format_d n) = true.
Proof.
  intros (Hc & Hm & _).
  assert (Ascii.eqb "-" c = false) as Hm'
      by (destruct (Ascii.eqb_spec "-"%char c); [congruence | reflexivity]).
  assert (Ascii.eqb "0" c = false) as H0
      by (apply (eqb_digit c _ Hc); vm_compute; discriminate).
  unfold format_d, NilZero.string_of_int, NilZero.string_of_uint.
  destruct (Z.to_int n) as [d|d]; cbn [lacks]; rewrite ?Hm'; cbn [negb andb];
    (destruct d; [cbn [lacks]; now rewrite H0 | apply (lacks_uint c _ Hc) ..]).
Qed.

Lemma lacks_format_02d c n : plain c -> lacks c (format_02d n) = true.
Proof.
  intros Hc. unfold format_02d. destruct (String.length (format_d n) <? 2)%nat.
  - cbn [lacks]. rewrite (lacks_format_d c n Hc).
    rewrite (eqb_digit c "0" (proj1 Hc)) by (vm_compute; discriminate). reflexivity.
  - apply lacks_format_d, Hc.
Qed.

Lemma lacks_join c nums : plain c -> lacks c (join " " (map format_02d nums)) = true.
Proof.
  intros Hc.
  assert (Ascii.eqb " " c = false) as Hs
      by (destruct (Ascii.eqb_spec " "%char c); [destruct Hc as (_ & _ & H); congruence
                                                | reflexivity]).
  induction nums as [|n nums IH]; [reflexivity|].
  cbn [map join]. destruct (map format_02d nums) as [|piece pieces] eqn:E.
  - apply lacks_format_02d, Hc.
  - rewrite !lacks_app, (lacks_format_02d c n Hc), IH. cbn [lacks]. now rewrite Hs.
Qed.

Lemma plain_bracket : plain "[".
Proof. split; [reflexivity|]. split; discriminate. Qed.

Lemma plain_newline : plain newline.
Proof. split; [reflexivity|]. split; discriminate. Qed.

Lemma prefix_app pattern s : String.prefix pattern (pattern ++ s) = true.
Proof.
  induction pattern as [|a pattern IH]; simpl; [now destruct s|].
  destruct (ascii_dec a a); [exact IH | congruence].
Qed.

Lemma contains_here pattern s : contains pattern (pattern ++ s) = true.
Proof.
  destruct (pattern ++ s)%string eqn:E; cbn [contains]; rewrite <- E, prefix_app; reflexivity.
Qed.

Lemma contains_app pattern a b :
  contains pattern b = true -> contains pattern (a ++ b) = true.
Proof.
  intros H. induction a as [|x a IH]; [exact H|].
  cbn [append contains]. rewrite IH. apply orb_true_r.
Qed.

Lemma list_ascii_app a b :
  list_ascii_of_string (a ++ b) = list_ascii_of_string a ++ list_ascii_of_string b.
Proof. induction a as [|x a IH]; simpl; [reflexivity | now rewrite IH]. Qed.

Lemma remove_char_app c a b :
  remove_char c (a ++ b) = (remove_char c a ++ remove_char c b)%string.
Proof.
  induction a as [|x a IH]; simpl; [reflexivity|].
  destruct (Ascii.eqb x c); [exact IH | simpl; now rewrite IH].
Qed.

Lemma lstrip_tail X c w :
  is_space c = false ->
  exists Z, lstrip (X ++ " " :: " " :: c :: w)%char = Z ++ c :: w /\
            (Z = [] \/ exists Z', Z = Z' ++ [" "%char]).
Proof.
  intros Hc. induction X as [|a X IH].
  - exists []. split; [|now left]. simpl. now rewrite Hc.
  - cbn [app lstrip]. destruct (is_space a) eqn:E; [exact IH|].
    exists ((a :: X ++ [" "%char]) ++ [" "%char]). split; [|right; now eexists].
    cbn [app]. f_equal. rewrite <- !app_assoc. reflexivity.
Qed.

Lemma lstrip_keep c w : is_space c = false -> lstrip (c :: w) = c :: w.
Proof. intros H. simpl. now rewrite H. Qed.

(** Stripping a text that ends with two spaces, a word and a space leaves
    the word at the end, after nothing or after a space. *)
Lemma strip_tail X first middle last :
  is_space first = false -> is_space last = false ->
  exists Z,
    strip (X ++ " " :: " " :: (first :: middle ++ [last]) ++ [" "])%char =
      Z ++ first :: middle ++ [last] /\
    (Z = [] \/ exists Z', Z = Z' ++ [" "%char]).
Proof.
  intros Hf Hl.
  destruct (lstrip_tail X first ((middle ++ [last]) ++ [" "%char]) Hf) as (Z & E & HZ).
  exists Z. split; [|exact HZ]. unfold strip. cbn [app] in *. rewrite E.
  replace (rev (Z ++ first :: (middle ++ [last]) ++ [" "%char]))
    with (" "%char :: last :: rev middle ++ first :: rev Z).
  - cbn [lstrip]. change (is_space " ") with true. cbv iota. rewrite Hl.
    cbn [rev]. rewrite rev_app_distr. cbn [rev app]. rewrite !rev_involutive.
    rewrite <- !app_assoc. reflexivity.
  - rewrite rev_app_distr. cbn [rev]. rewrite !rev_app_distr. cbn [rev app].
    rewrite <- !app_assoc. reflexivity.
Qed.

Lemma words_nonspace w :
  Forall (fun c => is_space c = false) w ->
  forall word, words_from w word = words_from [] (rev w ++ word).
Proof.
  induction 1 as [|c w Hc _ IH]; intros word; [reflexivity|].
  cbn [words_from rev]. rewrite Hc, IH, <- app_assoc. reflexivity.
Qed.

Lemma words_app_space l : forall word,
  exists found, forall rest,
    words_from (l ++ " "%char :: rest) word = found ++ words_from rest [].
Proof.
  induction l as [|a l IH]; intros word.
  - destruct word as [|c word].
    + exists []. intros rest. reflexivity.
    + exists [string_of_list_ascii (rev (c :: word))]. intros rest. reflexivity.
  - cbn [app words_from]. destruct (is_space a).
    + destruct (IH []) as (found & H). destruct word as [|c word].
      * exists found. exact H.
      * exists (string_of_list_ascii (rev (c :: word)) :: found).
        intros rest. now rewrite H.
    + apply IH.
Qed.

Lemma ints_of_last pieces piece :
  Str.int piece = None -> SSQCore.ints_of (pieces ++ [piece]) = None.
Proof.
  intros H. induction pieces as [|x pieces IH]; simpl.
  - now rewrite H.
  - rewrite IH. now destruct (Str.int x).
Qed.

(** The text between the brackets of the reds, as the chart reads it: its
    last word is the label of the blue ball. *)
Lemma words_of_red_part (red_str : string) :
  exists found,
    words (strip_s (remove_char "]" (red_str ++ "]  蓝球 "))) = found ++ ["蓝球"%string].
Proof.
  unfold words, strip_s. rewrite list_ascii_of_string_of_list_ascii.
  rewrite remove_char_app, list_ascii_app.
  set (X := list_ascii_of_string (remove_char "]" red_str)).
  destruct (list_ascii_of_string "蓝球") as [|first rest] eqn:EL; [discriminate|].
  assert (exists middle last, rest = middle ++ [last] /\ is_space first = false /\
            is_space last = false /\
            Forall (fun c => is_space c = false) (first :: middle ++ [last])) as H.
  { vm_compute in EL. injection EL as <- <-.
    eexists [_; _; _; _], _. split; [reflexivity|].
    split; [reflexivity|]. split; [reflexivity|]. repeat constructor. }
  destruct H as (middle & last & -> & Hf & Hl & Hall).
  change (list_ascii_of_string (remove_char "]" "]  蓝球 "))
    with (" "%char :: " "%char :: list_ascii_of_string "蓝球" ++ [" "%char]).
  rewrite EL.
  destruct (strip_tail X first middle last Hf Hl) as (Z & E & HZ).
  rewrite E.
  assert (words_from (first :: middle ++ [last]) [] = ["蓝球"%string]) as Hw.
  { rewrite (words_nonspace _ Hall). rewrite app_nil_r.
    rewrite <- EL. reflexivity. }
  destruct HZ as [-> | (Z' & ->)].
  - exists []. exact Hw.
  - destruct (words_app_space Z' []) as (found & H).
    exists found. rewrite <- app_assoc. cbn [app]. rewrite H. now rewrite Hw.
Qed.

Lemma split_result_line i rec :
  split "[" (result_line i rec) =
  [("第" ++ format_d i ++ "组: 红球 ")%string;
   (join " " (map format_02d (red rec)) ++ "]  蓝球 ")%string;
   (format_02d (blue rec) ++ "]")%string].
Proof.
  unfold result_line. cbv zeta.
  set (R := join " " (map format_02d (red rec))).
  set (B := format_02d (blue rec)).
  replace ("第" ++ format_d i ++ "组: 红球 [" ++ R ++ "]  蓝球 [" ++ B ++ "]")%string
    with (("第" ++ format_d i ++ "组: 红球 ") ++
          String "[" ((R ++ "]  蓝球 ") ++ String "[" (B ++ "]")))%string.
  - rewrite split_app.
    + rewrite split_app.
      * rewrite split_lacks; [reflexivity|].
        rewrite lacks_app. unfold B. now rewrite (lacks_format_02d _ _ plain_bracket).
      * rewrite lacks_app. unfold R. now rewrite (lacks_join _ _ plain_bracket).
    + change ("第" ++ format_d i ++ "组: 红球 ")%string
        with ("第" ++ (format_d i ++ "组: 红球 "))%string.
      rewrite !lacks_app, (lacks_format_d _ _ plain_bracket). reflexivity.
  - rewrite !sapp_assoc. reflexivity.
Qed.

Lemma chart_line_of_result_line i rec : chart_line (result_line i rec) = None.
Proof.
  unfold chart_line. rewrite split_result_line.
  assert (contains "第" (result_line i rec) = true) as H1.
  { unfold result_line. cbv zeta. apply contains_here. }
  assert (contains "组:" (result_line i rec) = true) as H2.
  { unfold result_line. cbv zeta. apply (contains_app _ "第"), contains_app.
    apply (contains_here "组:"). }
  rewrite H1, H2. cbn [andb length Nat.leb nth].
  destruct (words_of_red_part (join " " (map format_02d (red rec)))) as (found & E).
  rewrite E, ints_of_last; [reflexivity|]. vm_compute. reflexivity.
Qed.

Lemma chart_lines_of_result_line lines : forall i rec recommendations,
  In (result_line i rec) lines -> chart_lines lines recommendations = None.
Proof.
  induction lines as [|line lines IH]; intros i rec recommendations H; [contradiction|].
  cbn [chart_lines]. destruct H as [-> | H].
  - now rewrite chart_line_of_result_line.
  - destruct (chart_line line) as [[r|]|]; [eapply IH, H | eapply IH, H | reflexivity].
Qed.

Lemma join_cons sep x pieces :
  pieces <> [] -> join sep (x :: pieces) = (x ++ sep ++ join sep pieces)%string.
Proof. destruct pieces; [congruence | reflexivity]. Qed.

Lemma join_snoc sep pieces : forall last,
  pieces <> [] -> join sep (pieces ++ [last]) = (join sep pieces ++ sep ++ last)%string.
Proof.
  induction pieces as [|x pieces IH]; intros last H; [congruence|].
  destruct pieces as [|y pieces]; [reflexivity|].
  cbn [app]. rewrite (join_cons sep x (y :: pieces)) by discriminate.
  rewrite (join_cons sep x (y :: pieces ++ [last])) by discriminate.
  change (y :: pieces ++ [last]) with ((y :: pieces) ++ [last]).
  rewrite IH by discriminate. now rewrite !sapp_assoc.
Qed.

Lemma split_nonempty sep s : split sep s <> [].
Proof.
  destruct s as [|c s]; simpl; [discriminate|].
  destruct (Ascii.eqb c sep); [discriminate|]. now destruct (split sep s).
Qed.

Lemma split_app_sep sep a b :
  split sep (a ++ String sep b) = split sep a ++ split sep b.
Proof.
  induction a as [|x a IH]; simpl.
  - now rewrite Ascii.eqb_refl.
  - destruct (Ascii.eqb x sep); [now rewrite IH|].
    rewrite IH. pose proof (split_nonempty sep a) as H.
    destruct (split sep a) as [|piece pieces]; [congruence | reflexivity].
Qed.

Lemma split_join sep pieces :
  pieces <> [] ->
  split sep (join (String sep EmptyString) pieces) = concat (map (split sep) pieces).
Proof.
  induction pieces as [|x pieces IH]; intros H; [congruence|].
  destruct pieces as [|y pieces].
  - simpl. now rewrite app_nil_r.
  - rewrite join_cons by discriminate. cbn [append map concat].
    rewrite split_app_sep, IH by discriminate. reflexivity.
Qed.

Lemma In_split_join sep piece pieces :
  In piece pieces -> lacks sep piece = true ->
  In piece (split sep (join (String sep EmptyString) pieces)).
Proof.
  intros Hin Hl. rewrite split_join by (intros ->; contradiction).
  apply in_concat. exists (split sep piece). split.
  - apply in_map, Hin.
  - rewrite split_lacks by exact Hl. now left.
Qed.

Lemma lstrip_spaces ws c m :
  Forall (fun x => is_space x = true) ws -> is_space c = false ->
  lstrip (ws ++ c :: m) = c :: m.
Proof.
  intros H Hc. induction H as [|x ws Hx _ IH]; cbn [app lstrip].
  - now rewrite Hc.
  - now rewrite Hx.
Qed.

Lemma strip_core first middle last ws :
  is_space first = false -> is_space last = false ->
  Forall (fun x => is_space x = true) ws ->
  strip ((first :: middle ++ [last]) ++ ws) = first :: middle ++ [last].
Proof.
  intros Hf Hl Hws. unfold strip. cbn [app]. rewrite (lstrip_keep _ _ Hf).
  replace (rev (first :: (middle ++ [last]) ++ ws))
    with (rev ws ++ last :: rev middle ++ [first]).
  - rewrite lstrip_spaces; [|now apply Forall_rev | exact Hl].
    cbn [rev]. rewrite rev_app_distr. cbn [rev app]. now rewrite rev_involutive.
  - cbn [rev]. rewrite !rev_app_distr. cbn [rev app]. now rewrite <- !app_assoc.
Qed.

Lemma lacks_result_line i rec : lacks newline (result_line i rec) = true.
Proof.
  unfold result_line. cbv zeta.
  rewrite !lacks_app, (lacks_format_d _ _ plain_newline),
    (lacks_format_02d _ _ plain_newline), (lacks_join _ _ plain_newline).
  reflexivity.
Qed.

Lemma result_line_first rec :
  exists rest, result_line 1 rec = ("第1组" ++ rest)%string.
Proof. eexists. unfold result_line. cbv zeta. reflexivity. Qed.

(** The lines of the text the worker writes. *)
Lemma result_text_lines algorithm red_balls blue_balls rec recs :
  exists head tail,
    result_text algorithm red_balls blue_balls (rec :: recs) =
      join (String newline EmptyString)
        (head :: (tail ++ ["💡 提示：多次运行获取不同组合"%string])) /\
    tail <> [] /\
    (exists above below, tail = above ++ result_line 1 rec :: below) /\
    exists first rest, head = String first rest /\ is_space first = false.
Proof.
  unfold result_text. cbv zeta. cbn [app numbered_lines].
  eexists _, (_ :: _ :: result_line 1 rec :: numbered_lines (1 + 1) recs ++ [_]).
  split; [|split; [|split]].
  - cbn [app]. rewrite <- app_assoc. reflexivity.
  - discriminate.
  - eexists [_; _], _. reflexivity.
  - eexists _, _. split; reflexivity.
Qed.

Lemma contains_join pattern sep rest : forall above below,
  contains pattern (join sep (above ++ (pattern ++ rest)%string :: below)) = true.
Proof.
  assert (forall below, contains pattern (join sep ((pattern ++ rest)%string :: below)) = true)
    as Hhere.
  { intros [|x below]; cbn [join]; [apply contains_here|].
    rewrite sapp_assoc. apply contains_here. }
  induction above as [|b above IH]; intros below; [apply Hhere|].
  cbn [app]. rewrite join_cons by (destruct above; discriminate).
  apply contains_app, contains_app, IH.
Qed.

Lemma chart_of_result_text algorithm red_balls blue_balls rec recs :
  show_recommendation_chart
    (result_text algorithm red_balls blue_balls (rec :: recs) ++ String newline EmptyString) =
  Failed.
Proof.
  destruct (result_text_lines algorithm red_balls blue_balls rec recs)
    as (head & tail & E & Hne & (above & below & Ht) & first & rest & Hh & Hf).
  set (text := result_text algorithm red_balls blue_balls (rec :: recs)) in *.
  assert (strip_s (text ++ String newline EmptyString) = text) as Hs.
  { unfold strip_s. rewrite list_ascii_app.
    assert (exists middle last,
               list_ascii_of_string text = first :: middle ++ [last] /\
               is_space last = false) as (middle & last & EL & Hl).
    { rewrite E. change (head :: tail ++ ["💡 提示：多次运行获取不同组合"%string])
        with ((head :: tail) ++ ["💡 提示：多次运行获取不同组合"%string]).
      rewrite join_snoc by discriminate. rewrite join_cons by exact Hne. rewrite Hh.
      rewrite !list_ascii_app. cbn [list_ascii_of_string app].
      exists (list_ascii_of_string rest ++
              list_ascii_of_string (String newline EmptyString ++ join (String newline EmptyString) tail) ++
              [newline] ++
              removelast (list_ascii_of_string "💡 提示：多次运行获取不同组合")),
             (List.last (list_ascii_of_string "💡 提示：多次运行获取不同组合") " "%char).
      split; [|vm_compute; reflexivity].
      f_equal. rewrite <- !app_assoc. rewrite !list_ascii_app. rewrite <- !app_assoc.
      reflexivity. }
    rewrite EL. change (list_ascii_of_string (String newline EmptyString)) with [newline].
    rewrite (strip_core first middle last [newline] Hf Hl)
      by (repeat constructor).
    rewrite <- EL. apply string_of_list_ascii_of_string. }
  unfold show_recommendation_chart. cbv zeta. rewrite Hs.
  assert (contains "第1组" text = true) as Hc.
  { rewrite E, Ht. destruct (result_line_first rec) as (r & ->).
    rewrite <- app_assoc.
    exact (contains_join "第1组" _ r (head :: above)
             (below ++ ["💡 提示：多次运行获取不同组合"%string])). }
  rewrite Hc. cbn [negb].
  rewrite (chart_lines_of_result_line _ 1 rec); [reflexivity|].
  rewrite E. apply In_split_join; [|apply lacks_result_line].
  right. apply in_or_app. left. rewrite Ht. apply in_or_app. right. now left.
Qed.

End ChartText.

(** ** The weighted draw: bounds of the weights, and a tape that never
    completes the six reds *)


Lemma top_up_stuck fuel : forall k, top_up fuel [1] (advance k zero_tape) = OutOfFuel.
Proof.
  induction fuel as [|fuel IH]; intros k.
  - apply top_up_0. simpl. lia.
  - rewrite top_up_S by (simpl; lia).
    change (candidate_at (advance k zero_tape) (cursor (advance k zero_tape))) with 1.
    change (Py.contains 1 [1]) with true. cbv iota.
    rewrite advance_advance. apply IH.
Qed.

Lemma frequency_weighted_zero_tape fuel :
  _frequency_weighted fuel [] [] 1 zero_tape = OutOfFuel.
Proof.
  unfold _frequency_weighted. rewrite for_range_1.
  rewrite (frequency_weighted_one_eq fuel [] [] zero_tape) by constructor.
  assert (Py.sorted (Py.slice_to 6 (Py.list_set (picks_at [] zero_tape))) = [1]) as E
      by (vm_compute; reflexivity).
  rewrite E. change (advance 39 zero_tape) with (advance 39 zero_tape).
  rewrite top_up_stuck. reflexivity.
Qed.


(** ** The latest draw: when the display raises *)

Lemma red_list_None it :
  SSQGUI.red_list it = None <->
  exists s, SSQCore.red it = Some s /\ s <> EmptyString /\
            SSQCore.ints_of (Str.split "," s) = None.
Proof.
  destruct it as [[[|c s]|] b]; unfold SSQGUI.red_list;
    cbn [SSQCore.red Str.truthy]; split.
  - discriminate.
  - intros (s0 & E & Hne & _). injection E as <-. congruence.
  - intros H. exists (String c s). split; [reflexivity|]. split; [discriminate | exact H].
  - intros (s0 & E & _ & H). injection E as <-. exact H.
  - discriminate.
  - intros (s0 & E & _). discriminate.
Qed.

Lemma blue_list_None it :
  SSQGUI.blue_list it = None <->
  exists s, SSQCore.blue it = Some s /\ s <> EmptyString /\ Str.int s = None.
Proof.
  destruct it as [r [[|c s]|]]; unfold SSQGUI.blue_list;
    cbn [SSQCore.blue Str.truthy]; split.
  - discriminate.
  - intros (s0 & E & Hne & _). injection E as <-. congruence.
  - intros H. exists (String c s). split; [reflexivity|]. split; [discriminate|].
    now destruct (Str.int (String c s)).
  - intros (s0 & E & _ & H). injection E as <-. now rewrite H.
  - discriminate.
  - intros (s0 & E & _). discriminate.
Qed.


(** * The claims *)

(** ** Sum optimised: the sum of the reds *)

(** C6.  Whatever the count, the tables, the budget and the tape: when the
    sum-optimised strategy returns, it returns [count] recommendations, and
    the reds of each add up to a value of [80, 140], both ends included. *)
Theorem sum_optimized_sum_within fuel red_freq blue_freq count g recs g' :
  _sum_optimized fuel red_freq blue_freq count g = Ok recs g' ->
  length recs = Z.to_nat count /\
  Forall (fun rec => 80 <= Py.sum (red rec) <= 140) recs.
Proof.
  apply for_range_Ok. clear. intros g rec g' H.
  rewrite sum_optimized_one_eq in H.
  destruct (loop_outcome sum_accepted fuel g) as [reds g1| |] eqn:L; inversion H; subst.
  apply loop_outcome_accepted in L. unfold sum_accepted in L.
  apply andb_prop in L. simpl. rewrite !Z.leb_le in L. exact L.
Qed.

(** On a tape whose first sample is rejected (sum 156) and whose second is
    accepted (sum 98), one recommendation is returned. *)
Lemma sum_optimized_sum_within_witness :
  length [{| red := [3; 11; 15; 19; 23; 27]; blue := 5 |}] = Z.to_nat 1 /\
  Forall (fun rec => 80 <= Py.sum (red rec) <= 140)
    [{| red := [3; 11; 15; 19; 23; 27]; blue := 5 |}].
Proof.
  apply (sum_optimized_sum_within 2 [] [] 1
           (tape_of [0; 0; 0; 0; 0; 0; 2; 10; 14; 18; 22; 26; 4]) _
           (mkRng (fun i => nth i [0; 0; 0; 0; 0; 0; 2; 10; 14; 18; 22; 26; 4] 0) 13)).
  reflexivity.
Defined.

(** ** No consecutive numbers *)

(** C7.  Whatever the count, the tables, the budget and the tape: when the
    no-consecutive strategy returns, it returns [count] recommendations, the
    reds of each are in ascending order, and no two neighbours among them
    differ by exactly 1. *)
Theorem no_consecutive_no_neighbours fuel red_freq blue_freq count g recs g' :
  _no_consecutive fuel red_freq blue_freq count g = Ok recs g' ->
  length recs = Z.to_nat count /\
  Forall (fun rec => Py.sorted (red rec) = red rec /\ no_neighbours (red rec)) recs.
Proof.
  apply for_range_Ok. clear. intros g rec g' H.
  rewrite no_consecutive_one_eq in H.
  destruct (loop_outcome spread_accepted fuel g) as [reds g1| |] eqn:L; inversion H; subst.
  simpl. split.
  - unfold loop_outcome in L.
    destruct (first_accepted spread_accepted fuel g); inversion L; subst.
    apply sorted_fixed, sorted_le.
  - apply loop_outcome_accepted in L. unfold spread_accepted in L.
    apply has_consecutive_false. now destruct (has_consecutive reds).
Qed.

(** On a tape whose first sample is rejected (29, 30, ... are neighbours)
    and whose second is accepted, one recommendation is returned. *)
Lemma no_consecutive_no_neighbours_witness :
  length [{| red := [3; 11; 15; 19; 23; 27]; blue := 5 |}] = Z.to_nat 1 /\
  Forall (fun rec => Py.sorted (red rec) = red rec /\ no_neighbours (red rec))
    [{| red := [3; 11; 15; 19; 23; 27]; blue := 5 |}].
Proof.
  apply (no_consecutive_no_neighbours 2 [] [] 1
           (tape_of [0; 0; 0; 0; 0; 0; 2; 10; 14; 18; 22; 26; 4]) _
           (mkRng (fun i => nth i [0; 0; 0; 0; 0; 0; 2; 10; 14; 18; 22; 26; 4] 0) 13)).
  reflexivity.
Defined.

(** ** Reject sampling: no bound on the attempts *)

(** C4, as stated, fails: on the tape of zeros every sample is
    1, 29, 30, 31, 32, 33 (sum 156, with neighbours), which both strategies
    reject; whatever the budget, neither returns.  Hence no cap makes
    generation total over all tapes. *)
Lemma reject_sampling_bounded_counterexample :
  (forall fuel, _sum_optimized fuel [] [] 1 zero_tape = OutOfFuel) /\
  (forall fuel, _no_consecutive fuel [] [] 1 zero_tape = OutOfFuel) /\
  ~ (exists cap, forall g, exists recs g',
        _sum_optimized cap [] [] 1 g = Ok recs g') /\
  ~ (exists cap, forall g, exists recs g',
        _no_consecutive cap [] [] 1 g = Ok recs g').
Proof.
  assert (forall fuel, _sum_optimized fuel [] [] 1 zero_tape = OutOfFuel) as Hsum.
  { intros fuel. unfold _sum_optimized. rewrite for_range_1, sum_optimized_one_eq.
    unfold loop_outcome, zero_tape. now rewrite first_accepted_zero_tape. }
  assert (forall fuel, _no_consecutive fuel [] [] 1 zero_tape = OutOfFuel) as Hspread.
  { intros fuel. unfold _no_consecutive. rewrite for_range_1, no_consecutive_one_eq.
    unfold loop_outcome, zero_tape. now rewrite first_accepted_zero_tape. }
  repeat split; auto.
  - intros (cap & H). destruct (H zero_tape) as (recs & g' & E). now rewrite Hsum in E.
  - intros (cap & H). destruct (H zero_tape) as (recs & g' & E). now rewrite Hspread in E.
Qed.

(** C4, amended.  The two reject-sampling loops have no cap: with budget
    [fuel] each returns the first accepted sample among the first [fuel]
    samples on the tape, and does not return within the budget if there is
    none; and for every [n] there is a tape on which [n] attempts are not
    enough while [n + 1] are. *)
Theorem reject_sampling_retries_without_bound :
  (forall fuel g, sum_loop fuel g = loop_outcome sum_accepted fuel g) /\
  (forall fuel g, no_consecutive_loop fuel g = loop_outcome spread_accepted fuel g) /\
  (forall n red_freq blue_freq,
      _sum_optimized n red_freq blue_freq 1 (late_tape n) = OutOfFuel /\
      returned (_sum_optimized (S n) red_freq blue_freq 1 (late_tape n)) =
        Some [{| red := [3; 11; 15; 19; 23; 27]; blue := 1 |}]) /\
  (forall n red_freq blue_freq,
      _no_consecutive n red_freq blue_freq 1 (late_tape n) = OutOfFuel /\
      returned (_no_consecutive (S n) red_freq blue_freq 1 (late_tape n)) =
        Some [{| red := [3; 11; 15; 19; 23; 27]; blue := 1 |}]).
Proof.
  split; [intros; apply sum_loop_outcome|].
  split; [intros; apply no_consecutive_loop_outcome|].
  assert (forall n, tape (late_tape n) (6 * n + 6) = 0) as Hblue.
  { intros n. replace (6 * n + 6)%nat with (6 + 6 * n)%nat by lia.
    now rewrite late_tape_cell. }
  split; intros n red_freq blue_freq.
  - destruct (late_tape_first_accepted sum_accepted n eq_refl eq_refl) as [H1 H2].
    unfold _sum_optimized. rewrite !for_range_1, !sum_optimized_one_eq.
    unfold loop_outcome. rewrite H1, H2, late_tape_sample. split; [reflexivity|].
    cbn [returned advance tape cursor]. change (cursor (late_tape n)) with 0%nat.
    rewrite Nat.add_0_r, Hblue. reflexivity.
  - destruct (late_tape_first_accepted spread_accepted n eq_refl eq_refl) as [H1 H2].
    unfold _no_consecutive. rewrite !for_range_1, !no_consecutive_one_eq.
    unfold loop_outcome. rewrite H1, H2, late_tape_sample. split; [reflexivity|].
    cbn [returned advance tape cursor]. change (cursor (late_tape n)) with 0%nat.
    rewrite Nat.add_0_r, Hblue. reflexivity.
Qed.

(** ** The message queue *)

(** C9.  [receive] on an empty queue returns [(None, None)] and leaves the
    queue empty; after messages have been sent it returns the type and the
    payload of the one sent first and leaves the others, in their order. *)
Theorem receive_oldest_or_none :
  MessageQueue.receive MessageQueue.__init__ = ((None, None), MessageQueue.__init__) /\
  (forall first rest,
      MessageQueue.receive
        (MessageQueue.send_all MessageQueue.__init__ (first :: rest)) =
      ((Some (fst first), snd first),
       MessageQueue.send_all MessageQueue.__init__ rest)) /\
  (forall q msg_type data,
      q <> [] ->
      fst (MessageQueue.receive (MessageQueue.send q msg_type data)) =
      fst (MessageQueue.receive q)).
Proof.
  assert (forall msgs q, MessageQueue.send_all q msgs = q ++ msgs) as Hall.
  { induction msgs as [|[t d] msgs IH]; intros q; simpl.
    - now rewrite app_nil_r.
    - rewrite IH. unfold MessageQueue.send. simpl. now rewrite <- app_assoc. }
  repeat split.
  - intros [t d] rest. rewrite !Hall. reflexivity.
  - intros [|[t d] q] msg_type data Hq; [congruence | reflexivity].
Qed.

(** A queue that holds one pending message gets a second one: the first is
    still the one received. *)
Lemma receive_oldest_or_none_witness :
  fst (MessageQueue.receive
         (MessageQueue.send [(MessageQueue.PROGRESS_START, None)]
            MessageQueue.FETCH_SUCCESS (Some "ok"%string))) =
  fst (MessageQueue.receive [(MessageQueue.PROGRESS_START, None)]).
Proof.
  destruct receive_oldest_or_none as (_ & _ & H).
  apply (H [(MessageQueue.PROGRESS_START, None)]). discriminate.
Defined.

(** ** The dispatch *)

(** C10, as stated, fails: with the count 0 recorded for each of the
    sixteen blue numbers, an argument that is no member of the enumeration
    makes [generate] raise [ValueError], as the frequency-weighted strategy
    does there: the weights of the blue draw add up to zero. *)
Lemma generate_default_raises_counterexample :
  generate 6 (NonMember PyNone) [] zero_blue_freq 1 counting_tape = Raise ValueError /\
  _frequency_weighted 6 [] zero_blue_freq 1 counting_tape = Raise ValueError /\
  blue_weights zero_blue_freq = repeat (inject_Z 0) 16.
Proof.
  split; [vm_compute; reflexivity|]. split; vm_compute; reflexivity.
Qed.

(** C10, amended.  An [algorithm] argument that is no member of the
    enumeration makes [generate] run the frequency-weighted strategy on the
    same tables, count and tape: the two outcomes are equal, whatever they
    are; and on the tables [analyze_frequency] makes of any two lists of
    numbers the call does not raise. *)
Theorem generate_defaults_to_frequency_weighted v fuel red_freq blue_freq count g :
  generate fuel (NonMember v) red_freq blue_freq count g =
    _frequency_weighted fuel red_freq blue_freq count g /\
  (forall red_balls blue_balls e,
      generate fuel (NonMember v)
        (fst (SSQCore.analyze_frequency red_balls blue_balls))
        (snd (SSQCore.analyze_frequency red_balls blue_balls)) count g <> Raise e).
Proof.
  split; [reflexivity|].
  intros red_balls blue_balls e.
  change (_frequency_weighted fuel
            (fst (SSQCore.analyze_frequency red_balls blue_balls))
            (snd (SSQCore.analyze_frequency red_balls blue_balls)) count g <> Raise e).
  apply frequency_weighted_table_no_raise; apply count_into_table, table_nil.
Qed.

(** ** No history *)

(** C2, as stated, fails.  With both tables empty the frequency-weighted
    strategy does not return on the tape of zeros, whatever the budget of
    its top-up loop: its six weighted picks are all 1, and every candidate
    of the loop is 1 again.  And with both tables empty the pure-frequency
    strategy raises [IndexError], whatever the budget, the count and the
    tape: there is no first entry to take the hottest blue from. *)
Lemma no_history_never_raises_counterexample :
  picks_at [] zero_tape = [1; 1; 1; 1; 1; 1] /\
  (forall i, candidate_at zero_tape i = 1) /\
  (forall fuel,
      generate fuel (Member FREQUENCY_WEIGHTED) [] [] 1 zero_tape = OutOfFuel) /\
  (forall fuel count g,
      generate fuel (Member PURE_FREQUENCY) [] [] count g = Raise IndexError).
Proof.
  split; [vm_compute; reflexivity|]. split; [reflexivity|].
  split; [|intros fuel count g; reflexivity].
  intros fuel. apply frequency_weighted_zero_tape.
Qed.

(** C2, amended.  With both tables empty the frequency-weighted strategy
    gives every red number the weight 1 plus a jitter within [0.1, 1] and
    every blue number the weight 1; it never raises; whenever it returns,
    it returns [count] well-formed recommendations; and with budget [w] for
    each top-up loop it does return on every tape whose windows of [w]
    cells, over the cells the call can reach, each offer six different
    candidates. *)
Theorem frequency_weighted_without_history :
  (forall g,
      exists red_weights,
        jittered_weights [] all_reds g = Ok red_weights (advance 33 g) /\
        length red_weights = 33%nat /\
        Forall (fun w =>
                  exists jitter, ((1 # 10) <= jitter)%Q /\ (jitter <= 1)%Q /\
                                 w = (inject_Z 1 + jitter)%Q) red_weights) /\
  blue_weights [] = repeat (inject_Z 1) 16 /\
  (forall fuel count g e, _frequency_weighted fuel [] [] count g <> Raise e) /\
  (forall fuel count g recs g',
      _frequency_weighted fuel [] [] count g = Ok recs g' ->
      length recs = Z.to_nat count /\ Forall valid_recommendation recs) /\
  (forall w count g,
      varied w g (Z.to_nat count * (40 + w)) ->
      exists recs g', _frequency_weighted w [] [] count g = Ok recs g').
Proof.
  split; [|split; [reflexivity|split; [|split]]].
  - intros g. exists (map (fun x => (inject_Z 1 + jitter_of x)%Q) (cells g 33)).
    split; [rewrite jittered_weights_eq; reflexivity|].
    split; [now rewrite length_map, cells_length|].
    apply Forall_forall. intros w Hw. apply in_map_iff in Hw.
    destruct Hw as (x & <- & _). exists (jitter_of x).
    destruct (jitter_of_range x) as [H1 H2].
    split; [exact H1|]. split; [apply Qlt_le_weak; exact H2 | reflexivity].
  - intros fuel count g e. apply append_each_no_raise. clear.
    intros g e. apply frequency_weighted_one_no_raise; constructor.
  - intros fuel count g recs g'. apply for_range_Ok. clear.
    intros g rec g'. apply frequency_weighted_one_valid; constructor.
  - intros w count g Hv. apply append_each_frequency_weighted_returns; try constructor.
    now apply varied_spec.
Qed.

(** On the counting tape every window of six cells shows six different
    candidates, so one recommendation is returned with budget 6. *)
Lemma frequency_weighted_without_history_witness :
  varied 6 counting_tape (Z.to_nat 1 * (40 + 6)) /\
  exists recs g',
    _frequency_weighted 6 [] [] 1 counting_tape = Ok recs g' /\
    Forall valid_recommendation recs.
Proof.
  destruct frequency_weighted_without_history as (_ & _ & _ & Hvalid & Hret).
  assert (varied 6 counting_tape (Z.to_nat 1 * (40 + 6))) as Hv by (vm_compute; reflexivity).
  split; [exact Hv|].
  destruct (Hret 6%nat 1 counting_tape Hv) as (recs & g' & E).
  exists recs, g'. split; [exact E|]. exact (proj2 (Hvalid _ _ _ _ _ E)).
Defined.

(** ** Parsing the records *)

(** C8.  [parse_numbers] returns for every batch of records: the red numbers
    are, record by record and in order, the six integers of each record
    whose red field decodes to exactly six integers and nothing for any
    other record; the blue numbers are, independently, the integer of each
    record whose blue field decodes to an integer and nothing for any
    other record. *)
Theorem parse_numbers_skips_per_record data :
  exists red_parts blue_parts,
    SSQCore.parse_numbers data = (concat red_parts, concat blue_parts) /\
    Forall2 red_rule data red_parts /\
    Forall2 blue_rule data blue_parts.
Proof.
  exists (map red_added data), (map blue_added data).
  split; [unfold SSQCore.parse_numbers; now rewrite parse_fold|].
  split; induction data; simpl; constructor;
    auto using red_added_rule, blue_added_rule.
Qed.

(** ** Pure frequency *)




(** ** Well-formedness of the recommendations *)

(** C1 at its failing input.  A history of one draw, 1 to 6 with blue 1,
    gives two well-formed tables; hot-and-cold then takes its three hot and
    its three cold numbers from the same six entries, and on a tape of zeros
    takes the same three twice: the reds 1, 1, 5, 5, 6, 6 are not distinct.
    And after the record 1, 2, 3, 4, 5, 40 (whose 40 the analysis drops) pure
    frequency returns five reds. *)
Theorem hot_cold_balance_repeats_numbers :
  SSQCore.parse_numbers
    [{| SSQCore.red := Some "01,02,03,04,05,06"%string;
        SSQCore.blue := Some "01"%string |}] = ([1; 2; 3; 4; 5; 6], [1]) /\
  SSQCore.analyze_frequency [1; 2; 3; 4; 5; 6] [1] =
    ([(1, 1); (2, 1); (3, 1); (4, 1); (5, 1); (6, 1)], [(1, 1)]) /\
  table 33 [(1, 1); (2, 1); (3, 1); (4, 1); (5, 1); (6, 1)] /\
  table 16 [(1, 1)] /\
  returned (generate 0 (Member HOT_COLD_BALANCE)
              [(1, 1); (2, 1); (3, 1); (4, 1); (5, 1); (6, 1)] [(1, 1)] 1 zero_tape) =
    Some [{| red := [1; 1; 5; 5; 6; 6]; blue := 1 |}] /\
  valid_recommendationb {| red := [1; 1; 5; 5; 6; 6]; blue := 1 |} = false /\
  SSQCore.analyze_frequency [1; 2; 3; 4; 5; 40] [1] =
    ([(1, 1); (2, 1); (3, 1); (4, 1); (5, 1)], [(1, 1)]) /\
  returned (generate 0 (Member PURE_FREQUENCY)
              [(1, 1); (2, 1); (3, 1); (4, 1); (5, 1)] [(1, 1)] 1 zero_tape) =
    Some [{| red := [1; 2; 3; 4; 5]; blue := 1 |}].
Proof.
  split; [reflexivity|]. split; [reflexivity|].
  split; [split; [repeat constructor; simpl; intuition lia
                 | repeat constructor; simpl; lia]|].
  split; [split; [repeat constructor; simpl; intuition lia
                 | repeat constructor; simpl; lia]|].
  repeat split.
Qed.

(** ** Frequency weighted: how the numbers are drawn *)




(** * Further properties of the code *)

(** ** [analyze_frequency] *)

(** X1.  Whatever the two lists of numbers, the tables [analyze_frequency]
    returns are well formed: no number is listed twice, every listed red is
    within 1..33 and every listed blue within 1..16, and every recorded
    count is at least 1. *)
Theorem analyze_frequency_tables_well_formed red_balls blue_balls :
  table 33 (fst (SSQCore.analyze_frequency red_balls blue_balls)) /\
  table 16 (snd (SSQCore.analyze_frequency red_balls blue_balls)).
Proof.
  assert (forall hi, table hi []) as Hempty by (intros hi; split; constructor).
  split; apply count_into_table; apply Hempty.
Qed.

(** X2.  Looking a number up in the tables, with 0 for a missing one (as the
    charts do), gives the number of its occurrences in the input if it lies
    within the domain, and 0 if it lies outside: values outside 1..33 and
    1..16 are dropped. *)
Theorem analyze_frequency_counts_occurrences red_balls blue_balls k :
  Py.get (fst (SSQCore.analyze_frequency red_balls blue_balls)) k 0 =
    (if (1 <=? k) && (k <=? 33) then Z.of_nat (count_occ Z.eq_dec red_balls k) else 0) /\
  Py.get (snd (SSQCore.analyze_frequency red_balls blue_balls)) k 0 =
    (if (1 <=? k) && (k <=? 16) then Z.of_nat (count_occ Z.eq_dec blue_balls k) else 0).
Proof.
  assert (forall hi, table hi []) as Hempty by (intros hi; split; constructor).
  unfold SSQCore.analyze_frequency. cbn [fst snd].
  split; rewrite count_into_get by apply Hempty; reflexivity.
Qed.

(** X3.  The tables list the numbers in the order in which they first
    appear in the input (the order that breaks ties in every ranking by
    count). *)
Theorem analyze_frequency_keeps_first_seen_order red_balls blue_balls :
  map fst (fst (SSQCore.analyze_frequency red_balls blue_balls)) =
    first_seen (within 33 red_balls) /\
  map fst (snd (SSQCore.analyze_frequency red_balls blue_balls)) =
    first_seen (within 16 blue_balls).
Proof.
  assert (forall l : list Z, filter (fun y => negb (Py.contains y (map fst (@nil (Z * Z))))) l = l)
    as Hall by (intros l; apply filter_all; reflexivity).
  unfold SSQCore.analyze_frequency. cbn [fst snd].
  split; rewrite count_into_keys; cbn [map app]; apply Hall.
Qed.

(** ** Strategies that read no table *)

(** X4.  Pure random returns for every count and tape, without a loop
    budget, and every recommendation it returns is well formed. *)
Theorem pure_random_well_formed count g :
  exists recs g',
    _pure_random count g = Ok recs g' /\
    length recs = Z.to_nat count /\ Forall valid_recommendation recs.
Proof. apply for_range_total. apply pure_random_one_Ok. Qed.

(** X5.  Interval distribution returns for every count, tape and pair of
    tables; every recommendation is well formed and has exactly two reds
    in 1..11, two in 12..22 and two in 23..33. *)
Theorem interval_distribution_two_per_third red_freq blue_freq count g :
  exists recs g',
    _interval_distribution red_freq blue_freq count g = Ok recs g' /\
    length recs = Z.to_nat count /\
    Forall (fun rec =>
              valid_recommendation rec /\
              count_in 1 11 (red rec) = 2%nat /\
              count_in 12 22 (red rec) = 2%nat /\
              count_in 23 33 (red rec) = 2%nat) recs.
Proof.
  apply for_range_total. intros g0.
  destruct (interval_one_Ok g0) as (rec & g1 & E & Hv & H1 & H2 & H3 & _).
  exists rec, g1. auto.
Qed.

(** X6.  Odd-even balance returns for every count, tape and pair of tables;
    every recommendation is well formed and has exactly three odd and three
    even reds. *)
Theorem odd_even_balance_three_each red_freq blue_freq count g :
  exists recs g',
    _odd_even_balance red_freq blue_freq count g = Ok recs g' /\
    length recs = Z.to_nat count /\
    Forall (fun rec =>
              valid_recommendation rec /\
              count_odd (red rec) = 3%nat /\ count_even (red rec) = 3%nat) recs.
Proof.
  apply for_range_total. intros g0.
  destruct (odd_even_one_Ok g0) as (rec & g1 & E & Hv & H1 & H2 & _).
  exists rec, g1. auto.
Qed.

(** X7.  The two reject-sampling strategies never raise, and every
    recommendation they return is well formed, whatever the tables, the
    count, the budget and the tape. *)
Theorem reject_sampling_well_formed fuel red_freq blue_freq count g :
  (forall e, _sum_optimized fuel red_freq blue_freq count g <> Raise e) /\
  (forall e, _no_consecutive fuel red_freq blue_freq count g <> Raise e) /\
  (forall recs g',
      _sum_optimized fuel red_freq blue_freq count g = Ok recs g' ->
      Forall valid_recommendation recs) /\
  (forall recs g',
      _no_consecutive fuel red_freq blue_freq count g = Ok recs g' ->
      Forall valid_recommendation recs).
Proof.
  split; [|split; [|split]].
  - intros e. apply append_each_no_raise. intros g0 e0. apply sum_optimized_one_no_raise.
  - intros e. apply append_each_no_raise. intros g0 e0. apply no_consecutive_one_no_raise.
  - intros recs g' H.
    exact (proj2 (for_range_Ok valid_recommendation _
                    (fun g0 rec g1 => sum_optimized_one_valid fuel g0 rec g1) _ _ _ _ H)).
  - intros recs g' H.
    exact (proj2 (for_range_Ok valid_recommendation _
                    (fun g0 rec g1 => no_consecutive_one_valid fuel g0 rec g1) _ _ _ _ H)).
Qed.

(** On a tape whose first sample both strategies reject and whose second
    both accept, each returns one well-formed recommendation. *)
Lemma reject_sampling_well_formed_witness :
  Forall valid_recommendation [{| red := [3; 11; 15; 19; 23; 27]; blue := 5 |}].
Proof.
  destruct (reject_sampling_well_formed 2 [] [] 1
              (tape_of [0; 0; 0; 0; 0; 0; 2; 10; 14; 18; 22; 26; 4])) as (_ & _ & H & _).
  apply (H _ (mkRng (fun i => nth i [0; 0; 0; 0; 0; 0; 2; 10; 14; 18; 22; 26; 4] 0) 13)).
  reflexivity.
Defined.

(** ** Frequency weighted, after the analysis *)

(** X8.  On the tables that [analyze_frequency] makes of any two lists of
    numbers, the frequency-weighted strategy never raises; whenever it
    returns, it returns [count] well-formed recommendations; and it returns
    on every tape whose windows of [fuel] cells, over the cells the call can
    reach, each offer six different candidates. *)
Theorem frequency_weighted_after_analysis red_balls blue_balls fuel count g :
  (forall e,
      generate fuel (Member FREQUENCY_WEIGHTED)
        (fst (SSQCore.analyze_frequency red_balls blue_balls))
        (snd (SSQCore.analyze_frequency red_balls blue_balls)) count g <> Raise e) /\
  (forall recs g',
      generate fuel (Member FREQUENCY_WEIGHTED)
        (fst (SSQCore.analyze_frequency red_balls blue_balls))
        (snd (SSQCore.analyze_frequency red_balls blue_balls)) count g = Ok recs g' ->
      length recs = Z.to_nat count /\ Forall valid_recommendation recs) /\
  (varied fuel g (Z.to_nat count * (40 + fuel)) ->
   exists recs g',
     generate fuel (Member FREQUENCY_WEIGHTED)
       (fst (SSQCore.analyze_frequency red_balls blue_balls))
       (snd (SSQCore.analyze_frequency red_balls blue_balls)) count g = Ok recs g').
Proof.
  assert (forall hi, table hi []) as Hempty by (intros hi; split; constructor).
  set (red_freq := fst (SSQCore.analyze_frequency red_balls blue_balls)).
  set (blue_freq := snd (SSQCore.analyze_frequency red_balls blue_balls)).
  assert (table 33 red_freq) as [_ Hr] by (apply count_into_table, Hempty).
  assert (table 16 blue_freq) as [_ Hb] by (apply count_into_table, Hempty).
  assert (Forall (fun kv : Z * Z => 0 <= snd kv) red_freq) as Hr0
      by (eapply Forall_impl; [|exact Hr]; cbv beta; intros kv H; lia).
  assert (Forall (fun kv : Z * Z => 1 <= snd kv) blue_freq) as Hb1
      by (eapply Forall_impl; [|exact Hb]; cbv beta; intros kv H; lia).
  clearbody red_freq blue_freq.
  change (generate fuel (Member FREQUENCY_WEIGHTED) red_freq blue_freq count g)
    with (_frequency_weighted fuel red_freq blue_freq count g).
  split; [|split].
  - intros e. apply append_each_no_raise.
    intros g0 e0. now apply frequency_weighted_one_no_raise.
  - intros recs g'. apply for_range_Ok.
    intros g0 rec g1. now apply frequency_weighted_one_valid.
  - intros Hv. apply append_each_frequency_weighted_returns; auto.
    now apply varied_spec.
Qed.

(** After the draw 1..6 with blue 1, on the counting tape. *)
Lemma frequency_weighted_after_analysis_witness :
  varied 6 counting_tape (Z.to_nat 1 * (40 + 6)) /\
  exists recs g',
    generate 6 (Member FREQUENCY_WEIGHTED)
      (fst (SSQCore.analyze_frequency [1; 2; 3; 4; 5; 6] [1]))
      (snd (SSQCore.analyze_frequency [1; 2; 3; 4; 5; 6] [1])) 1 counting_tape =
    Ok recs g' /\ Forall valid_recommendation recs.
Proof.
  destruct (frequency_weighted_after_analysis [1; 2; 3; 4; 5; 6] [1] 6 1 counting_tape)
    as (_ & Hvalid & Hret).
  assert (varied 6 counting_tape (Z.to_nat 1 * (40 + 6))) as Hv by (vm_compute; reflexivity).
  split; [exact Hv|].
  destruct (Hret Hv) as (recs & g' & E).
  exists recs, g'. split; [exact E | exact (proj2 (Hvalid _ _ E))].
Defined.

(** ** The strategies that rank the table *)

(** X9.  Pure frequency raises [IndexError] exactly when the blue table is
    empty, whatever the count (even 0) and the red table; otherwise it
    returns without touching the generator.  On a well-formed red table of
    at least six numbers and a well-formed blue table every recommendation
    it returns is well formed. *)
Theorem pure_frequency_needs_blue_and_six_reds red_freq blue_freq count g :
  (blue_freq = [] -> _pure_frequency red_freq blue_freq count g = Raise IndexError) /\
  (blue_freq <> [] ->
   exists recs, _pure_frequency red_freq blue_freq count g = Ok recs g /\
                length recs = Z.to_nat count /\
                Forall (fun rec => length (red rec) = Nat.min 6 (length red_freq)) recs) /\
  (blue_freq <> [] -> table 33 red_freq -> (6 <= length red_freq)%nat ->
   table 16 blue_freq ->
   exists recs, _pure_frequency red_freq blue_freq count g = Ok recs g /\
                Forall valid_recommendation recs).
Proof.
  split; [|split].
  - intros ->. reflexivity.
  - intros Hne.
    destruct (first_key_Ok blue_freq (Py.sorted_desc blue_freq) g (sorted_desc_perm _) Hne)
      as (kb & E & _).
    exists (repeat {| red := top_reds red_freq; blue := kb |} (Z.to_nat count)).
    split; [|split].
    + unfold _pure_frequency. rewrite (bind_eq _ _ _ _ _ E). cbv beta.
      unfold for_range. now rewrite append_each_ret.
    + apply repeat_length.
    + apply Forall_forall. intros rec Hrec. apply repeat_spec in Hrec. subst rec.
      cbn [red]. unfold top_reds, Py.slice_to.
      rewrite sorted_length, length_map, length_firstn.
      now rewrite (Permutation_length (sorted_desc_perm red_freq)).
  - intros Hne Hr Hlen Hb.
    destruct (pure_frequency_valid red_freq blue_freq count g Hr Hlen Hb Hne)
      as (recs & E & _ & Hv).
    exists recs. auto.
Qed.

(** The specification's example table has 33 numbers. *)
Lemma pure_frequency_needs_blue_and_six_reds_witness :
  exists recs,
    _pure_frequency example_red_freq example_blue_freq 2 zero_tape = Ok recs zero_tape /\
    Forall valid_recommendation recs.
Proof.
  destruct (pure_frequency_needs_blue_and_six_reds example_red_freq example_blue_freq 2
              zero_tape) as (_ & _ & H).
  apply H.
  - discriminate.
  - split.
    + assert (nodup Z.eq_dec (map fst example_red_freq) = map fst example_red_freq) as E
          by (vm_compute; reflexivity).
      rewrite <- E. apply NoDup_nodup.
    + unfold example_red_freq. constructor; [simpl; lia|].
      apply Forall_forall. intros kv Hkv. apply in_map_iff in Hkv.
      destruct Hkv as (k & <- & Hk). apply range_In in Hk. simpl. lia.
  - vm_compute. lia.
  - split; [repeat constructor; simpl; intuition lia | repeat constructor; simpl; lia].
Defined.

(** X10.  On a red table without repeated keys that lists at least three
    numbers, and a non-empty blue table, hot and cold returns for every
    count and tape.  The reds of every recommendation are three different
    numbers of the ten hottest and three different numbers of the ten
    coldest, sorted together; the blue is the first of the hottest or the
    first of the coldest blues.  If moreover the tables are well formed and
    no number is among both the ten hottest and the ten coldest, every
    recommendation is well formed. *)
Theorem hot_cold_balance_three_hot_three_cold red_freq blue_freq count g :
  NoDup (map fst red_freq) -> (3 <= length red_freq)%nat -> blue_freq <> [] ->
  exists recs g',
    _hot_cold_balance red_freq blue_freq count g = Ok recs g' /\
    length recs = Z.to_nat count /\
    Forall (hot_cold_shape red_freq blue_freq) recs /\
    (table 33 red_freq -> table 16 blue_freq ->
     disjoint (hot_pool red_freq) (cold_pool red_freq) = true ->
     Forall valid_recommendation recs).
Proof.
  intros Hnd Hlen Hne.
  destruct (for_range_total (hot_cold_shape red_freq blue_freq)
              (hot_cold_one red_freq blue_freq)
              (fun g0 => hot_cold_one_Ok red_freq blue_freq g0 Hnd Hlen Hne) count g)
    as (recs & g' & E & Hl & Hall).
  exists recs, g'. split; [exact E|]. split; [exact Hl|]. split; [exact Hall|].
  intros Hr Hb Hdis. eapply Forall_impl; [|exact Hall].
  intros rec. now apply hot_cold_shape_valid.
Qed.

(** Every number [k] seen [k] times: the ten hottest are 24..33, the ten
    coldest 1..10. *)
Lemma hot_cold_balance_three_hot_three_cold_witness :
  disjoint (hot_pool climbing_red_freq) (cold_pool climbing_red_freq) = true /\
  exists recs g',
    _hot_cold_balance climbing_red_freq example_blue_freq 2 counting_tape = Ok recs g' /\
    Forall valid_recommendation recs.
Proof.
  assert (NoDup (map fst climbing_red_freq)) as Hnd.
  { assert (nodup Z.eq_dec (map fst climbing_red_freq) = map fst climbing_red_freq) as E
        by (vm_compute; reflexivity).
    rewrite <- E. apply NoDup_nodup. }
  assert (table 33 climbing_red_freq) as Hr.
  { split; [exact Hnd|]. unfold climbing_red_freq.
    apply Forall_forall. intros kv Hkv. apply in_map_iff in Hkv.
    destruct Hkv as (k & <- & Hk). apply range_In in Hk. simpl. lia. }
  assert (table 16 example_blue_freq) as Hb
      by (split; [repeat constructor; simpl; intuition lia | repeat constructor; simpl; lia]).
  assert (disjoint (hot_pool climbing_red_freq) (cold_pool climbing_red_freq) = true) as Hdis
      by (vm_compute; reflexivity).
  split; [exact Hdis|].
  destruct (hot_cold_balance_three_hot_three_cold climbing_red_freq example_blue_freq 2
              counting_tape Hnd) as (recs & g' & E & _ & _ & Hv).
  - vm_compute. lia.
  - discriminate.
  - exists recs, g'. split; [exact E | exact (Hv Hr Hb Hdis)].
Defined.

(** X11.  Hot and cold raises [ValueError] when the red table lists fewer
    than three numbers, and [IndexError] when the red table lists at least
    three (none twice) and the blue table is empty, for every count of at
    least 1; with a count of 0 or less it returns the empty list whatever
    the tables. *)
Theorem hot_cold_balance_raises_on_short_tables red_freq blue_freq count g :
  (1 <= count -> (length red_freq < 3)%nat ->
   _hot_cold_balance red_freq blue_freq count g = Raise ValueError) /\
  (1 <= count -> NoDup (map fst red_freq) -> (3 <= length red_freq)%nat ->
   _hot_cold_balance red_freq [] count g = Raise IndexError) /\
  (count <= 0 -> _hot_cold_balance red_freq blue_freq count g = Ok [] g).
Proof.
  split; [|split].
  - intros Hc Hlen. unfold _hot_cold_balance, for_range.
    destruct (Z.to_nat count) as [|n] eqn:En; [lia|].
    cbn [append_each]. unfold bind at 1. unfold hot_cold_one. unfold bind at 1.
    rewrite sample_too_many; [reflexivity|].
    unfold Py.slice_to. rewrite length_map, length_firstn.
    rewrite (Permutation_length (sorted_desc_perm red_freq)). lia.
  - intros Hc Hnd Hlen. unfold _hot_cold_balance, for_range.
    destruct (Z.to_nat count) as [|n] eqn:En; [lia|].
    destruct (sample_Ok (hot_pool red_freq) 3 g) as (hs & E1 & _).
    { exact (pool_length red_freq (Py.sorted_desc red_freq) (sorted_desc_perm _) Hlen). }
    { exact (ranked_keys_NoDup red_freq (Py.sorted_desc red_freq) 10
               (sorted_desc_perm _) Hnd). }
    destruct (sample_Ok (cold_pool red_freq) 3 (advance 3 g)) as (cs & E2 & _).
    { exact (pool_length red_freq (Py.sorted_asc red_freq) (sorted_asc_perm _) Hlen). }
    { exact (ranked_keys_NoDup red_freq (Py.sorted_asc red_freq) 10
               (sorted_asc_perm _) Hnd). }
    cbn [append_each]. unfold bind at 1. unfold hot_cold_one.
    fold (hot_pool red_freq) (cold_pool red_freq).
    rewrite (bind_eq _ _ _ _ _ E1). cbv beta.
    rewrite (bind_eq _ _ _ _ _ E2). cbv beta. reflexivity.
  - intros Hc. unfold _hot_cold_balance, for_range.
    replace (Z.to_nat count) with 0%nat by lia. reflexivity.
Qed.

(** One red number in the table, one recommendation asked for. *)
Lemma hot_cold_balance_raises_on_short_tables_witness :
  _hot_cold_balance [(7, 2)] [(1, 1)] 1 zero_tape = Raise ValueError.
Proof.
  destruct (hot_cold_balance_raises_on_short_tables [(7, 2)] [(1, 1)] 1 zero_tape)
    as (H & _).
  apply H; [lia | simpl; lia].
Defined.

(** ** The cache *)

(** X12.  The records that [save_data_to_cache] keeps parse to the same red
    and blue numbers as the records it was given: a missing field becomes
    the empty string, which the parser skips as it skips a missing field. *)
Theorem simplified_data_parses_alike data :
  SSQCore.parse_numbers (SSQCore.simplified_data data) = SSQCore.parse_numbers data.
Proof.
  unfold SSQCore.parse_numbers, SSQCore.simplified_data.
  rewrite !parse_fold. cbn [fst snd app]. rewrite !map_map.
  assert (forall it, red_added (SSQCore.simplify it) = red_added it) as Hr.
  { intros [[r|] b]; reflexivity. }
  assert (forall it, blue_added (SSQCore.simplify it) = blue_added it) as Hb.
  { intros [r [b|]]; reflexivity. }
  now rewrite (map_ext _ _ Hr), (map_ext _ _ Hb).
Qed.

(** ** The queue, first in first out *)

(** X13.  After any messages have been sent to a queue, as many calls of
    [receive] as there are pending messages return the pending ones first
    and then the new ones, each in the order sent, and leave the queue
    empty; one more call returns [(None, None)].  [clear] leaves the queue
    empty whatever it held, so that the next [receive] returns
    [(None, None)]. *)
Theorem receive_in_sending_order q msgs :
  receive_many (length q + length msgs) (MessageQueue.send_all q msgs) =
    (map (fun m => (Some (fst m), snd m)) (q ++ msgs), []) /\
  receive_many (S (length q + length msgs)) (MessageQueue.send_all q msgs) =
    (map (fun m => (Some (fst m), snd m)) (q ++ msgs) ++ [(None, None)], []) /\
  MessageQueue.clear (MessageQueue.send_all q msgs) = [] /\
  MessageQueue.receive (MessageQueue.clear (MessageQueue.send_all q msgs)) =
    ((None, None), []).
Proof.
  assert (forall sent q0, MessageQueue.send_all q0 sent = q0 ++ sent) as Hall.
  { induction sent as [|[t d] sent IH]; intros q0; simpl.
    - now rewrite app_nil_r.
    - rewrite IH. unfold MessageQueue.send. simpl. now rewrite <- app_assoc. }
  assert (forall l extra,
             receive_many (length l + extra) l =
             (map (fun m => (Some (fst m), snd m)) l ++ fst (receive_many extra []), [])
             /\ snd (receive_many extra []) = []) as Hmany.
  { intros l extra.
    assert (snd (receive_many extra []) = []) as Hnil.
    { induction extra as [|n IH]; [reflexivity|]. simpl.
      destruct (receive_many n []) as [ms q'']. exact IH. }
    split; [|exact Hnil].
    induction l as [|[t d] l IH]; simpl.
    - destruct (receive_many extra []) as [ms q'']. cbn [fst snd] in *. now subst q''.
    - rewrite IH. reflexivity. }
  assert (forall l, MessageQueue.clear l = []) as Hclear
      by (induction l; simpl; auto).
  rewrite Hall, <- length_app.
  split; [|split; [|split]].
  - rewrite <- (Nat.add_0_r (length (q ++ msgs))).
    rewrite (proj1 (Hmany (q ++ msgs) 0%nat)). simpl. now rewrite app_nil_r.
  - replace (S (length (q ++ msgs))) with (length (q ++ msgs) + 1)%nat by lia.
    rewrite (proj1 (Hmany (q ++ msgs) 1%nat)). reflexivity.
  - apply Hclear.
  - now rewrite Hclear.
Qed.

(** ** The worker, from the cache to the message *)

(** X14.  What the recommendation worker reports, for any cached records,
    budget and tape.  Pure random, interval distribution and odd-even
    balance always produce five well-formed recommendations.  Frequency
    weighted, sum optimised and no consecutive never report an error.
    Pure frequency reports an error exactly when the records hold no
    usable blue number, and hot and cold exactly when they hold fewer
    than three different usable red numbers or no usable blue number;
    otherwise both report success. *)
Theorem worker_message_by_strategy fuel data g :
  five_well_formed (SSQGUI.worker_recommendations fuel (Member PURE_RANDOM) data g) /\
  five_well_formed
    (SSQGUI.worker_recommendations fuel (Member INTERVAL_DISTRIBUTION) data g) /\
  five_well_formed (SSQGUI.worker_recommendations fuel (Member ODD_EVEN_BALANCE) data g) /\
  SSQGUI._generate_recommend_worker fuel (Member FREQUENCY_WEIGHTED) data g <>
    Some MessageQueue.ERROR /\
  SSQGUI._generate_recommend_worker fuel (Member SUM_OPTIMIZED) data g <>
    Some MessageQueue.ERROR /\
  SSQGUI._generate_recommend_worker fuel (Member NO_CONSECUTIVE) data g <>
    Some MessageQueue.ERROR /\
  SSQGUI._generate_recommend_worker fuel (Member PURE_FREQUENCY) data g =
    Some (if (length (usable_blues data) =? 0)%nat
          then MessageQueue.ERROR else MessageQueue.RECOMMEND_SUCCESS) /\
  SSQGUI._generate_recommend_worker fuel (Member HOT_COLD_BALANCE) data g =
    Some (if ((length (usable_reds data) <? 3)%nat ||
              (length (usable_blues data) =? 0)%nat)%bool
          then MessageQueue.ERROR else MessageQueue.RECOMMEND_SUCCESS).
Proof.
  unfold SSQGUI._generate_recommend_worker, five_well_formed, usable_reds, usable_blues.
  rewrite !worker_recommendations_eq, <- !analysed_length.
  assert (table 33 (SSQCore.count_into 33 [] (fst (SSQCore.parse_numbers data)))) as Hr
      by apply count_into_table, table_nil.
  assert (table 16 (SSQCore.count_into 16 [] (snd (SSQCore.parse_numbers data)))) as Hb
      by apply count_into_table, table_nil.
  set (red_freq := SSQCore.count_into 33 [] (fst (SSQCore.parse_numbers data))) in *.
  set (blue_freq := SSQCore.count_into 16 [] (snd (SSQCore.parse_numbers data))) in *.
  clearbody red_freq blue_freq.
  change (generate fuel (Member PURE_RANDOM) red_freq blue_freq 5 g)
    with (for_range 5 pure_random_one g).
  change (generate fuel (Member INTERVAL_DISTRIBUTION) red_freq blue_freq 5 g)
    with (for_range 5 interval_one g).
  change (generate fuel (Member ODD_EVEN_BALANCE) red_freq blue_freq 5 g)
    with (for_range 5 odd_even_one g).
  change (generate fuel (Member FREQUENCY_WEIGHTED) red_freq blue_freq 5 g)
    with (_frequency_weighted fuel red_freq blue_freq 5 g).
  change (generate fuel (Member SUM_OPTIMIZED) red_freq blue_freq 5 g)
    with (_sum_optimized fuel red_freq blue_freq 5 g).
  change (generate fuel (Member NO_CONSECUTIVE) red_freq blue_freq 5 g)
    with (_no_consecutive fuel red_freq blue_freq 5 g).
  change (generate fuel (Member PURE_FREQUENCY) red_freq blue_freq 5 g)
    with (_pure_frequency red_freq blue_freq 5 g).
  change (generate fuel (Member HOT_COLD_BALANCE) red_freq blue_freq 5 g)
    with (_hot_cold_balance red_freq blue_freq 5 g).
  split; [|split; [|split; [|split; [|split; [|split; [|split]]]]]].
  - exact (for_range_total valid_recommendation pure_random_one pure_random_one_Ok 5 g).
  - apply (for_range_total valid_recommendation interval_one); intros g0.
    destruct (interval_one_Ok g0) as (rec & g1 & E & Hv & _).
    exists rec, g1. exact (conj E Hv).
  - apply (for_range_total valid_recommendation odd_even_one); intros g0.
    destruct (odd_even_one_Ok g0) as (rec & g1 & E & Hv & _).
    exists rec, g1. exact (conj E Hv).
  - intros H.
    destruct (_frequency_weighted fuel red_freq blue_freq 5 g) as [recs g'|e|] eqn:E;
      [inversion H | clear H | inversion H].
    exfalso. exact (frequency_weighted_table_no_raise _ _ _ _ _ _ Hr Hb E).
  - intros H.
    destruct (_sum_optimized fuel red_freq blue_freq 5 g) as [recs g'|e|] eqn:E;
      [inversion H | clear H | inversion H].
    exfalso. revert E. apply append_each_no_raise.
    intros g0 e0. apply sum_optimized_one_no_raise.
  - intros H.
    destruct (_no_consecutive fuel red_freq blue_freq 5 g) as [recs g'|e|] eqn:E;
      [inversion H | clear H | inversion H].
    exfalso. revert E. apply append_each_no_raise.
    intros g0 e0. apply no_consecutive_one_no_raise.
  - destruct blue_freq as [|kv blue_freq]; [reflexivity|].
    destruct (pure_frequency_Ok red_freq (kv :: blue_freq) 5 g) as (recs & E & _);
      [discriminate|].
    rewrite E. reflexivity.
  - destruct (Nat.ltb_spec (length red_freq) 3) as [Hlen|Hlen].
    + rewrite hot_cold_short_raises by (lia || exact Hlen). reflexivity.
    + destruct blue_freq as [|kv blue_freq].
      * rewrite hot_cold_no_blue_raises; [reflexivity | lia | exact (proj1 Hr) | exact Hlen].
      * destruct (for_range_total (hot_cold_shape red_freq (kv :: blue_freq))
                    (hot_cold_one red_freq (kv :: blue_freq))) with (count := 5) (g := g)
          as (recs & g' & E & _).
        { intros g0. apply hot_cold_one_Ok; [exact (proj1 Hr) | exact Hlen | discriminate]. }
        unfold _hot_cold_balance. rewrite E. reflexivity.
Qed.

(** One record whose blue field is no number: pure frequency reports an
    error, pure random five recommendations. *)
Lemma worker_message_by_strategy_witness :
  SSQGUI._generate_recommend_worker 0 (Member PURE_FREQUENCY)
    [{| SSQCore.red := Some "01,02,03,04,05,06"%string;
        SSQCore.blue := Some "x"%string |}] zero_tape = Some MessageQueue.ERROR.
Proof.
  destruct (worker_message_by_strategy 0
              [{| SSQCore.red := Some "01,02,03,04,05,06"%string;
                  SSQCore.blue := Some "x"%string |}] zero_tape)
    as (_ & _ & _ & _ & _ & _ & H & _).
  exact H.
Defined.

(** ** The history panel *)

(** X15.  The history panel is filled only from tables of at least 14 red
    and 14 blue numbers: then each of its four parts shows seven lines,
    which list, two to a line, the 14 hottest reds, the 14 coldest reds,
    the 14 hottest blues and the 14 coldest blues in ranking order.  With
    fewer than 14 numbers in either table reading the lines raises
    [IndexError] and no part is filled. *)
Theorem history_panels_need_fourteen red_freq blue_freq :
  ((14 <= length red_freq)%nat -> (14 <= length blue_freq)%nat ->
   exists hot_red cold_red hot_blue cold_blue,
     SSQGUI.history_panels red_freq blue_freq =
       Some (hot_red, cold_red, hot_blue, cold_blue) /\
     Forall (fun lines => length lines = 7%nat) [hot_red; cold_red; hot_blue; cold_blue] /\
     entries_of hot_red = firstn 14 (Py.sorted_desc red_freq) /\
     entries_of cold_red = firstn 14 (Py.sorted_asc red_freq) /\
     entries_of hot_blue = firstn 14 (Py.sorted_desc blue_freq) /\
     entries_of cold_blue = firstn 14 (Py.sorted_asc blue_freq)) /\
  ((length red_freq < 14)%nat \/ (length blue_freq < 14)%nat ->
   SSQGUI.history_panels red_freq blue_freq = None).
Proof.
  pose proof (Permutation_length (sorted_desc_perm red_freq)) as L1.
  pose proof (Permutation_length (sorted_asc_perm red_freq)) as L2.
  pose proof (Permutation_length (sorted_desc_perm blue_freq)) as L3.
  pose proof (Permutation_length (sorted_asc_perm blue_freq)) as L4.
  destruct (panel_lines_spec (Py.sorted_desc red_freq)) as [A1 B1].
  destruct (panel_lines_spec (Py.sorted_asc red_freq)) as [A2 B2].
  destruct (panel_lines_spec (Py.sorted_desc blue_freq)) as [A3 B3].
  destruct (panel_lines_spec (Py.sorted_asc blue_freq)) as [A4 B4].
  unfold SSQGUI.history_panels. split.
  - intros Hr Hb.
    destruct A1 as (l1 & E1 & N1 & F1); [lia|].
    destruct A2 as (l2 & E2 & N2 & F2); [lia|].
    destruct A3 as (l3 & E3 & N3 & F3); [lia|].
    destruct A4 as (l4 & E4 & N4 & F4); [lia|].
    exists l1, l2, l3, l4. rewrite E1, E2, E3, E4.
    split; [reflexivity|].
    split; [repeat constructor; assumption|].
    split; [exact F1|]. split; [exact F2|]. split; [exact F3 | exact F4].
  - intros [H | H].
    + rewrite B1 by lia. reflexivity.
    + destruct (SSQGUI.panel_lines (Py.sorted_desc red_freq)); [|reflexivity].
      destruct (SSQGUI.panel_lines (Py.sorted_asc red_freq)); [|reflexivity].
      rewrite B3 by lia. reflexivity.
Qed.

(** The example tables: 33 reds, but only two blues. *)
Lemma history_panels_need_fourteen_witness :
  SSQGUI.history_panels example_red_freq example_blue_freq = None.
Proof.
  destruct (history_panels_need_fourteen example_red_freq example_blue_freq) as [_ H].
  apply H. right. simpl. lia.
Defined.

(** ** The latest draw *)

(** X16.  What the latest-draw display shows for the first record, against
    what the parser counts for it.  The display raises exactly when the
    red field is there, not empty, and has a piece that is no integer, or
    the blue field is there, not empty, and is no integer; the parser adds
    nothing for such a field, and does not fail.  When the display
    returns, its blue numbers are the ones the parser adds, and its red
    numbers are the ones the parser adds if there are six of them; a red
    field of another number of integers is shown although the parser adds
    nothing for it.  Without records nothing is shown. *)
Theorem latest_draw_shown_as_parsed latest rest :
  (SSQGUI.show_latest_result (latest :: rest) = None <->
   (exists s, SSQCore.red latest = Some s /\ s <> EmptyString /\
              SSQCore.ints_of (Str.split "," s) = None) \/
   (exists s, SSQCore.blue latest = Some s /\ s <> EmptyString /\
              Str.int s = None)) /\
  ((exists s, SSQCore.red latest = Some s /\ s <> EmptyString /\
              SSQCore.ints_of (Str.split "," s) = None) ->
   red_added latest = []) /\
  ((exists s, SSQCore.blue latest = Some s /\ s <> EmptyString /\
              Str.int s = None) ->
   blue_added latest = []) /\
  (forall reds blues,
      SSQGUI.show_latest_result (latest :: rest) = Some (Some (reds, blues)) ->
      blue_added latest = blues /\
      red_added latest = (if (length reds =? 6)%nat then reds else [])) /\
  SSQGUI.show_latest_result [] = Some None.
Proof.
  unfold SSQGUI.show_latest_result.
  rewrite (red_list_added latest), (blue_list_added latest).
  rewrite <- (red_list_None latest), <- (blue_list_None latest).
  destruct (SSQGUI.red_list latest) as [rl|]; destruct (SSQGUI.blue_list latest) as [bl|].
  - split; [split; [discriminate | intros [H | H]; discriminate]|].
    split; [discriminate|]. split; [discriminate|]. split; [|reflexivity].
    intros reds blues H. injection H as <- <-. split; reflexivity.
  - split; [split; [now right | reflexivity]|].
    split; [discriminate|]. split; [reflexivity|]. split; [discriminate | reflexivity].
  - split; [split; [now left | reflexivity]|].
    split; [reflexivity|]. split; [discriminate|]. split; [discriminate | reflexivity].
  - split; [split; [now left | reflexivity]|].
    split; [reflexivity|]. split; [reflexivity|]. split; [discriminate | reflexivity].
Qed.

(** A record whose blue field is no number: the display raises, the parser
    adds the six reds and no blue. *)
Lemma latest_draw_shown_as_parsed_witness :
  SSQGUI.show_latest_result
    [{| SSQCore.red := Some "01,02,03,04,05,06"%string;
        SSQCore.blue := Some "x"%string |}] = None /\
  blue_added {| SSQCore.red := Some "01,02,03,04,05,06"%string;
                SSQCore.blue := Some "x"%string |} = [] /\
  red_added {| SSQCore.red := Some "1,2,3,4,5"%string; SSQCore.blue := Some "07"%string |} =
    [].
Proof.
  destruct (latest_draw_shown_as_parsed
              {| SSQCore.red := Some "01,02,03,04,05,06"%string;
                 SSQCore.blue := Some "x"%string |} []) as (Hraise & _ & Hblue & _).
  destruct (latest_draw_shown_as_parsed
              {| SSQCore.red := Some "1,2,3,4,5"%string; SSQCore.blue := Some "07"%string |}
              []) as (_ & _ & _ & Hshown & _).
  assert (exists s,
             SSQCore.blue {| SSQCore.red := Some "01,02,03,04,05,06"%string;
                             SSQCore.blue := Some "x"%string |} = Some s /\
             s <> EmptyString /\ Str.int s = None) as Hx.
  { exists "x"%string. split; [reflexivity|]. split; [discriminate | vm_compute; reflexivity]. }
  split; [apply (proj2 Hraise); right; exact Hx|].
  split; [exact (Hblue Hx)|].
  apply (Hshown [1; 2; 3; 4; 5] [7]). vm_compute. reflexivity.
Defined.

(** ** The chart of the recommendations *)

(** X17.  The chart of the recommendations is never drawn from a text the
    worker has written.  Whatever the strategy, the history and the
    recommendations (at least one), reading the panel back ends in the
    error branch: on the first recommendation line the text taken for the
    red numbers runs up to the second opening bracket, so it ends with the
    label of the blue ball, which is no integer.  The same holds line by
    line: no recommendation line the worker can write, whatever its number
    and its recommendation, is read back. *)
Theorem chart_fails_on_result_text algorithm red_balls blue_balls rec recs :
  SSQGUI.show_recommendation_chart
    (SSQGUI.result_text algorithm red_balls blue_balls (rec :: recs)
       ++ String Str.newline EmptyString) = SSQGUI.Failed /\
  (forall i rec', SSQGUI.chart_line (SSQGUI.result_line i rec') = None) /\
  (forall i rec' above below read,
      SSQGUI.chart_lines (above ++ SSQGUI.result_line i rec' :: below) read = None).
Proof.
  split; [apply chart_of_result_text|].
  split; [apply chart_line_of_result_line|].
  intros i rec' above below read.
  apply (chart_lines_of_result_line _ i rec'), in_elt.
Qed.

(** ** The selection of the strategy *)

(** X18.  Selecting a strategy by its description finds that strategy: the
    options of the selection box are the descriptions of the eight members,
    no two of them equal; the search started with the description of a
    member returns that member, a search that succeeds returns a member
    with the selected description, and a text that is no option finds
    none. *)
Theorem selection_finds_the_algorithm :
  (forall algorithm,
      SSQGUI.selected_algorithm (SSQGUI.description algorithm) = Some algorithm) /\
  NoDup SSQGUI.algo_options /\
  (forall selected_desc algorithm,
      SSQGUI.selected_algorithm selected_desc = Some algorithm ->
      SSQGUI.description algorithm = selected_desc) /\
  (forall selected_desc,
      ~ In selected_desc SSQGUI.algo_options ->
      SSQGUI.selected_algorithm selected_desc = None).
Proof.
  assert (forall selected_desc algorithm,
             SSQGUI.selected_algorithm selected_desc = Some algorithm ->
             SSQGUI.description algorithm = selected_desc) as Hfound.
  { intros selected_desc algorithm H. apply find_some in H.
    now apply String.eqb_eq. }
  split; [intros algorithm; destruct algorithm; vm_compute; reflexivity|].
  split.
  - assert (nodup string_dec SSQGUI.algo_options = SSQGUI.algo_options) as E
        by (vm_compute; reflexivity).
    rewrite <- E. apply NoDup_nodup.
  - split; [exact Hfound|].
    intros selected_desc Hno.
    destruct (SSQGUI.selected_algorithm selected_desc) as [algorithm|] eqn:E;
      [|reflexivity].
    exfalso. apply Hno. rewrite <- (Hfound _ _ E).
    apply in_map. destruct algorithm; simpl; tauto.
Qed.

(** The description of pure random selects pure random. *)
Lemma selection_finds_the_algorithm_witness :
  SSQGUI.description PURE_RANDOM = "纯随机"%string.
Proof.
  destruct selection_finds_the_algorithm as (_ & _ & H & _).
  apply H. vm_compute. reflexivity.
Defined.
